(** * Competitor intelligence agent team: analysis pipeline and enrichment loop

    A shallow embedding of [Competor_Intellengce/competitor_agent_team.py]:
    the classes [AnalysisAgent], [ComparisonAgent] and
    [CompetitorIntelligenceTeam], with the properties their specification
    states about them.

    Modelling conventions.
    - Python values that flow through the program (competitor dictionaries,
      crawler results, decoded JSON) are values of [pyval].  A [dict] with
      string keys is a [gmap string pyval]; the iteration order of a mapping
      is not represented.
    - A Python [str] is a [string]: a sequence of characters with code points
      below 256.
    - A call either returns or raises: [result].  [exn] ranges over the
      subclasses of [Exception] (what [except Exception] catches).
    - Everything the program does to the outside (Streamlit messages and
      progress updates, [print], calls to the crawler, the search service and
      the LLM backend) is recorded as a chronological list of [event]s.  The
      external collaborators are functions of the events so far and of their
      argument, so that a collaborator may answer differently on every call.
    - The fraction passed to a progress bar is an exact rational; float
      division is monotone and [n / n] is [1.0], so order and end point carry
      over.
    - Library functions the program calls ([json.loads], [json.dumps], [str],
      the truth value of a float) are parameters of the embedding, collected
      with the collaborators in [Env].  Module [Json] gives a reference
      decoder used to run the program on concrete responses. *)

From Stdlib Require Import ZArith QArith Ascii String List Lia.
From stdpp Require Import gmap strings list pretty.

#[local] Set Warnings "-register-all".

(** ** Python values *)

Inductive pyval :=
| PNone
| PBool (b : bool)
| PInt (z : Z)
| PFloat (lit : string)
| PStr (s : string)
| PList (l : list pyval)
| PDict (d : gmap string pyval).

Abbreviation dict := (gmap string pyval).

Record exn := PyExc { exc_type : string; exc_msg : string }.

Inductive result (A : Type) :=
| Ok (a : A)
| Raise (e : exn).
Arguments Ok {A} a.
Arguments Raise {A} e.

Definition AttributeError (msg : string) : exn := PyExc "AttributeError" msg.
Definition TypeError (msg : string) : exn := PyExc "TypeError" msg.
Definition JSONDecodeError (msg : string) : exn := PyExc "JSONDecodeError" msg.

Definition is_JSONDecodeError (e : exn) : bool :=
  String.eqb (exc_type e) "JSONDecodeError".

(** [d.get(key, default)] on a dictionary. *)
Definition dict_get (d : dict) (key : string) (dflt : pyval) : pyval :=
  default dflt (d !! key).

(** [d.setdefault(key, value)]: the mapping afterwards. *)
Definition dict_setdefault (d : dict) (key : string) (value : pyval) : dict :=
  match d !! key with
  | Some _ => d
  | None => <[key := value]> d
  end.

(** [x.get(key, default)] on an arbitrary value: only mappings have [get]. *)
Definition py_get (x : pyval) (key : string) (dflt : pyval) : result pyval :=
  match x with
  | PDict d => Ok (dict_get d key dflt)
  | _ => Raise (AttributeError "object has no attribute 'get'")
  end.

(** [needle in haystack] for strings. *)
Definition str_contains (needle haystack : string) : bool :=
  match String.index 0 needle haystack with
  | Some _ => true
  | None => false
  end.

(** [key in x] for a string [key]: membership in a mapping, an element equal
    to the string in a list, a substring of a string; other values are not
    iterable. *)
Definition py_contains (key : string) (x : pyval) : result bool :=
  match x with
  | PDict d => Ok (bool_decide (is_Some (d !! key)))
  | PList l =>
      Ok (existsb (fun v => match v with PStr s => String.eqb key s | _ => false end) l)
  | PStr s => Ok (str_contains key s)
  | _ => Raise (TypeError "argument is not iterable")
  end.

(** ** The outside world *)

Inductive llm_client := OpenAIClient | AnthropicClient | GoogleModel | AzureOpenAIClient.

(** The attributes of an [AnalysisAgent] instance as [__init__] leaves them. *)
Record AnalysisAgent := {
  provider : string;
  api_key : option string;
  model_id : option string;
  client : option llm_client
}.

Inductive event :=
| StWarning (msg : string)
| StError (msg : string)
| Print (msg : string)
| StProgress (value : Q) (text : string)
| CrawlCall (url : pyval)
| SummarizeCall (content : pyval)
| SearchCall (description : pyval)
| LLMCall (agent : AnalysisAgent) (prompt : string).

Record Env := {
  (* library functions *)
  json_loads : string -> result pyval;
  json_dumps : pyval -> string;
  str_other : pyval -> string;
  float_truthy : string -> bool;
  (* collaborators: the events so far, the argument, the outcome *)
  crawl_website : list event -> pyval -> result pyval;
  summarize_content : list event -> pyval -> result pyval;
  find_similar_companies : list event -> pyval -> result (list dict);
  llm_chat : list event -> AnalysisAgent -> string -> result (option string)
}.

(** ** Computations: events emitted, then a value or an exception *)

Definition M (A : Type) : Type := list event -> list event * result A.

Definition ret {A} (a : A) : M A := fun _ => ([], Ok a).

Definition raise {A} (e : exn) : M A := fun _ => ([], Raise e).

Definition bind {A B} (m : M A) (k : A -> M B) : M B :=
  fun h =>
    match m h with
    | (es, Ok a) => let '(es', r) := k a (h ++ es) in (es ++ es', r)
    | (es, Raise e) => (es, Raise e)
    end.

Definition emit (ev : event) : M unit := fun _ => ([ev], Ok tt).

Definition lift {A} (r : result A) : M A := fun _ => ([], r).

(** A call to a collaborator: recorded, and answered from the events so far. *)
Definition call {A} (ev : event) (answer : list event -> result A) : M A :=
  fun h => ([ev], answer h).

(** [try: body  except Exception as e: handler e]. *)
Definition try_except {A} (body : M A) (handler : exn -> M A) : M A :=
  fun h =>
    match body h with
    | (es, Ok a) => (es, Ok a)
    | (es, Raise e) => let '(es', r) := handler e (h ++ es) in (es ++ es', r)
    end.

(** [try: body  except json.JSONDecodeError: handler]. *)
Definition try_except_decode {A} (body : M A) (handler : M A) : M A :=
  try_except body (fun e => if is_JSONDecodeError e then handler else raise e).

Declare Scope py_scope.
Delimit Scope py_scope with py.
Notation "x <- m ;; k" := (bind m (fun x => k))
  (at level 100, m at next level, right associativity) : py_scope.
Notation "m ;;; k" := (bind m (fun _ => k))
  (at level 100, right associativity) : py_scope.

Definition events {A} (run : list event * result A) : list event := fst run.
Definition outcome {A} (run : list event * result A) : result A := snd run.

(** ** Truth values *)

(** [bool(x)].  The truth value of a float is taken from its literal by the
    library function [truthy_float]. *)
Definition truthy (truthy_float : string -> bool) (x : pyval) : bool :=
  match x with
  | PNone => false
  | PBool b => b
  | PInt z => negb (Z.eqb z 0)
  | PFloat lit => truthy_float lit
  | PStr s => negb (String.eqb s EmptyString)
  | PList l => match l with [] => false | _ => true end
  | PDict d => negb (bool_decide (dom d = ∅))
  end.

(** [bool(x)] for an attribute that is [None] or a string. *)
Definition truthy_opt (x : option string) : bool :=
  match x with
  | Some s => negb (String.eqb s EmptyString)
  | None => false
  end.

(** ** A reference decoder for [json.loads]

    The grammar CPython's [json] module accepts with its default settings:
    RFC 8259 together with the constants [NaN], [Infinity] and [-Infinity];
    [strict] strings (no raw control characters); a repeated key keeps its
    last value.  A [\uXXXX] escape above code point 255 denotes a character
    outside the 8-bit alphabet of [string] and is rejected here.  Interpreter limits
    (recursion depth, digits of an integer literal) are not represented. *)
Module Json.

Abbreviation DQ := (Ascii false true false false false true false false).

Definition is_ws (c : ascii) : bool :=
  match c with
  | " "%char | "009"%char | "010"%char | "013"%char => true
  | _ => false
  end.

Fixpoint skip_ws (s : list ascii) : list ascii :=
  match s with
  | c :: r => if is_ws c then skip_ws r else s
  | [] => []
  end.

Definition is_digit (c : ascii) : bool :=
  let n := nat_of_ascii c in (48 <=? n)%nat && (n <=? 57)%nat.

Definition hex_val (c : ascii) : option nat :=
  let n := nat_of_ascii c in
  if (48 <=? n)%nat && (n <=? 57)%nat then Some (n - 48)%nat
  else if (65 <=? n)%nat && (n <=? 70)%nat then Some (n - 55)%nat
  else if (97 <=? n)%nat && (n <=? 102)%nat then Some (n - 87)%nat
  else None.

Definition unescape (c : ascii) : option ascii :=
  match c with
  | DQ => Some DQ
  | "\"%char => Some "\"%char
  | "/"%char => Some "/"%char
  | "b"%char => Some "008"%char
  | "f"%char => Some "012"%char
  | "n"%char => Some "010"%char
  | "r"%char => Some "013"%char
  | "t"%char => Some "009"%char
  | _ => None
  end.

(** The characters of a string literal after its opening quote; [acc] holds
    the decoded characters so far, last first. *)
Fixpoint scanstring (s : list ascii) (acc : list ascii) : option (string * list ascii) :=
  match s with
  | [] => None
  | c :: r =>
      if Ascii.eqb c DQ then Some (string_of_list_ascii (rev acc), r)
      else if Ascii.eqb c "\" then
        match r with
        | "u"%char :: h1 :: h2 :: h3 :: h4 :: r' =>
            match hex_val h1, hex_val h2, hex_val h3, hex_val h4 with
            | Some 0%nat, Some 0%nat, Some a, Some b =>
                scanstring r' (ascii_of_nat (16 * a + b) :: acc)
            | _, _, _, _ => None
            end
        | e :: r' =>
            match unescape e with
            | Some c' => scanstring r' (c' :: acc)
            | None => None
            end
        | [] => None
        end
      else if (nat_of_ascii c <? 32)%nat then None
      else scanstring r (c :: acc)
  end.

Fixpoint span_digits (s : list ascii) : list ascii * list ascii :=
  match s with
  | c :: r =>
      if is_digit c then let '(ds, r') := span_digits r in (c :: ds, r') else ([], s)
  | [] => ([], [])
  end.

Definition digits_value (ds : list ascii) : Z :=
  fold_left (fun acc c => 10 * acc + Z.of_nat (nat_of_ascii c - 48))%Z ds 0%Z.

(** An optional minus sign, then a single zero or a digit string that does
    not start with zero: the sign, the digits, the rest. *)
Definition scan_integer (s : list ascii) : option (bool * list ascii * list ascii) :=
  let '(neg, s1) :=
    match s with
    | "-"%char :: r => (true, r)
    | _ => (false, s)
    end in
  match s1 with
  | "0"%char :: r => Some (neg, ["0"%char], r)
  | c :: _ =>
      if is_digit c then let '(ds, r) := span_digits s1 in Some (neg, ds, r) else None
  | [] => None
  end.

(** An optional fraction, a dot and at least one digit: the matched text,
    the rest. *)
Definition scan_frac (s : list ascii) : list ascii * list ascii :=
  match s with
  | "."%char :: r =>
      match span_digits r with
      | ([], _) => ([], s)
      | (ds, r') => ("."%char :: ds, r')
      end
  | _ => ([], s)
  end.

(** An optional exponent, [e] or [E], an optional sign and at least one
    digit: the matched text, the rest. *)
Definition scan_exp (s : list ascii) : list ascii * list ascii :=
  match s with
  | e :: r =>
      if Ascii.eqb e "e" || Ascii.eqb e "E" then
        let '(sgn, r1) :=
          match r with
          | "+"%char :: r1 => (["+"%char], r1)
          | "-"%char :: r1 => (["-"%char], r1)
          | _ => ([], r)
          end in
        match span_digits r1 with
        | ([], _) => ([], s)
        | (ds, r') => (e :: sgn ++ ds, r')
        end
      else ([], s)
  | [] => ([], s)
  end.

Definition scan_number (s : list ascii) : option (pyval * list ascii) :=
  match scan_integer s with
  | Some (neg, ds, r) =>
      let '(frac, r1) := scan_frac r in
      let '(ex, r2) := scan_exp r1 in
      match frac, ex with
      | [], [] =>
          Some (PInt (if neg then - digits_value ds else digits_value ds)%Z, r2)
      | _, _ =>
          Some (PFloat (string_of_list_ascii
                          ((if neg then ["-"%char] else []) ++ ds ++ frac ++ ex)), r2)
      end
  | None => None
  end.

Fixpoint strip_prefix (p s : list ascii) : option (list ascii) :=
  match p, s with
  | [], _ => Some s
  | a :: p', b :: s' => if Ascii.eqb a b then strip_prefix p' s' else None
  | _ :: _, [] => None
  end.

Definition scan_constant (s : list ascii) : option (pyval * list ascii) :=
  let try (word : string) (v : pyval) :=
    match strip_prefix (list_ascii_of_string word) s with
    | Some r => Some (v, r)
    | None => None
    end in
  match try "null" PNone with Some x => Some x | None =>
  match try "true" (PBool true) with Some x => Some x | None =>
  match try "false" (PBool false) with Some x => Some x | None =>
  match scan_number s with Some x => Some x | None =>
  match try "NaN" (PFloat "NaN") with Some x => Some x | None =>
  match try "Infinity" (PFloat "Infinity") with Some x => Some x | None =>
  try "-Infinity" (PFloat "-Infinity")
  end end end end end end.

(** One value at the head of [s] (no leading white space), the rest of the
    text after it.  [fuel] bounds the number of nested calls; one more than
    the length of the text is enough, since every call consumes a
    character before it recurses. *)
Fixpoint scan_once (fuel : nat) (s : list ascii) {struct fuel}
  : option (pyval * list ascii) :=
  match fuel with
  | O => None
  | S fuel' =>
      match s with
      | DQ :: r =>
          match scanstring r [] with
          | Some (str, r') => Some (PStr str, r')
          | None => None
          end
      | "{"%char :: r =>
          match skip_ws r with
          | "}"%char :: r' => Some (PDict ∅, r')
          | r1 => scan_members fuel' r1 ∅
          end
      | "["%char :: r =>
          match skip_ws r with
          | "]"%char :: r' => Some (PList [], r')
          | r1 => scan_elements fuel' r1 []
          end
      | _ => scan_constant s
      end
  end
with scan_members (fuel : nat) (s : list ascii) (acc : dict) {struct fuel}
  : option (pyval * list ascii) :=
  match fuel with
  | O => None
  | S fuel' =>
      match s with
      | DQ :: r =>
          match scanstring r [] with
          | Some (key, r1) =>
              match skip_ws r1 with
              | ":"%char :: r2 =>
                  match scan_once fuel' (skip_ws r2) with
                  | Some (v, r3) =>
                      let acc' := <[key := v]> acc in
                      match skip_ws r3 with
                      | "}"%char :: r4 => Some (PDict acc', r4)
                      | ","%char :: r4 => scan_members fuel' (skip_ws r4) acc'
                      | _ => None
                      end
                  | None => None
                  end
              | _ => None
              end
          | None => None
          end
      | _ => None
      end
  end
with scan_elements (fuel : nat) (s : list ascii) (acc : list pyval) {struct fuel}
  : option (pyval * list ascii) :=
  match fuel with
  | O => None
  | S fuel' =>
      match scan_once fuel' s with
      | Some (v, r1) =>
          match skip_ws r1 with
          | "]"%char :: r2 => Some (PList (rev (v :: acc)), r2)
          | ","%char :: r2 => scan_elements fuel' (skip_ws r2) (v :: acc)
          | _ => None
          end
      | None => None
      end
  end.

(** [json.loads(text)]: white space, one value, white space, end of text. *)
Definition loads (text : string) : result pyval :=
  let s := skip_ws (list_ascii_of_string text) in
  match scan_once (S (length s)) s with
  | Some (v, r) =>
      match skip_ws r with
      | [] => Ok v
      | _ => Raise (JSONDecodeError "Extra data")
      end
  | None => Raise (JSONDecodeError "Expecting value")
  end.

(** The truth value of the float a literal denotes.  Decimal-to-binary
    conversion rounds to nearest, ties to even, so the float is zero
    exactly when the magnitude of the literal is at most [2^-1075]. *)
Definition float_nonzero (lit : string) : bool :=
  let s := list_ascii_of_string lit in
  match scan_integer s with
  | Some (_, ds, r) =>
      let '(frac, r1) := scan_frac r in
      let '(ex, _) := scan_exp r1 in
      let fds := tl frac in
      let e : Z :=
        match ex with
        | _ :: "-"%char :: eds => - digits_value eds
        | _ :: "+"%char :: eds => digits_value eds
        | _ :: eds => digits_value eds
        | [] => 0
        end%Z in
      let mant := digits_value (ds ++ fds) in
      let k := (e - Z.of_nat (length fds))%Z in
      negb (Z.eqb mant 0)
      && ((0 <=? k)%Z || (10 ^ (- k) <? mant * 2 ^ 1075)%Z)
  | None => true
  end.

End Json.

(** ** AnalysisAgent *)

Definition nl : string := String "010"%char EmptyString.

Definition required_keys : list string :=
  ["strengths"; "weaknesses"; "opportunities"; "market_gaps";
   "pricing_strategies"; "growth_opportunities"; "recommendations"].

Definition strs (l : list string) : pyval := PList (PStr <$> l).

(** [re.search(r'\{.*\}', text, re.DOTALL)]: the text from the first opening
    brace to the last closing brace after it. *)
Fixpoint from_first_open (s : list ascii) : option (list ascii) :=
  match s with
  | [] => None
  | c :: r => if Ascii.eqb c "{" then Some s else from_first_open r
  end.

Fixpoint upto_last_close (s : list ascii) : option (list ascii) :=
  match s with
  | [] => None
  | c :: r =>
      match upto_last_close r with
      | Some p => Some (c :: p)
      | None => if Ascii.eqb c "}" then Some [c] else None
      end
  end.

Definition re_search_braces (text : string) : option string :=
  match from_first_open (list_ascii_of_string text) with
  | Some (c :: r) =>
      match upto_last_close r with
      | Some p => Some (string_of_list_ascii (c :: p))
      | None => None
      end
  | _ => None
  end.

Section Program.

Variable E : Env.

Definition py_truthy : pyval -> bool := truthy (float_truthy E).

(** [str(x)], as an f-string renders a value. *)
Definition py_str (x : pyval) : string :=
  match x with
  | PStr s => s
  | _ => str_other E x
  end.

Definition competitor_block (i : nat) (company : dict) : string :=
  nl +:+ "Competitor " +:+ pretty i +:+ ":" +:+ nl
  +:+ "  Name: " +:+ py_str (dict_get company "name" (PStr "N/A")) +:+ nl
  +:+ "  URL: " +:+ py_str (dict_get company "url" (PStr "N/A")) +:+ nl
  +:+ "  Description: " +:+ py_str (dict_get company "description" (PStr "N/A")) +:+ nl
  +:+ "  Summary: " +:+ py_str (dict_get company "summary" (PStr "N/A")) +:+ nl
  +:+ match company !! "metadata" with
      | Some metadata => "  Metadata: " +:+ json_dumps E metadata +:+ nl
      | None => EmptyString
      end.

Fixpoint competitor_blocks (i : nat) (company_data : list dict) : string :=
  match company_data with
  | [] => EmptyString
  | company :: rest => competitor_block i company +:+ competitor_blocks (S i) rest
  end.

Definition _generate_prompt (company_data : list dict) : string :=
  "Analyze the following competitor data and provide a detailed report including:" +:+ nl
  +:+ "- Strengths" +:+ nl +:+ "- Weaknesses" +:+ nl +:+ "- Opportunities" +:+ nl
  +:+ "- Market Gaps" +:+ nl
  +:+ "- Suggested Pricing Strategies" +:+ nl +:+ "- Potential Growth Opportunities" +:+ nl
  +:+ "- Actionable Recommendations" +:+ nl +:+ nl
  +:+ "Competitor Data:" +:+ nl
  +:+ competitor_blocks 1 company_data
  +:+ nl +:+ "Generate the analysis strictly in JSON format with keys: 'strengths', 'weaknesses', 'opportunities', 'market_gaps', 'pricing_strategies', 'growth_opportunities', 'recommendations'. Do not include any introductory text or explanations outside the JSON structure.".

Definition _parse_llm_response (response_text : string) : M pyval :=
  try_except_decode
    (lift (json_loads E response_text))
    (match re_search_braces response_text with
     | Some json_match =>
         try_except_decode
           (lift (json_loads E json_match))
           (emit (Print "Extracted text looked like JSON but failed to parse.") ;;;
            ret PNone)
     | None =>
         (emit (Print "Could not find JSON structure in the response.") ;;;
          ret PNone)
     end)%py.

Definition mock_report : dict :=
  list_to_map
    [("strengths", strs ["Mock: Strong online presence"; "Mock: Innovative product lineup"]);
     ("weaknesses", strs ["Mock: Limited market reach"; "Mock: Price point concerns"]);
     ("opportunities", strs ["Mock: Expand to new markets"; "Mock: Develop budget offerings"]);
     ("market_gaps", strs ["Mock: Underserved budget segment"]);
     ("pricing_strategies", strs ["Mock: Consider freemium model"]);
     ("growth_opportunities", strs ["Mock: International expansion"]);
     ("recommendations", strs ["Mock: Develop a stronger social media presence"])].

Definition _generate_mock_report : M pyval :=
  (emit (Print "Generating mock analysis report...") ;;;
   ret (PDict mock_report))%py.

(** [all(key in analysis_data for key in required_keys)]: the generator
    stops at the first key that is absent, or at the first test that
    raises. *)
Fixpoint all_keys_in (keys : list string) (analysis_data : pyval) : result bool :=
  match keys with
  | [] => Ok true
  | key :: rest =>
      match py_contains key analysis_data with
      | Ok true => all_keys_in rest analysis_data
      | Ok false => Ok false
      | Raise e => Raise e
      end
  end.

(** [for key in required_keys: analysis_data.setdefault(key, ["N/A"])]:
    the object afterwards.  Only a mapping has [setdefault]. *)
Definition fill_missing (d : dict) : dict :=
  foldl (fun acc key => dict_setdefault acc key (strs ["N/A"])) d required_keys.

Definition setdefault_required (analysis_data : pyval) : result pyval :=
  match analysis_data with
  | PDict d => Ok (PDict (fill_missing d))
  | _ => Raise (AttributeError "object has no attribute 'setdefault'")
  end.

Definition in_BASE_URLS (p : string) : bool := String.eqb p "deepseek".

(** The providers for which [generate_analysis_report] has a request branch. *)
Definition dispatches (p : string) : bool :=
  String.eqb p "openai" || String.eqb p "anthropic" || String.eqb p "google"
  || in_BASE_URLS p.

(** The provider-specific request, and the text taken out of its response;
    with no branch for the provider, [analysis_json_str] stays [None]. *)
Definition request_analysis (self : AnalysisAgent) (prompt : string) : M (option string) :=
  if dispatches (provider self)
  then call (LLMCall self prompt) (fun h => llm_chat E h self prompt)
  else ret None.

Definition generating_message (self : AnalysisAgent) : string :=
  "Generating analysis using " +:+ provider self +:+ " model "
  +:+ default EmptyString (model_id self) +:+ "...".

Definition not_configured_warning : string :=
  "LLM provider not configured correctly (check API key/model selection). Using mock analysis data.".

(** Response parsing and validation. *)
Definition validate_response (self : AnalysisAgent) (analysis_json_str : option string)
  : M pyval :=
  (if truthy_opt analysis_json_str then
     analysis_data <- _parse_llm_response (default EmptyString analysis_json_str) ;;
     if py_truthy analysis_data then
       complete <- lift (all_keys_in required_keys analysis_data) ;;
       if complete then ret analysis_data
       else
         emit (StWarning "LLM response missing some expected analysis keys. Results might be incomplete.") ;;;
         lift (setdefault_required analysis_data)
     else
       emit (StError ("Could not parse valid JSON from " +:+ provider self +:+ " response.")) ;;;
       emit (Print (provider self +:+ " Raw Response: " +:+ default EmptyString analysis_json_str)) ;;;
       _generate_mock_report
   else
     emit (StError ("Received empty response from " +:+ provider self +:+ ".")) ;;;
     _generate_mock_report)%py.

Definition configured (self : AnalysisAgent) : bool :=
  bool_decide (is_Some (client self)) && truthy_opt (model_id self) && truthy_opt (api_key self).

Definition generate_analysis_report (self : AnalysisAgent) (company_data : list dict)
  : M pyval :=
  (if negb (configured self) then
     emit (StWarning not_configured_warning) ;;;
     _generate_mock_report
   else
     let prompt := _generate_prompt company_data in
     try_except
       (emit (Print (generating_message self)) ;;;
        analysis_json_str <- request_analysis self prompt ;;
        validate_response self analysis_json_str)
       (fun e =>
          emit (StError ("Error generating analysis report with " +:+ provider self +:+ ": "
                         +:+ exc_msg e)) ;;;
          emit (Print ("Error details: " +:+ exc_msg e)) ;;;
          _generate_mock_report))%py.

End Program.

(** ** ComparisonAgent *)

Definition rbind {A B} (r : result A) (k : A -> result B) : result B :=
  match r with
  | Ok a => k a
  | Raise e => Raise e
  end.

Declare Scope result_scope.
Delimit Scope result_scope with res.
Notation "x <- m ;; k" := (rbind m (fun x => k))
  (at level 100, m at next level, right associativity) : result_scope.

(** One row of the table, keyed by the column names of the source. *)
Record Row := {
  Company : pyval;
  Website : pyval;
  Description : string;
  Summary : string;
  Technologies : string;
  Team_Size : pyval;
  Founded : pyval
}.

Record DataFrame := { columns : list string; rows : list Row }.

Definition table_columns : list string :=
  ["Company"; "Website"; "Description"; "Summary"; "Technologies"; "Team Size"; "Founded"].

Fixpoint all_str (l : list pyval) : option (list string) :=
  match l with
  | [] => Some []
  | PStr s :: rest =>
      match all_str rest with
      | Some ss => Some (s :: ss)
      | None => None
      end
  | _ :: _ => None
  end.

Definition chars (s : string) : list string :=
  (fun c => String c EmptyString) <$> list_ascii_of_string s.

(** [sep.join(x)]: [x] is iterated and every item must be a string. *)
Definition py_join (sep : string) (x : pyval) : result string :=
  match x with
  | PList l =>
      match all_str l with
      | Some ss => Ok (String.concat sep ss)
      | None => Raise (TypeError "sequence item: expected str instance")
      end
  | PStr s => Ok (String.concat sep (chars s))
  | PDict d => Ok (String.concat sep (fst <$> map_to_list d))
  | _ => Raise (TypeError "can only join an iterable")
  end.

(** [x[:100] + "..."]: defined on strings; every other value raises (a list
    cannot be concatenated with a string, the rest cannot be sliced). *)
Definition truncate_with_ellipsis (x : pyval) : result string :=
  match x with
  | PStr s => Ok (String.substring 0 100 s +:+ "...")
  | _ => Raise (TypeError "unsupported operand")
  end.

Definition comparison_row (company : dict) : result Row :=
  (let metadata := dict_get company "metadata" (PDict ∅) in
   techs <- py_get metadata "technologies" (strs ["N/A"]) ;;
   technologies <- py_join ", " techs ;;
   team_size <- py_get metadata "team_size" (PStr "N/A") ;;
   founded <- py_get metadata "founded" (PStr "N/A") ;;
   description <- truncate_with_ellipsis (dict_get company "description" (PStr "N/A")) ;;
   summary <- truncate_with_ellipsis (dict_get company "summary" (PStr "N/A")) ;;
   Ok {| Company := dict_get company "name" (PStr "Unknown");
         Website := dict_get company "url" (PStr "N/A");
         Description := description;
         Summary := summary;
         Technologies := technologies;
         Team_Size := team_size;
         Founded := founded |})%res.

Fixpoint comparison_rows (company_data : list dict) : result (list Row) :=
  match company_data with
  | [] => Ok []
  | company :: rest =>
      (row <- comparison_row company ;;
       data <- comparison_rows rest ;;
       Ok (row :: data))%res
  end.

(** [pd.DataFrame(columns=[...])] for no rows, [pd.DataFrame(data)]
    otherwise: the columns are the keys of the row dictionaries. *)
Definition create_comparison_table (company_data : list dict) : result DataFrame :=
  (data <- comparison_rows company_data ;;
   Ok {| columns := table_columns; rows := data |})%res.

(** [pd.DataFrame()]: no columns, no rows. *)
Definition empty_DataFrame : DataFrame := {| columns := []; rows := [] |}.

(** ** CompetitorIntelligenceTeam *)

(** The crawler and search agents of the team are the collaborators of the
    environment; the comparison agent has no state. *)
Record CompetitorIntelligenceTeam := { analysis_agent : AnalysisAgent }.

Record IntelligenceReport := {
  competitors : list dict;
  analysis : pyval;
  comparison_table : DataFrame
}.

(** [re.match(r'^https?://', input_text)]. *)
Definition has_http_scheme (input_text : string) : bool :=
  String.prefix "http://" input_text || String.prefix "https://" input_text.

Definition with_summary (competitor : dict) (summary metadata : pyval) : dict :=
  <["metadata" := metadata]> (<["summary" := summary]> competitor).

Section Team.

Variable E : Env.

Definition progress_fraction (i num_competitors : nat) : Q :=
  Z.of_nat (i + 1) # Pos.of_nat num_competitors.

Definition progress_text (name : pyval) (i num_competitors : nat) : string :=
  "Crawling " +:+ py_str E name +:+ " (" +:+ pretty (i + 1)%nat +:+ "/"
  +:+ pretty num_competitors +:+ ")...".

(** The body of the enrichment loop for the candidate at index [i]. *)
Definition enrich_one (num_competitors i : nat) (competitor : dict) : M dict :=
  (let name := dict_get competitor "name" (PStr "Unknown") in
   let url := dict_get competitor "url" PNone in
   emit (StProgress (progress_fraction i num_competitors)
                    (progress_text name i num_competitors)) ;;;
   if py_truthy E url then
     try_except
       (crawl_data <- call (CrawlCall url) (fun h => crawl_website E h url) ;;
        content <- lift (py_get crawl_data "content" (PStr EmptyString)) ;;
        summary <- call (SummarizeCall content) (fun h => summarize_content E h content) ;;
        metadata <- lift (py_get crawl_data "metadata" (PDict ∅)) ;;
        ret (with_summary competitor summary metadata))
       (fun e =>
          emit (StWarning ("Could not crawl " +:+ py_str E name +:+ " (" +:+ py_str E url
                           +:+ "): " +:+ exc_msg e)) ;;;
          ret (with_summary competitor (PStr "Crawling failed") (PDict ∅)))
   else
     ret (with_summary competitor (PStr "No URL provided") (PDict ∅)))%py.

(** [for i, competitor in enumerate(competitors)], from index [i] on: the
    list [enriched_competitors] the iterations append to. *)
Fixpoint enrich_loop (num_competitors i : nat) (candidates : list dict) : M (list dict) :=
  match candidates with
  | [] => ret []
  | competitor :: rest =>
      (enriched <- enrich_one num_competitors i competitor ;;
       others <- enrich_loop num_competitors (S i) rest ;;
       ret (enriched :: others))%py
  end.

(** [discover_competitors] from the point where [description] is known. *)
Definition discover_from_description (description : pyval) : M (list dict) :=
  (if negb (py_truthy E description) then
     emit (StError "Cannot search for competitors without a description or URL.") ;;;
     ret []
   else
     candidates <- call (SearchCall description)
                        (fun h => find_similar_companies E h description) ;;
     emit (StProgress 0 "Crawling competitor websites...") ;;;
     let num_competitors := length candidates in
     if Nat.eqb num_competitors 0 then
       emit (StProgress 1 "No competitors found to crawl.") ;;;
       ret []
     else
       enriched_competitors <- enrich_loop num_competitors 0 candidates ;;
       emit (StProgress 1 "Competitor crawling complete.") ;;;
       ret enriched_competitors)%py.

Definition discover_competitors (input_text : string) (is_url : bool) : M (list dict) :=
  (if is_url then
     if negb (has_http_scheme input_text) then
       emit (StError "Invalid URL provided. Please include http:// or https://") ;;;
       ret []
     else
       company_data <- call (CrawlCall (PStr input_text))
                            (fun h => crawl_website E h (PStr input_text)) ;;
       description <- lift (py_get company_data "description" (PStr EmptyString)) ;;
       if negb (py_truthy E description) then
         emit (StWarning "Could not extract description from website for competitor search.") ;;;
         title <- lift (py_get company_data "title" (PStr EmptyString)) ;;
         discover_from_description title
       else discover_from_description description
   else discover_from_description (PStr input_text))%py.

Definition generate_intelligence_report
    (self : CompetitorIntelligenceTeam) (records : list dict) : M IntelligenceReport :=
  match records with
  | [] =>
      ret {| competitors := []; analysis := PDict ∅; comparison_table := empty_DataFrame |}
  | _ :: _ =>
      (report <-
         (if negb (bool_decide (is_Some (client (analysis_agent self)))) then
            emit (StError "Analysis agent not configured. Please check API keys in sidebar.") ;;;
            _generate_mock_report
          else generate_analysis_report E (analysis_agent self) records) ;;
       comparison_df <- lift (create_comparison_table records) ;;
       ret {| competitors := records; analysis := report; comparison_table := comparison_df |})%py
  end.

End Team.

(** ** Reference renderings of values

    [json.dumps] with its default settings and [str] on values other than
    strings, for running the program on concrete data.  A float is written
    as its literal and the keys of a mapping in the order of the map. *)
Module Render.

Definition hex_digit (n : nat) : ascii :=
  ascii_of_nat (if (n <? 10)%nat then 48 + n else 87 + n).

Definition escape_char (c : ascii) : string :=
  let n := nat_of_ascii c in
  if Ascii.eqb c Json.DQ then String "\" (String Json.DQ EmptyString)
  else if Ascii.eqb c "\" then "\\"
  else if Ascii.eqb c "010" then "\n"
  else if Ascii.eqb c "013" then "\r"
  else if Ascii.eqb c "009" then "\t"
  else if Ascii.eqb c "008" then "\b"
  else if Ascii.eqb c "012" then "\f"
  else if (n <? 32)%nat || (127 <? n)%nat then
    "\u00" +:+ String (hex_digit (n / 16)) (String (hex_digit (n mod 16)) EmptyString)
  else String c EmptyString.

Definition quoted (s : string) : string :=
  String Json.DQ (String.concat EmptyString (escape_char <$> list_ascii_of_string s))
  +:+ String Json.DQ EmptyString.

Fixpoint dumps (v : pyval) : string :=
  match v with
  | PNone => "null"
  | PBool true => "true"
  | PBool false => "false"
  | PInt z => pretty z
  | PFloat lit => lit
  | PStr s => quoted s
  | PList l => "[" +:+ String.concat ", " (map dumps l) +:+ "]"
  | PDict d =>
      "{" +:+ String.concat ", "
                (map_fold (fun k x acc => (quoted k +:+ ": " +:+ dumps x) :: acc) [] d)
      +:+ "}"
  end.

Fixpoint repr (v : pyval) : string :=
  match v with
  | PNone => "None"
  | PBool true => "True"
  | PBool false => "False"
  | PInt z => pretty z
  | PFloat lit => lit
  | PStr s => "'" +:+ s +:+ "'"
  | PList l => "[" +:+ String.concat ", " (map repr l) +:+ "]"
  | PDict d =>
      "{" +:+ String.concat ", "
                (map_fold (fun k x acc => ("'" +:+ k +:+ "': " +:+ repr x) :: acc) [] d)
      +:+ "}"
  end.

End Render.

(** ** Scenarios

    Concrete collaborators and inputs on which the program is run below.
    The candidate and crawl records are the placeholder data of the source's
    [ExaSearchAgent] and [FirecrawlAgent]. *)
Module Scenario.

(** JSON text written with apostrophes in place of double quotes. *)
Definition dq (s : string) : string :=
  string_of_list_ascii
    ((fun c => if Ascii.eqb c "'" then Json.DQ else c) <$> list_ascii_of_string s).

Definition world
    (crawl : list event -> pyval -> result pyval)
    (search : list event -> pyval -> result (list dict))
    (llm : list event -> AnalysisAgent -> string -> result (option string)) : Env :=
  {| json_loads := Json.loads;
     json_dumps := Render.dumps;
     str_other := Render.repr;
     float_truthy := Json.float_nonzero;
     crawl_website := crawl;
     summarize_content := fun _ _ =>
       Ok (PStr "This company provides various products and services in the technology sector, focusing on innovation and customer satisfaction.");
     find_similar_companies := search;
     llm_chat := llm |}.

Definition company (name url description : string) : dict :=
  list_to_map [("name", PStr name); ("url", PStr url); ("description", PStr description)].

Definition companies : list dict :=
  [company "CompetitorA" "https://competitora.com" "A leading provider in the industry";
   company "CompetitorB" "https://competitorb.com" "An innovative startup disrupting the market";
   company "CompetitorC" "https://competitorc.com" "A well-established player with global reach";
   company "CompetitorD" "https://competitord.com" "A niche specialist with unique offerings";
   company "CompetitorE" "https://competitore.com" "A fast-growing company with cutting-edge tech"].

Definition crawl_metadata : pyval :=
  PDict (list_to_map [("technologies", strs ["React"; "AWS"; "MongoDB"]);
                      ("team_size", PStr "50-200"); ("founded", PStr "2015")]).

Definition crawl_record (url : pyval) : pyval :=
  PDict (list_to_map
           [("url", url);
            ("description", PStr "A company specializing in services and products.");
            ("content", PStr "Lorem ipsum dolor sit amet, consectetur adipiscing elit. Sed do eiusmod tempor incididunt ut labore et dolore magna aliqua.");
            ("metadata", crawl_metadata)]).

Definition crawl_ok : list event -> pyval -> result pyval :=
  fun _ url => Ok (crawl_record url).

Definition crawl_down : list event -> pyval -> result pyval :=
  fun _ _ => Raise (PyExc "ConnectionError" "connection refused").

(** The crawler fails on one site and answers for every other. *)
Definition crawl_failing_on (site : string) : list event -> pyval -> result pyval :=
  fun _ url =>
    match url with
    | PStr s => if String.eqb s site then Raise (PyExc "TimeoutError" "timed out")
                else Ok (crawl_record url)
    | _ => Ok (crawl_record url)
    end.

Definition search_top (count : nat) : list event -> pyval -> result (list dict) :=
  fun _ _ => Ok (take count companies).

Definition llm_says (text : string) : list event -> AnalysisAgent -> string -> result (option string) :=
  fun _ _ _ => Ok (Some text).

Definition llm_silent : list event -> AnalysisAgent -> string -> result (option string) :=
  fun _ _ _ => Ok None.

Definition llm_down : list event -> AnalysisAgent -> string -> result (option string) :=
  fun _ _ _ => Raise (PyExc "APIConnectionError" "Connection error.").

(** The backend answers a request made right at the start of a session with
    [first] and any later request with [later]. *)
Definition llm_first_then (first later : string)
  : list event -> AnalysisAgent -> string -> result (option string) :=
  fun h _ _ => if Nat.eqb (length h) 1 then Ok (Some first) else Ok (Some later).

(** [AnalysisAgent()] with the defaults of [__init__]. *)
Definition default_agent : AnalysisAgent :=
  {| provider := "openai"; api_key := None; model_id := None; client := None |}.

Definition openai_agent : AnalysisAgent :=
  {| provider := "openai"; api_key := Some "sk-test"; model_id := Some "gpt-4o";
     client := Some OpenAIClient |}.

Definition complete_body : string :=
  dq "'strengths': ['x'], 'weaknesses': ['w'], 'opportunities': ['o'], 'market_gaps': ['g'], 'pricing_strategies': ['p'], 'growth_opportunities': ['q'], 'recommendations': ['r']".

Definition complete_json : string := "{" +:+ complete_body +:+ "}".

Definition complete_report : dict :=
  list_to_map
    [("strengths", strs ["x"]); ("weaknesses", strs ["w"]); ("opportunities", strs ["o"]);
     ("market_gaps", strs ["g"]); ("pricing_strategies", strs ["p"]);
     ("growth_opportunities", strs ["q"]); ("recommendations", strs ["r"])].

Definition long_text : string :=
  String.concat EmptyString (replicate 25 "0123456789").

End Scenario.

(** ** Vocabulary of the specification *)

(** A mapping contains every required key. *)
Definition has_required_keys (v : pyval) : Prop :=
  forall d, v = PDict d -> forall k, k ∈ required_keys -> is_Some (d !! k).

(** A mapping with exactly the seven required keys, each a non-empty list. *)
Definition exactly_required_nonempty (v : pyval) : Prop :=
  exists d, v = PDict d
    /\ dom d = list_to_set required_keys
    /\ forall k, k ∈ required_keys -> exists x xs, d !! k = Some (PList (x :: xs)).

(** No opening or closing brace occurs in a text. *)
Definition no_brace (c : ascii) : bool := negb (Ascii.eqb c "{" || Ascii.eqb c "}").

Definition brace_free (s : string) : bool := forallb no_brace (list_ascii_of_string s).

(** A record from which [create_comparison_table] can build a row: its
    description and summary are strings (or absent), its metadata is a
    mapping (or absent) whose technologies can be joined. *)
Definition is_str (x : pyval) : bool :=
  match x with PStr _ => true | _ => false end.

Definition joinable (x : pyval) : bool :=
  match x with
  | PList l => bool_decide (is_Some (all_str l))
  | PStr _ | PDict _ => true
  | _ => false
  end.

Definition row_ready (company : dict) : bool :=
  match dict_get company "metadata" (PDict ∅) with
  | PDict metadata => joinable (dict_get metadata "technologies" (strs ["N/A"]))
  | _ => false
  end
  && is_str (dict_get company "description" (PStr "N/A"))
  && is_str (dict_get company "summary" (PStr "N/A")).

(** The progress updates among a list of events, in order. *)
Fixpoint progress_signals (evs : list event) : list (Q * string) :=
  match evs with
  | [] => []
  | StProgress value text :: rest => (value, text) :: progress_signals rest
  | _ :: rest => progress_signals rest
  end.

(** Some progress update whose label names the candidate comes after the
    crawl call for the candidate's URL. *)
Definition signal_follows_crawl (evs : list event) (name : string) (url : pyval) : Prop :=
  exists p q value text,
    evs !! p = Some (CrawlCall url)
    /\ evs !! q = Some (StProgress value text)
    /\ (p < q)%nat
    /\ str_contains name text = true.

(** An entry of the list discovery returns, read key by key: it is there,
    its [summary] and [metadata] are the given values, and every other key
    is as the candidate had it. *)
Definition enriched_as (competitor : dict) (summary metadata : pyval)
    (entry : option dict) : Prop :=
  exists o, entry = Some o
    /\ o !! "summary" = Some summary
    /\ o !! "metadata" = Some metadata
    /\ forall k, k <> "summary" -> k <> "metadata" -> o !! k = competitor !! k.

(** The mock report in full, read key by key: the seven keys and no other,
    each with the non-empty list of texts [_generate_mock_report] writes. *)
Definition full_mock_report (report : dict) : Prop :=
  dom report = list_to_set required_keys
  /\ report !! "strengths"
     = Some (PList [PStr "Mock: Strong online presence";
                    PStr "Mock: Innovative product lineup"])
  /\ report !! "weaknesses"
     = Some (PList [PStr "Mock: Limited market reach"; PStr "Mock: Price point concerns"])
  /\ report !! "opportunities"
     = Some (PList [PStr "Mock: Expand to new markets";
                    PStr "Mock: Develop budget offerings"])
  /\ report !! "market_gaps" = Some (PList [PStr "Mock: Underserved budget segment"])
  /\ report !! "pricing_strategies" = Some (PList [PStr "Mock: Consider freemium model"])
  /\ report !! "growth_opportunities" = Some (PList [PStr "Mock: International expansion"])
  /\ report !! "recommendations"
     = Some (PList [PStr "Mock: Develop a stronger social media presence"]).

(** What the loop leaves for a candidate whose crawl failed. *)
Definition failed_record (competitor : dict) : dict :=
  with_summary competitor (PStr "Crawling failed") (PDict ∅).

Definition nondecreasing (l : list Q) : Prop :=
  forall j q1 q2, l !! j = Some q1 -> l !! S j = Some q2 -> (q1 <= q2)%Q.

Section History.

Variable E : Env.

(** [discover_competitors], started after the events [h], gets past its
    first stage: it has emitted [pre] and goes on to search with
    [description].  A description input is searched as it is; a URL input
    has an http scheme and its crawl returns a mapping, whose description,
    or else whose title, is searched. *)
Definition reaches_search (input_text : string) (is_url : bool) (h pre : list event)
    (description : pyval) : Prop :=
  if is_url then
    has_http_scheme input_text = true
    /\ exists company_data,
         crawl_website E h (PStr input_text) = Ok (PDict company_data)
         /\ let found := dict_get company_data "description" (PStr EmptyString) in
            if py_truthy E found then
              pre = [CrawlCall (PStr input_text)] /\ description = found
            else
              pre = [CrawlCall (PStr input_text);
                     StWarning "Could not extract description from website for competitor search."]
              /\ description = dict_get company_data "title" (PStr EmptyString)
  else pre = [] /\ description = PStr input_text.

(** The events on record when the loop reaches the candidate at index [i]:
    those before the loop, [h0], and those of the iterations before [i]. *)
Definition history_at (h0 : list event) (candidates : list dict) (i : nat) : list event :=
  h0 ++ events (enrich_loop E (length candidates) 0 (take i candidates) h0).

(** The update the loop emits for the candidate at index [i]. *)
Definition signal_for (num_competitors i : nat) (competitor : dict) : event :=
  StProgress (progress_fraction i num_competitors)
             (progress_text E (dict_get competitor "name" (PStr "Unknown")) i num_competitors).

(** The same update as a fraction and a label. *)
Definition signal_pair (num_competitors i : nat) (competitor : dict) : Q * string :=
  (progress_fraction i num_competitors,
   progress_text E (dict_get competitor "name" (PStr "Unknown")) i num_competitors).

(** The events on record when the crawler is called for the candidate at
    index [i]. *)
Definition crawl_history (h0 : list event) (candidates : list dict) (i : nat)
    (competitor : dict) : list event :=
  history_at h0 candidates i ++ [signal_for (length candidates) i competitor].

End History.

(** ** The model catalogue and [get_model_id] *)

(** [MODEL_OPTIONS]: per provider, the model identifiers with their display
    names, in the order of the source. *)
Definition MODEL_OPTIONS : list (string * list (string * string)) :=
  [("openai",
    [("gpt-4o", "gpt-4o (Balanced/Latest)");
     ("gpt-4-turbo", "gpt-4-turbo (Powerful)");
     ("gpt-3.5-turbo", "gpt-3.5-turbo (Fast/Cheap)")]);
   ("anthropic",
    [("claude-3-opus-20240229", "claude-3-opus-20240229 (Most Powerful)");
     ("claude-3-sonnet-20240229", "claude-3-sonnet-20240229 (Balanced)");
     ("claude-3-haiku-20240307", "claude-3-haiku-20240307 (Fastest/Cheapest)")]);
   ("google",
    [("gemini-1.5-pro-latest", "gemini-1.5-pro-latest (Powerful)");
     ("gemini-1.5-flash-latest", "gemini-1.5-flash-latest (Fast)");
     ("gemini-1.0-pro", "gemini-1.0-pro (General)")]);
   ("deepseek",
    [("deepseek-chat", "deepseek-chat (General Chat)");
     ("deepseek-coder", "deepseek-coder (Code-focused)")])].

(** [c.isspace()] for a character below code point 256: the ASCII white
    space, the separators 28 to 31, NEL and the no-break space. *)
Definition py_isspace (c : ascii) : bool :=
  let n := nat_of_ascii c in
  ((9 <=? n)%nat && (n <=? 13)%nat) || ((28 <=? n)%nat && (n <=? 32)%nat)
  || Nat.eqb n 133 || Nat.eqb n 160.

Fixpoint lstrip (l : list ascii) : list ascii :=
  match l with
  | c :: r => if py_isspace c then lstrip r else l
  | [] => []
  end.

Definition strip_chars (l : list ascii) : list ascii := rev (lstrip (rev (lstrip l))).

(** [s.strip()]. *)
Definition py_strip (s : string) : string :=
  string_of_list_ascii (strip_chars (list_ascii_of_string s)).

(** The longest prefix without an opening parenthesis. *)
Fixpoint upto_paren (l : list ascii) : list ascii :=
  match l with
  | c :: r => if Ascii.eqb c "(" then [] else c :: upto_paren r
  | [] => []
  end.

(** [re.match(r"([^(]+)", display_name)] needs one character at least; the
    identifier is the matched text, stripped. *)
Definition get_model_id (display_name : string) : option string :=
  match upto_paren (list_ascii_of_string display_name) with
  | [] => None
  | matched => Some (string_of_list_ascii (strip_chars matched))
  end.

(** ** [AnalysisAgent.__init__] *)

(** [s.lower()] for characters below code point 256: the ASCII capitals and
    the Latin-1 capitals (192 to 222, the multiplication sign 215 apart)
    move up by 32. *)
Definition lower_char (c : ascii) : ascii :=
  let n := nat_of_ascii c in
  if ((65 <=? n)%nat && (n <=? 90)%nat)
     || ((192 <=? n)%nat && (n <=? 222)%nat && negb (Nat.eqb n 215))
  then ascii_of_nat (n + 32) else c.

Definition py_lower (s : string) : string :=
  string_of_list_ascii (lower_char <$> list_ascii_of_string s).

Definition ValueError (msg : string) : exn := PyExc "ValueError" msg.
Definition IndexError (msg : string) : exn := PyExc "IndexError" msg.

(** A call into a library that leaves no trace of its own: answered from the
    events so far. *)
Definition consult {A} (answer : list event -> result A) : M A :=
  fun h => ([], answer h).

Section Init.

(** The constructors of the vendor clients ([OpenAI], [Anthropic],
    [genai.configure] with [genai.GenerativeModel], [AzureOpenAI]): the
    events so far, the client asked for, the key and the model; they return
    or raise. *)
Variable construct : list event -> llm_client -> string -> string -> result unit.

Definition client_for (p : string) : result llm_client :=
  if String.eqb p "openai" then Ok OpenAIClient
  else if String.eqb p "anthropic" then Ok AnthropicClient
  else if String.eqb p "google" then Ok GoogleModel
  else if in_BASE_URLS p then Ok AzureOpenAIClient
  else Raise (ValueError "Unsupported LLM provider specified").

Definition AnalysisAgent_init
    (provider0 : string) (api_key0 model_id0 : option string) : M AnalysisAgent :=
  (let p := py_lower provider0 in
   let self := {| provider := p; api_key := api_key0; model_id := model_id0;
                  client := None |} in
   if negb (truthy_opt model_id0) then
     emit (StWarning ("No model selected for provider: " +:+ p
                      +:+ ". Analysis may fail or use mock data.")) ;;;
     ret self
   else if truthy_opt api_key0 then
     try_except
       (kind <- lift (client_for p) ;;
        consult (fun h => construct h kind (default EmptyString api_key0)
                            (default EmptyString model_id0)) ;;;
        ret {| provider := p; api_key := api_key0; model_id := model_id0;
               client := Some kind |})
       (fun e =>
          emit (StError ("Failed to initialize LLM client for " +:+ p +:+ ": "
                         +:+ exc_msg e)) ;;;
          ret self)
   else ret self)%py.

(** [CompetitorIntelligenceTeam.__init__]: the agent is [AnalysisAgent()]. *)
Definition CompetitorIntelligenceTeam_init : M CompetitorIntelligenceTeam :=
  (agent <- AnalysisAgent_init "openai" None None ;;
   ret {| analysis_agent := agent |})%py.

(** [configure_agents]: the team afterwards.  The crawler and search agents
    it rebuilds are the collaborators of the environment. *)
Definition configure_agents
    (llm_provider llm_api_key llm_model_id : string) : M CompetitorIntelligenceTeam :=
  (agent <- AnalysisAgent_init llm_provider (Some llm_api_key) (Some llm_model_id) ;;
   emit (Print ("Agents configured with LLM Provider: " +:+ llm_provider +:+ ", Model: "
                +:+ default "None" (model_id agent))) ;;;
   ret {| analysis_agent := agent |})%py.

End Init.

(** ** The placeholder agents of the source *)

(** [s.split(sep)] for a separator of one character or more: the pieces
    between the occurrences of [sep], found from left to right.  [skip]
    counts the characters of a separator still to be dropped, [cur] holds
    the piece under construction, last character first. *)
Fixpoint split_go (sep : list ascii) (skip : nat) (s cur : list ascii) : list (list ascii) :=
  match s with
  | [] => [rev cur]
  | c :: r =>
      match skip with
      | S k => split_go sep k r cur
      | O =>
          match Json.strip_prefix sep s with
          | Some _ => rev cur :: split_go sep (length sep - 1) r []
          | None => split_go sep 0 r (c :: cur)
          end
      end
  end.

Definition py_split (sep s : string) : list string :=
  string_of_list_ascii
    <$> split_go (list_ascii_of_string sep) 0 (list_ascii_of_string s) [].

Definition mock_summary : string :=
  "This company provides various products and services in the technology sector, focusing on innovation and customer satisfaction.".

Definition mock_metadata : pyval :=
  PDict (list_to_map [("technologies", strs ["React"; "AWS"; "MongoDB"]);
                      ("team_size", PStr "50-200"); ("founded", PStr "2015")]).

Definition mock_companies : list dict :=
  (fun '(name, url, description) =>
     list_to_map [("name", PStr name); ("url", PStr url); ("description", PStr description)])
  <$> [("CompetitorA", "https://competitora.com", "A leading provider in the industry");
       ("CompetitorB", "https://competitorb.com", "An innovative startup disrupting the market");
       ("CompetitorC", "https://competitorc.com", "A well-established player with global reach");
       ("CompetitorD", "https://competitord.com", "A niche specialist with unique offerings");
       ("CompetitorE", "https://competitore.com", "A fast-growing company with cutting-edge tech")].

(** [l[:count]] for an integer [count]: a negative count is taken from the
    end of the list. *)
Definition slice_to {A} (count : Z) (l : list A) : list A :=
  if (0 <=? count)%Z then take (Z.to_nat count) l
  else take (length l - Z.to_nat (- count)) l.

Section Placeholders.

(** [str.capitalize], a library function. *)
Variable capitalize : string -> string.

(** [FirecrawlAgent.crawl_website]. *)
Definition FirecrawlAgent_crawl_website (url : string) : M pyval :=
  (emit (Print ("Mock Crawling: " +:+ url)) ;;;
   match py_split "://" url with
   | _ :: after_scheme :: _ =>
       let host := hd EmptyString (py_split "." after_scheme) in
       ret (PDict (list_to_map
                     [("url", PStr url);
                      ("title", PStr ("Website for " +:+ capitalize host));
                      ("description", PStr "A company specializing in services and products.");
                      ("content", PStr "Lorem ipsum dolor sit amet, consectetur adipiscing elit. Sed do eiusmod tempor incididunt ut labore et dolore magna aliqua.");
                      ("metadata", mock_metadata)]))
   | _ => raise (IndexError "list index out of range")
   end)%py.

(** [FirecrawlAgent.summarize_content]. *)
Definition FirecrawlAgent_summarize_content (content : string) : M string :=
  (emit (Print "Mock Summarizing content...") ;;; ret mock_summary)%py.

(** [ExaSearchAgent.find_similar_companies]. *)
Definition ExaSearchAgent_find_similar_companies
    (company_description : string) (count : Z) : M (list dict) :=
  (emit (Print ("Mock Finding similar companies for: "
                +:+ String.substring 0 50 company_description +:+ "...")) ;;;
   ret (slice_to count mock_companies))%py.

(** The placeholder agents as collaborators of [discover_competitors], which
    hands them the values it holds: what their calls return or raise.  A
    value that is not a string has no [split], and the summarizer ignores
    its argument; the search is called with the default count, and slices
    its description, which a string or a list allows. *)
Definition placeholder_crawl (h : list event) (url : pyval) : result pyval :=
  match url with
  | PStr s => outcome (FirecrawlAgent_crawl_website s h)
  | _ => Raise (AttributeError "object has no attribute 'split'")
  end.

Definition placeholder_search (h : list event) (description : pyval) : result (list dict) :=
  match description with
  | PStr s => outcome (ExaSearchAgent_find_similar_companies s 5 h)
  | PList _ => Ok (slice_to 5 mock_companies)
  | _ => Raise (TypeError "object is not subscriptable")
  end.

Definition with_placeholders (E : Env) : Env :=
  {| json_loads := json_loads E;
     json_dumps := json_dumps E;
     str_other := str_other E;
     float_truthy := float_truthy E;
     crawl_website := placeholder_crawl;
     summarize_content := fun _ _ => Ok (PStr mock_summary);
     find_similar_companies := placeholder_search;
     llm_chat := llm_chat E |}.

End Placeholders.

(** ** Vocabulary for the further properties *)

(** A text occurs inside another. *)
Definition occurs_in (needle text : string) : Prop :=
  exists before after, text = before +:+ needle +:+ after.

(** The requests to the backend among a list of events. *)
Fixpoint llm_requests (evs : list event) : list (AnalysisAgent * string) :=
  match evs with
  | [] => []
  | LLMCall agent prompt :: rest => (agent, prompt) :: llm_requests rest
  | _ :: rest => llm_requests rest
  end.

(** The arguments of the crawl calls among a list of events. *)
Fixpoint crawled (evs : list event) : list pyval :=
  match evs with
  | [] => []
  | CrawlCall url :: rest => url :: crawled rest
  | _ :: rest => crawled rest
  end.

(** The arguments of the search calls among a list of events. *)
Fixpoint searched (evs : list event) : list pyval :=
  match evs with
  | [] => []
  | SearchCall description :: rest => description :: searched rest
  | _ :: rest => searched rest
  end.

(** A character does not occur in a text. *)
Definition differs (c : ascii) : ascii -> bool := fun x => negb (Ascii.eqb x c).

Definition lacks (c : ascii) (s : string) : bool :=
  forallb (differs c) (list_ascii_of_string s).

(** A text starts with a character. *)
Definition starts_with (c : ascii) (s : string) : Prop :=
  exists rest, s = String c rest.

(** The first occurrence of a text in another: what comes before it and what
    comes after. *)
Fixpoint find_split (needle s : list ascii) : option (list ascii * list ascii) :=
  match Json.strip_prefix needle s with
  | Some rest => Some ([], rest)
  | None =>
      match s with
      | [] => None
      | c :: r =>
          match find_split needle r with
          | Some (before, after) => Some (c :: before, after)
          | None => None
          end
      end
  end.

(** The fixed text [_generate_prompt] puts before the competitor blocks, and
    the instruction it puts after them. *)
Definition prompt_intro : string :=
  "Analyze the following competitor data and provide a detailed report including:" +:+ nl
  +:+ "- Strengths" +:+ nl +:+ "- Weaknesses" +:+ nl +:+ "- Opportunities" +:+ nl
  +:+ "- Market Gaps" +:+ nl
  +:+ "- Suggested Pricing Strategies" +:+ nl +:+ "- Potential Growth Opportunities" +:+ nl
  +:+ "- Actionable Recommendations" +:+ nl +:+ nl
  +:+ "Competitor Data:" +:+ nl.

Definition prompt_instruction : string :=
  "Generate the analysis strictly in JSON format with keys: 'strengths', 'weaknesses', 'opportunities', 'market_gaps', 'pricing_strategies', 'growth_opportunities', 'recommendations'. Do not include any introductory text or explanations outside the JSON structure.".

(** The kinds of event the enrichment loop emits: progress updates, calls to
    the crawler and the summarizer, warnings. *)
Definition loop_event (ev : event) : bool :=
  match ev with
  | StProgress _ _ | CrawlCall _ | SummarizeCall _ | StWarning _ => true
  | _ => false
  end.

Section Candidates.

Variable E : Env.

(** The URLs of the candidates that have one, in order. *)
Definition candidate_urls (candidates : list dict) : list pyval :=
  omap (fun c : dict =>
          let url := dict_get c "url" PNone in
          if py_truthy E url then Some url else None) candidates.

End Candidates.

(** ** [ExaSearchAgent.extract_urls_from_description] *)

Section Urls.

(** The characters the class [\w] of a pattern matches; a library table. *)
Variable is_word : ascii -> bool.

(** [[\da-fA-F]]: among the characters of a [string] here the class [\d]
    holds the ten digits only. *)
Definition is_hex (c : ascii) : bool :=
  match Json.hex_val c with Some _ => true | None => false end.

(** [(?:[-\w.]|(?:%[\da-fA-F]{2}))*] at the head of a text: the longest run
    of host characters and percent escapes, and the rest. *)
Fixpoint url_run (s : list ascii) : list ascii * list ascii :=
  match s with
  | [] => ([], [])
  | c :: r =>
      if Ascii.eqb c "-" || is_word c || Ascii.eqb c "." then
        let '(run, rest) := url_run r in (c :: run, rest)
      else
        match s with
        | "%"%char :: h1 :: h2 :: r' =>
            if is_hex h1 && is_hex h2 then
              let '(run, rest) := url_run r' in ("%"%char :: h1 :: h2 :: run, rest)
            else ([], s)
        | _ => ([], s)
        end
  end.

(** The pattern [https?://(?:[-\w.]|(?:%[\da-fA-F]{2}))+] at the head of a
    text: the matched text. *)
Definition match_url (s : list ascii) : option (list ascii) :=
  let after_scheme scheme :=
    match Json.strip_prefix (list_ascii_of_string scheme) s with
    | Some rest =>
        match url_run rest with
        | ([], _) => None
        | (run, _) => Some (list_ascii_of_string scheme ++ run)
        end
    | None => None
    end in
  match after_scheme "https://" with
  | Some m => Some m
  | None => after_scheme "http://"
  end.

(** [re.findall]: the matches from left to right, none overlapping.  [skip]
    counts the characters of the last match still to be passed over. *)
Fixpoint findall_urls (skip : nat) (s : list ascii) : list (list ascii) :=
  match s with
  | [] => []
  | _ :: r =>
      match skip with
      | S k => findall_urls k r
      | O =>
          match match_url s with
          | Some m => m :: findall_urls (length m - 1) r
          | None => findall_urls 0 r
          end
      end
  end.

Definition extract_urls_from_description (description : string) : list string :=
  string_of_list_ascii <$> findall_urls 0 (list_ascii_of_string description).

End Urls.

(** The word characters of the ASCII range: letters, digits, the underscore. *)
Definition ascii_word (c : ascii) : bool :=
  let n := nat_of_ascii c in
  ((48 <=? n) && (n <=? 57) || (65 <=? n) && (n <=? 90) ||
   (97 <=? n) && (n <=? 122) || (n =? 95))%nat.

(** * Properties *)

(** ** Running computations *)

Lemma bind_run {A B} (m : M A) (k : A -> M B) (h : list event) :
  bind m k h =
  match m h with
  | (es, Ok a) => (es ++ events (k a (h ++ es)), outcome (k a (h ++ es)))
  | (es, Raise e) => (es, Raise e)
  end.
Proof.
  unfold bind, events, outcome.
  destruct (m h) as [es [a | e]]; [| reflexivity].
  destruct (k a (h ++ es)); reflexivity.
Qed.

Lemma try_except_run {A} (body : M A) (handler : exn -> M A) (h : list event) :
  try_except body handler h =
  match body h with
  | (es, Ok a) => (es, Ok a)
  | (es, Raise e) =>
      (es ++ events (handler e (h ++ es)), outcome (handler e (h ++ es)))
  end.
Proof.
  unfold try_except, events, outcome.
  destruct (body h) as [es [a | e]]; [reflexivity |].
  destruct (handler e (h ++ es)); reflexivity.
Qed.

Lemma outcome_bind {A B} (m : M A) (k : A -> M B) (h : list event) :
  outcome (bind m k h) =
  match outcome (m h) with
  | Ok a => outcome (k a (h ++ events (m h)))
  | Raise e => Raise e
  end.
Proof.
  rewrite bind_run. unfold events, outcome.
  destruct (m h) as [es [a | e]]; reflexivity.
Qed.

Lemma events_bind {A B} (m : M A) (k : A -> M B) (h : list event) :
  events (bind m k h) =
  match outcome (m h) with
  | Ok a => events (m h) ++ events (k a (h ++ events (m h)))
  | Raise e => events (m h)
  end.
Proof.
  rewrite bind_run. unfold events, outcome.
  destruct (m h) as [es [a | e]]; reflexivity.
Qed.

Lemma outcome_try_except {A} (body : M A) (handler : exn -> M A) (h : list event) :
  outcome (try_except body handler h) =
  match outcome (body h) with
  | Ok a => Ok a
  | Raise e => outcome (handler e (h ++ events (body h)))
  end.
Proof.
  rewrite try_except_run. unfold events, outcome.
  destruct (body h) as [es [a | e]]; reflexivity.
Qed.

Lemma events_try_except {A} (body : M A) (handler : exn -> M A) (h : list event) :
  events (try_except body handler h) =
  match outcome (body h) with
  | Ok a => events (body h)
  | Raise e => events (body h) ++ events (handler e (h ++ events (body h)))
  end.
Proof.
  rewrite try_except_run. unfold events, outcome.
  destruct (body h) as [es [a | e]]; reflexivity.
Qed.

Lemma outcome_ret {A} (a : A) (h : list event) : outcome (ret a h) = Ok a.
Proof. reflexivity. Qed.

Lemma events_ret {A} (a : A) (h : list event) : events (ret a h) = [].
Proof. reflexivity. Qed.

Lemma outcome_emit (ev : event) (h : list event) : outcome (emit ev h) = Ok tt.
Proof. reflexivity. Qed.

Lemma events_emit (ev : event) (h : list event) : events (emit ev h) = [ev].
Proof. reflexivity. Qed.

Lemma outcome_lift {A} (r : result A) (h : list event) : outcome (lift r h) = r.
Proof. reflexivity. Qed.

Lemma events_lift {A} (r : result A) (h : list event) : events (lift r h) = [].
Proof. reflexivity. Qed.

Lemma outcome_call {A} (ev : event) (answer : list event -> result A) (h : list event) :
  outcome (call ev answer h) = answer h.
Proof. reflexivity. Qed.

Lemma events_call {A} (ev : event) (answer : list event -> result A) (h : list event) :
  events (call ev answer h) = [ev].
Proof. reflexivity. Qed.

Create Rewrite HintDb run.
#[export] Hint Rewrite @outcome_bind @events_bind @outcome_try_except @events_try_except
  @outcome_ret @events_ret @outcome_emit @events_emit @outcome_lift @events_lift
  @outcome_call @events_call : run.

(** Push [outcome] and [events] through the structure of a computation. *)
Ltac run_simpl := repeat (autorewrite with run; lazy beta iota).

(** ** Dictionaries *)

Lemma setdefault_fold_lookup (keys : list string) (value : pyval) (d : dict) (k : string) :
  foldl (fun acc key => dict_setdefault acc key value) d keys !! k =
  match d !! k with
  | Some v => Some v
  | None => if decide (k ∈ keys) then Some value else None
  end.
Proof.
  revert d. induction keys as [| key keys IH]; intros d; simpl.
  - destruct (d !! k); [reflexivity |].
    destruct (decide (k ∈ [])) as [Hin | _]; [inversion Hin | reflexivity].
  - rewrite IH. unfold dict_setdefault.
    destruct (decide (key = k)) as [-> | Hne].
    + destruct (d !! k) as [v |] eqn:Hk.
      * rewrite Hk. reflexivity.
      * rewrite lookup_insert_eq.
        destruct (decide (k ∈ k :: keys)) as [_ | Hn]; [reflexivity |].
        exfalso. apply Hn. left.
    + assert (Hsame : (match d !! key with
                       | Some _ => d
                       | None => <[key:=value]> d
                       end) !! k = d !! k).
      { destruct (d !! key); [reflexivity |]. by rewrite lookup_insert_ne. }
      rewrite Hsame. destruct (d !! k); [reflexivity |].
      destruct (decide (k ∈ keys)) as [Hin | Hn];
        destruct (decide (k ∈ key :: keys)) as [Hin' | Hn']; try reflexivity.
      * exfalso. apply Hn'. by right.
      * exfalso. apply Hn. inversion Hin'; subst; [congruence | assumption].
Qed.

Lemma fill_missing_required (d : dict) (k : string) :
  k ∈ required_keys ->
  fill_missing d !! k = Some (default (strs ["N/A"]) (d !! k)).
Proof.
  intros Hin. unfold fill_missing. rewrite setdefault_fold_lookup.
  destruct (d !! k); [reflexivity |].
  destruct (decide (k ∈ required_keys)); [reflexivity | contradiction].
Qed.

Lemma fill_missing_other (d : dict) (k : string) :
  k ∉ required_keys -> fill_missing d !! k = d !! k.
Proof.
  intros Hn. unfold fill_missing. rewrite setdefault_fold_lookup.
  destruct (d !! k); [reflexivity |].
  destruct (decide (k ∈ required_keys)); [contradiction | reflexivity].
Qed.

Lemma fill_missing_present (d : dict) (k : string) (v : pyval) :
  d !! k = Some v -> fill_missing d !! k = Some v.
Proof.
  intros Hk. unfold fill_missing. rewrite setdefault_fold_lookup, Hk. reflexivity.
Qed.

Lemma all_keys_in_dict (keys : list string) (d : dict) :
  all_keys_in keys (PDict d) = Ok (forallb (fun k => bool_decide (is_Some (d !! k))) keys).
Proof.
  induction keys as [| k keys IH]; simpl; [reflexivity |].
  destruct (bool_decide (is_Some (d !! k))); [exact IH | reflexivity].
Qed.

Lemma fill_missing_complete (d : dict) :
  all_keys_in required_keys (PDict d) = Ok true -> fill_missing d = d.
Proof.
  rewrite all_keys_in_dict. intros Hall.
  assert (Hk : forall k, In k required_keys -> bool_decide (is_Some (d !! k)) = true).
  { apply forallb_forall. congruence. }
  apply map_eq. intros k.
  destruct (decide (k ∈ required_keys)) as [Hin | Hn].
  - rewrite fill_missing_required by assumption.
    specialize (Hk k (proj1 (list_elem_of_In _ _) Hin)).
    apply bool_decide_eq_true in Hk. destruct Hk as [v Hv].
    rewrite Hv. reflexivity.
  - apply fill_missing_other. assumption.
Qed.

(** Two mappings that differ at a key are different values. *)
Lemma PDict_differs (d1 d2 : dict) (k : string) :
  d1 !! k <> d2 !! k -> PDict d1 <> PDict d2.
Proof.
  intros Hne Heq. apply Hne.
  exact (f_equal (fun v => match v with PDict m => m !! k | _ => None end) Heq).
Qed.

Lemma Ok_PDict_differs (d1 d2 : dict) (k : string) :
  d1 !! k <> d2 !! k -> Ok (PDict d1) <> Ok (PDict d2).
Proof.
  intros Hne Heq. apply (PDict_differs d1 d2 k Hne).
  exact (f_equal (fun r => match r with Ok v => v | Raise _ => PNone end) Heq).
Qed.

Lemma PDict_inj (d1 d2 : dict) : PDict d1 = PDict d2 -> d1 = d2.
Proof.
  intros Heq.
  exact (f_equal (fun v => match v with PDict m => m | _ => d1 end) Heq).
Qed.

(** ** Strings *)

Lemma append_cons (c : ascii) (s t : string) :
  String c s +:+ t = String c (s +:+ t).
Proof. reflexivity. Qed.

Lemma append_empty_r (s : string) : s +:+ EmptyString = s.
Proof.
  induction s as [| c s IH]; [reflexivity |]. rewrite append_cons, IH. reflexivity.
Qed.

Lemma length_append (s t : string) :
  String.length (s +:+ t) = (String.length s + String.length t)%nat.
Proof.
  induction s as [| c s IH]; [reflexivity |].
  rewrite append_cons. cbn [String.length]. rewrite IH. reflexivity.
Qed.

Lemma list_ascii_of_append (a b : string) :
  list_ascii_of_string (a +:+ b) = list_ascii_of_string a ++ list_ascii_of_string b.
Proof.
  induction a as [| c a IH]; [reflexivity |].
  rewrite append_cons. cbn [list_ascii_of_string app]. rewrite IH. reflexivity.
Qed.

Lemma string_of_list_ascii_app (a b : list ascii) :
  string_of_list_ascii (a ++ b) = string_of_list_ascii a +:+ string_of_list_ascii b.
Proof.
  induction a as [| c a IH]; [reflexivity |].
  cbn [app string_of_list_ascii]. rewrite IH, append_cons. reflexivity.
Qed.

(** ** AnalysisAgent: parsing and validation *)

Section AnalysisFacts.

Variable E : Env.

Lemma mock_report_run (h : list event) :
  _generate_mock_report h = ([Print "Generating mock analysis report..."], Ok (PDict mock_report)).
Proof. reflexivity. Qed.

(** What [_parse_llm_response] returns, read off the two decoding attempts. *)
Lemma parse_outcome (text : string) (h : list event) :
  outcome (_parse_llm_response E text h) =
  match json_loads E text with
  | Ok v => Ok v
  | Raise e =>
      if is_JSONDecodeError e then
        match re_search_braces text with
        | Some span =>
            match json_loads E span with
            | Ok v => Ok v
            | Raise e' => if is_JSONDecodeError e' then Ok PNone else Raise e'
            end
        | None => Ok PNone
        end
      else Raise e
  end.
Proof.
  unfold _parse_llm_response, try_except_decode.
  rewrite outcome_try_except. unfold lift at 1. simpl.
  destruct (json_loads E text) as [v | e]; [reflexivity |].
  destruct (is_JSONDecodeError e); [| reflexivity].
  destruct (re_search_braces text) as [span |]; [| reflexivity].
  rewrite outcome_try_except. unfold lift. simpl.
  destruct (json_loads E span) as [v | e']; [reflexivity |].
  destruct (is_JSONDecodeError e'); reflexivity.
Qed.

Lemma parse_outcome_history (text : string) (h h' : list event) :
  outcome (_parse_llm_response E text h) = outcome (_parse_llm_response E text h').
Proof. rewrite !parse_outcome. reflexivity. Qed.

Lemma validate_outcome (self : AnalysisAgent) (resp : option string) (h : list event) :
  outcome (validate_response E self resp h) =
  if truthy_opt resp then
    match outcome (_parse_llm_response E (default EmptyString resp) h) with
    | Ok data =>
        if py_truthy E data then
          match all_keys_in required_keys data with
          | Ok true => Ok data
          | Ok false => setdefault_required data
          | Raise e => Raise e
          end
        else Ok (PDict mock_report)
    | Raise e => Raise e
    end
  else Ok (PDict mock_report).
Proof.
  unfold validate_response.
  destruct (truthy_opt resp); [| reflexivity].
  rewrite outcome_bind.
  destruct (outcome (_parse_llm_response E (default EmptyString resp) h)) as [data | e];
    [| reflexivity].
  destruct (py_truthy E data); [| reflexivity].
  rewrite outcome_bind. unfold lift at 1.
  destruct (all_keys_in required_keys data) as [[|] | e]; reflexivity.
Qed.

Lemma validate_outcome_history (self : AnalysisAgent) (resp : option string)
    (h h' : list event) :
  outcome (validate_response E self resp h) = outcome (validate_response E self resp h').
Proof.
  rewrite !validate_outcome. rewrite (parse_outcome_history _ h h'). reflexivity.
Qed.

(** The answer the backend gives to the request of [generate_analysis_report]
    started after the events [h]. *)
Lemma request_outcome (self : AnalysisAgent) (prompt : string) (h : list event) :
  outcome (request_analysis E self prompt h) =
  if dispatches (provider self) then llm_chat E h self prompt else Ok None.
Proof.
  unfold request_analysis. destruct (dispatches (provider self)); reflexivity.
Qed.

(** An exception raised anywhere inside the [try] block ends in the mock
    report; otherwise the validated value is returned. *)
Lemma generate_outcome (self : AnalysisAgent) (records : list dict) (h : list event) :
  outcome (generate_analysis_report E self records h) =
  if configured self then
    match (if dispatches (provider self)
           then llm_chat E (h ++ [Print (generating_message self)]) self
                         (_generate_prompt E records)
           else Ok None) with
    | Ok resp =>
        match outcome (validate_response E self resp []) with
        | Ok v => Ok v
        | Raise _ => Ok (PDict mock_report)
        end
    | Raise _ => Ok (PDict mock_report)
    end
  else Ok (PDict mock_report).
Proof.
  unfold generate_analysis_report.
  destruct (configured self); [| reflexivity].
  cbn [negb]. rewrite outcome_try_except, outcome_bind.
  cbn [emit outcome events fst snd]. rewrite outcome_bind, request_outcome.
  destruct (dispatches (provider self)).
  - destruct (llm_chat E (h ++ [Print (generating_message self)]) self
                (_generate_prompt E records)) as [resp | e]; [| reflexivity].
    rewrite validate_outcome_history with (h' := []).
    destruct (outcome (validate_response E self resp [])); reflexivity.
  - rewrite validate_outcome_history with (h' := []).
    destruct (outcome (validate_response E self None [])); reflexivity.
Qed.

End AnalysisFacts.

(** ** AnalysisAgent: the shape of the report *)

Lemma mock_report_keys : all_keys_in required_keys (PDict mock_report) = Ok true.
Proof. vm_compute. reflexivity. Qed.

Lemma dict_with_all_keys (d : dict) :
  all_keys_in required_keys (PDict d) = Ok true -> has_required_keys (PDict d).
Proof.
  rewrite all_keys_in_dict. intros Hall d' Hd k Hin. injection Hd as <-.
  assert (Hk : forall k, In k required_keys -> bool_decide (is_Some (d !! k)) = true).
  { apply forallb_forall. congruence. }
  apply (bool_decide_eq_true_1 (is_Some (d !! k))), Hk, list_elem_of_In, Hin.
Qed.

Lemma mock_report_shape : exactly_required_nonempty (PDict mock_report).
Proof.
  exists mock_report. split; [reflexivity |].
  split; [unfold mock_report; rewrite dom_list_to_map_L; reflexivity |].
  intros k Hin. unfold required_keys in Hin.
  repeat (apply elem_of_cons in Hin as [-> | Hin]; [eexists _, _; reflexivity |]).
  inversion Hin.
Qed.

Lemma validated_value_shape (E : Env) (self : AnalysisAgent) (resp : option string)
    (h : list event) (v : pyval) :
  outcome (validate_response E self resp h) = Ok v -> has_required_keys v.
Proof.
  rewrite validate_outcome.
  destruct (truthy_opt resp).
  - destruct (outcome (_parse_llm_response E (default EmptyString resp) h)) as [data | e];
      [| discriminate].
    destruct (py_truthy E data).
    + destruct (all_keys_in required_keys data) as [[|] | e] eqn:Hall; [| | discriminate].
      * intros [= <-]. intros d ->. apply (dict_with_all_keys d Hall). reflexivity.
      * destruct data; try discriminate. intros [= <-] d' [= <-] k Hin.
        rewrite fill_missing_required by assumption. eauto.
    + intros [= <-]. apply dict_with_all_keys, mock_report_keys.
  - intros [= <-]. apply dict_with_all_keys, mock_report_keys.
Qed.

Lemma analysis_value_shape
    (E : Env) (self : AnalysisAgent) (records : list dict) (h : list event) :
  exists v, outcome (generate_analysis_report E self records h) = Ok v
            /\ has_required_keys v.
Proof.
  rewrite generate_outcome.
  assert (Hmock : has_required_keys (PDict mock_report))
    by apply dict_with_all_keys, mock_report_keys.
  destruct (configured self); [| eauto].
  destruct (if dispatches (provider self) then _ else _) as [resp | e]; [| eauto].
  destruct (outcome (validate_response E self resp [])) as [v | e] eqn:Hv; [| eauto].
  exists v. split; [reflexivity |]. exact (validated_value_shape E self resp [] v Hv).
Qed.

(** C1 (as amended).  [generate_analysis_report] returns for every agent,
    every list of records and every behaviour of the backend, and never
    raises.  Whenever the value it returns is a mapping, each of the seven
    required keys is present in it; keys beyond the seven and the values of
    the keys the backend supplied are passed through as decoded.  The mock
    report of the fallback paths has exactly the seven keys, each mapped to
    a non-empty list. *)
Theorem analysis_report_has_required_keys
    (E : Env) (self : AnalysisAgent) (records : list dict) (h : list event) :
  (exists v, outcome (generate_analysis_report E self records h) = Ok v
             /\ has_required_keys v)
  /\ exactly_required_nonempty (PDict mock_report).
Proof. split; [apply analysis_value_shape | exact mock_report_shape]. Qed.

(** C1, as stated, fails: a backend that answers with an object carrying an
    extra key and an empty list gets both back in the report. *)
Lemma analysis_report_exact_keys_counterexample :
  let E := Scenario.world Scenario.crawl_ok (Scenario.search_top 5)
             (Scenario.llm_says (Scenario.dq "{'strengths': [], 'note': 'x'}")) in
  exists d,
    outcome (generate_analysis_report E Scenario.openai_agent Scenario.companies [])
    = Ok (PDict d)
    /\ d !! "note" = Some (PStr "x")
    /\ d !! "strengths" = Some (PList [])
    /\ ~ exactly_required_nonempty (PDict d).
Proof.
  intros E.
  exists (fill_missing (list_to_map [("strengths", PList []); ("note", PStr "x")])).
  split; [vm_compute; reflexivity |].
  split; [vm_compute; reflexivity |].
  split; [vm_compute; reflexivity |].
  intros (d & Hd & _ & Hne). apply PDict_inj in Hd. subst d.
  destruct (Hne "strengths") as (x & xs & Hx); [left |].
  vm_compute in Hx. discriminate.
Qed.

(** C8.  On an agent whose client, model or key is unset,
    [generate_analysis_report] returns the mock report whatever the records
    and whatever happened before: two runs agree on the events they emit and
    on their value, the value is the mock report, and the only events are
    the warning and the mock notice, so no request is made to a backend. *)
Theorem unconfigured_agent_returns_mock
    (E1 E2 : Env) (self : AnalysisAgent) (records1 records2 : list dict)
    (h1 h2 : list event) :
  client self = None \/ truthy_opt (model_id self) = false
  \/ truthy_opt (api_key self) = false ->
  generate_analysis_report E1 self records1 h1 = generate_analysis_report E2 self records2 h2
  /\ outcome (generate_analysis_report E1 self records1 h1) = Ok (PDict mock_report)
  /\ events (generate_analysis_report E1 self records1 h1)
     = [StWarning not_configured_warning; Print "Generating mock analysis report..."].
Proof.
  intros Hun.
  assert (Hc : configured self = false).
  { unfold configured. destruct Hun as [-> | [-> | ->]]; [reflexivity | |];
      destruct (bool_decide _); try reflexivity;
      destruct (truthy_opt (model_id self)); reflexivity. }
  unfold generate_analysis_report. rewrite Hc. repeat split; reflexivity.
Qed.

Lemma unconfigured_agent_returns_mock_witness :
  let E := Scenario.world Scenario.crawl_ok (Scenario.search_top 5) Scenario.llm_down in
  generate_analysis_report E Scenario.default_agent Scenario.companies []
  = generate_analysis_report E Scenario.default_agent [] [Print "earlier"]
  /\ outcome (generate_analysis_report E Scenario.default_agent Scenario.companies [])
     = Ok (PDict mock_report)
  /\ events (generate_analysis_report E Scenario.default_agent Scenario.companies [])
     = [StWarning not_configured_warning; Print "Generating mock analysis report..."].
Proof.
  intros E.
  apply (unconfigured_agent_returns_mock E E Scenario.default_agent Scenario.companies []
           [] [Print "earlier"]).
  left. reflexivity.
Defined.

(** ** AnalysisAgent: full fallback and partial repair *)

Lemma mock_report_in_full : full_mock_report mock_report.
Proof.
  split; [unfold mock_report; rewrite dom_list_to_map_L; reflexivity |].
  repeat split; reflexivity.
Qed.

(** C7.  When the backend call raises, or answers with nothing or with the
    empty text, or answers with a text that [json.loads] rejects and whose
    brace-delimited span (if there is one) it rejects too,
    [generate_analysis_report] returns the mock report, whole: a mapping
    with the seven keys and no other, each holding the non-empty list of
    texts [_generate_mock_report] writes, so never a partial or an empty
    result.  The call meant is the one the operation makes: after the events
    [h] and its own notice, with the prompt built from the records. *)
Theorem failed_generation_returns_mock
    (E : Env) (self : AnalysisAgent) (records : list dict) (h : list event) :
  let answer :=
    llm_chat E (h ++ [Print (generating_message self)]) self (_generate_prompt E records) in
  (exists e, answer = Raise e)
  \/ (exists resp, answer = Ok resp /\ truthy_opt resp = false)
  \/ (exists text, answer = Ok (Some text)
        /\ (exists e, json_loads E text = Raise e)
        /\ (forall span, re_search_braces text = Some span ->
                         exists e, json_loads E span = Raise e)) ->
  exists report,
    outcome (generate_analysis_report E self records h) = Ok (PDict report)
    /\ report = mock_report
    /\ full_mock_report report.
Proof.
  intros answer Hfail. exists mock_report.
  split; [| split; [reflexivity | exact mock_report_in_full]].
  rewrite generate_outcome.
  destruct (configured self); [| reflexivity].
  assert (Hnone : outcome (validate_response E self None []) = Ok (PDict mock_report))
    by reflexivity.
  destruct (dispatches (provider self)); [| rewrite Hnone; reflexivity].
  fold answer.
  destruct Hfail as [[e ->] | [(resp & -> & Hresp) | (text & -> & [e He] & Hspan)]].
  - reflexivity.
  - rewrite validate_outcome, Hresp. reflexivity.
  - rewrite validate_outcome. destruct (truthy_opt (Some text)); [| reflexivity].
    change (default EmptyString (Some text)) with text.
    rewrite parse_outcome, He.
    destruct (is_JSONDecodeError e); [| reflexivity].
    destruct (re_search_braces text) as [span |]; [| reflexivity].
    destruct (Hspan span eq_refl) as [e' ->].
    destruct (is_JSONDecodeError e'); reflexivity.
Qed.

Lemma failed_generation_returns_mock_witness :
  let run llm :=
    outcome (generate_analysis_report
               (Scenario.world Scenario.crawl_ok (Scenario.search_top 5) llm)
               Scenario.openai_agent Scenario.companies []) in
  let whole r := exists report, r = Ok (PDict report) /\ full_mock_report report in
  whole (run Scenario.llm_down)
  /\ whole (run Scenario.llm_silent)
  /\ whole (run (Scenario.llm_says "Here you go: {strengths: none}")).
Proof.
  intros run whole.
  assert (Hwhole : forall r,
            (exists report, r = Ok (PDict report) /\ report = mock_report
                            /\ full_mock_report report) -> whole r).
  { intros r (report & Hr & _ & Hfull). exists report. split; assumption. }
  split; [| split]; apply Hwhole.
  - apply (failed_generation_returns_mock
             (Scenario.world Scenario.crawl_ok (Scenario.search_top 5) Scenario.llm_down)).
    left. exists (PyExc "APIConnectionError" "Connection error."). reflexivity.
  - apply (failed_generation_returns_mock
             (Scenario.world Scenario.crawl_ok (Scenario.search_top 5) Scenario.llm_silent)).
    right; left. exists None. split; reflexivity.
  - apply (failed_generation_returns_mock
             (Scenario.world Scenario.crawl_ok (Scenario.search_top 5)
                (Scenario.llm_says "Here you go: {strengths: none}"))).
    right; right. exists "Here you go: {strengths: none}". split; [reflexivity |]. split.
    + exists (JSONDecodeError "Expecting value"). reflexivity.
    + intros span Hspan. exists (JSONDecodeError "Expecting value").
      injection Hspan as <-. reflexivity.
Defined.

(** C5 (as amended).  When the backend answers a configured agent with a text
    that decodes, directly or through its brace-delimited span, to a
    non-empty JSON object, [generate_analysis_report] returns that object
    repaired in place: every key that was present keeps its decoded value,
    every required key that was missing is set to the one-element list
    [N/A], and nothing else is added. *)
Theorem partial_repair_of_decoded_object
    (E : Env) (self : AnalysisAgent) (records : list dict) (h : list event)
    (text : string) (d : dict) :
  configured self = true ->
  dispatches (provider self) = true ->
  llm_chat E (h ++ [Print (generating_message self)]) self (_generate_prompt E records)
  = Ok (Some text) ->
  text <> EmptyString ->
  outcome (_parse_llm_response E text []) = Ok (PDict d) ->
  d <> ∅ ->
  outcome (generate_analysis_report E self records h) = Ok (PDict (fill_missing d))
  /\ (forall k v, d !! k = Some v -> fill_missing d !! k = Some v)
  /\ (forall k, k ∈ required_keys -> d !! k = None ->
                fill_missing d !! k = Some (strs ["N/A"]))
  /\ (forall k, k ∉ required_keys -> fill_missing d !! k = d !! k).
Proof.
  intros Hconf Hdisp Hllm Htext Hparse Hd.
  split; [| split; [| split]].
  - rewrite generate_outcome, Hconf, Hdisp, Hllm, validate_outcome.
    assert (Ht : truthy_opt (Some text) = true).
    { cbn. destruct (String.eqb_spec text EmptyString); [contradiction | reflexivity]. }
    rewrite Ht. change (default EmptyString (Some text)) with text.
    rewrite Hparse.
    assert (Htruthy : py_truthy E (PDict d) = true).
    { cbn. rewrite bool_decide_eq_false_2; [reflexivity |].
      intros Hdom. apply Hd. apply dom_empty_iff_L. exact Hdom. }
    rewrite Htruthy.
    destruct (all_keys_in required_keys (PDict d)) as [[|] | e] eqn:Hall.
    + rewrite (fill_missing_complete d Hall). reflexivity.
    + reflexivity.
    + rewrite all_keys_in_dict in Hall. discriminate.
  - intros k v. apply fill_missing_present.
  - intros k Hin Hk. rewrite fill_missing_required, Hk by assumption. reflexivity.
  - intros k. apply fill_missing_other.
Qed.

Lemma partial_repair_of_decoded_object_witness :
  let E := Scenario.world Scenario.crawl_ok (Scenario.search_top 5)
             (Scenario.llm_says (Scenario.dq "{'strengths': ['x']}")) in
  let d : dict := {["strengths" := strs ["x"]]} in
  outcome (generate_analysis_report E Scenario.openai_agent Scenario.companies [])
  = Ok (PDict (fill_missing d))
  /\ (forall k v, d !! k = Some v -> fill_missing d !! k = Some v)
  /\ (forall k, k ∈ required_keys -> d !! k = None ->
                fill_missing d !! k = Some (strs ["N/A"]))
  /\ (forall k, k ∉ required_keys -> fill_missing d !! k = d !! k).
Proof.
  intros E d.
  apply (partial_repair_of_decoded_object E Scenario.openai_agent Scenario.companies []
           (Scenario.dq "{'strengths': ['x']}") d).
  - reflexivity.
  - reflexivity.
  - reflexivity.
  - vm_compute. discriminate.
  - vm_compute. reflexivity.
  - intros Hd. apply (f_equal (fun m : dict => m !! "strengths")) in Hd.
    vm_compute in Hd. discriminate.
Defined.

(** C5, as stated, fails on the empty object: it decodes as a JSON object
    that misses the required keys, yet the answer is replaced by the mock
    report instead of being repaired. *)
Lemma partial_repair_empty_object_counterexample :
  let E := Scenario.world Scenario.crawl_ok (Scenario.search_top 5)
             (Scenario.llm_says "{}") in
  json_loads E "{}" = Ok (PDict ∅)
  /\ outcome (generate_analysis_report E Scenario.openai_agent Scenario.companies [])
     = Ok (PDict mock_report)
  /\ PDict mock_report <> PDict (fill_missing ∅).
Proof.
  intros E. split; [vm_compute; reflexivity |]. split; [vm_compute; reflexivity |].
  apply (PDict_differs _ _ "strengths"). vm_compute. discriminate.
Qed.

(** ** AnalysisAgent: recovery of JSON wrapped in noise *)

Lemma from_first_open_skip (p s : list ascii) :
  forallb no_brace p = true ->
  from_first_open (p ++ "{"%char :: s) = Some ("{"%char :: s).
Proof.
  induction p as [| c p IH]; simpl; [reflexivity |].
  intros Hp. apply andb_prop in Hp as [Hc Hp]. unfold no_brace in Hc.
  destruct (Ascii.eqb c "{"); [discriminate | exact (IH Hp)].
Qed.

Lemma upto_last_close_none (s : list ascii) :
  forallb no_brace s = true -> upto_last_close s = None.
Proof.
  induction s as [| c s IH]; simpl; [reflexivity |].
  intros Hs. apply andb_prop in Hs as [Hc Hs]. rewrite (IH Hs). unfold no_brace in Hc.
  destruct (Ascii.eqb c "}"); [| reflexivity].
  rewrite orb_true_r in Hc. discriminate.
Qed.

Lemma upto_last_close_app (body s : list ascii) :
  forallb no_brace s = true ->
  upto_last_close (body ++ "}"%char :: s) = Some (body ++ ["}"%char]).
Proof.
  intros Hs. induction body as [| c body IH]; simpl.
  - rewrite (upto_last_close_none s Hs). reflexivity.
  - rewrite IH. reflexivity.
Qed.

(** The span the pattern finds in an object text wrapped in brace-free noise
    is the object text. *)
Lemma re_search_braces_wrapped (prefix body suffix : string) :
  brace_free prefix = true -> brace_free suffix = true ->
  re_search_braces (prefix +:+ ("{" +:+ body +:+ "}") +:+ suffix)
  = Some ("{" +:+ body +:+ "}").
Proof.
  intros Hp Hs. unfold re_search_braces.
  rewrite list_ascii_of_append.
  change (("{" +:+ body +:+ "}") +:+ suffix) with (String "{" ((body +:+ "}") +:+ suffix)).
  cbn [list_ascii_of_string].
  rewrite (from_first_open_skip _ _ Hp).
  rewrite !list_ascii_of_append. cbn [list_ascii_of_string].
  rewrite <- app_assoc. cbn [app].
  rewrite (upto_last_close_app _ _ Hs).
  cbn [string_of_list_ascii]. rewrite string_of_list_ascii_app.
  rewrite string_of_list_ascii_of_string. reflexivity.
Qed.

Lemma re_search_braces_object (body : string) :
  re_search_braces ("{" +:+ body +:+ "}") = Some ("{" +:+ body +:+ "}").
Proof.
  pose proof (re_search_braces_wrapped EmptyString body EmptyString eq_refl eq_refl) as H.
  change (EmptyString +:+ ("{" +:+ body +:+ "}") +:+ EmptyString)
    with (("{" +:+ body +:+ "}") +:+ EmptyString) in H.
  rewrite append_empty_r in H. exact H.
Qed.

(** C6 (as amended).  Let an object text, from its opening to its closing
    brace, be wrapped in noise that contains no brace, and let the wrapped
    text as a whole be rejected by [json.loads], so that the recovery path is
    taken.  Then [_parse_llm_response] gives for the wrapped text what it
    gives for the object text alone (the decoded object when the text is
    valid), and [generate_analysis_report] returns the same value for a
    backend answering with the wrapped text as for one answering with the
    object text. *)
Theorem brace_recovery_matches_clean_response
    (E : Env) (self : AnalysisAgent) (records1 records2 : list dict)
    (h1 h2 : list event) (prefix body suffix : string) :
  let clean := "{" +:+ body +:+ "}" in
  let noisy := prefix +:+ clean +:+ suffix in
  brace_free prefix = true ->
  brace_free suffix = true ->
  (exists e, json_loads E noisy = Raise e /\ is_JSONDecodeError e = true) ->
  outcome (_parse_llm_response E noisy h1) = outcome (_parse_llm_response E clean h2)
  /\ (forall v, json_loads E clean = Ok v ->
                outcome (_parse_llm_response E noisy h1) = Ok v)
  /\ (llm_chat E (h1 ++ [Print (generating_message self)]) self (_generate_prompt E records1)
      = Ok (Some noisy) ->
      llm_chat E (h2 ++ [Print (generating_message self)]) self (_generate_prompt E records2)
      = Ok (Some clean) ->
      outcome (generate_analysis_report E self records1 h1)
      = outcome (generate_analysis_report E self records2 h2)).
Proof.
  intros clean noisy Hp Hs (e & Hnoisy & Hdec).
  assert (Hsame : forall ha hb,
             outcome (_parse_llm_response E noisy ha)
             = outcome (_parse_llm_response E clean hb)).
  { intros ha hb. rewrite !parse_outcome, Hnoisy, Hdec.
    unfold noisy, clean.
    rewrite (re_search_braces_wrapped prefix body suffix Hp Hs).
    rewrite re_search_braces_object.
    destruct (json_loads E ("{" +:+ body +:+ "}")) as [v | e']; [reflexivity |].
    destruct (is_JSONDecodeError e'); reflexivity. }
  split; [apply Hsame |]. split.
  - intros v Hv. rewrite (Hsame h1 []), parse_outcome, Hv. reflexivity.
  - intros Hllm1 Hllm2. rewrite !generate_outcome.
    destruct (configured self); [| reflexivity].
    destruct (dispatches (provider self)); [| reflexivity].
    rewrite Hllm1, Hllm2, !validate_outcome.
    assert (Hn : truthy_opt (Some noisy) = true).
    { cbn. destruct (String.eqb_spec noisy EmptyString) as [Heq | _]; [| reflexivity].
      apply (f_equal String.length) in Heq. unfold noisy, clean in Heq.
      rewrite !length_append in Heq. cbn in Heq. lia. }
    rewrite Hn. change (default EmptyString (Some noisy)) with noisy.
    change (default EmptyString (Some clean)) with clean.
    rewrite (Hsame [] []). reflexivity.
Qed.

Lemma brace_recovery_matches_clean_response_witness :
  let prefix := "Here is the analysis: " in
  let suffix := " Hope this helps!" in
  let clean := "{" +:+ Scenario.complete_body +:+ "}" in
  let noisy := prefix +:+ clean +:+ suffix in
  let E := Scenario.world Scenario.crawl_ok (Scenario.search_top 5)
             (Scenario.llm_first_then noisy clean) in
  outcome (_parse_llm_response E noisy []) = outcome (_parse_llm_response E clean [])
  /\ outcome (_parse_llm_response E noisy []) = Ok (PDict Scenario.complete_report)
  /\ outcome (generate_analysis_report E Scenario.openai_agent Scenario.companies [])
     = outcome (generate_analysis_report E Scenario.openai_agent Scenario.companies
                  [Print "earlier"]).
Proof.
  intros prefix suffix clean noisy E.
  destruct (brace_recovery_matches_clean_response E Scenario.openai_agent
              Scenario.companies Scenario.companies [] [Print "earlier"]
              prefix Scenario.complete_body suffix) as (Hparse & Hvalid & Hgen).
  - reflexivity.
  - reflexivity.
  - exists (JSONDecodeError "Expecting value"). split; [vm_compute; reflexivity | reflexivity].
  - split; [exact Hparse |]. split.
    + apply Hvalid. vm_compute. reflexivity.
    + apply Hgen; reflexivity.
Defined.

(** C6, as stated, fails when the wrapped text is itself valid JSON: with the
    brace-free noise of an opening and a closing bracket the direct decoding
    succeeds with a list, the recovery path is never taken, and the analysis
    falls back to the mock report instead of the clean object. *)
Lemma brace_recovery_counterexample :
  let clean := Scenario.complete_json in
  let noisy := "[" +:+ clean +:+ "]" in
  let run text :=
    outcome (generate_analysis_report
               (Scenario.world Scenario.crawl_ok (Scenario.search_top 5)
                  (Scenario.llm_says text))
               Scenario.openai_agent Scenario.companies []) in
  let E := Scenario.world Scenario.crawl_ok (Scenario.search_top 5) Scenario.llm_silent in
  brace_free "[" = true /\ brace_free "]" = true
  /\ outcome (_parse_llm_response E clean []) = Ok (PDict Scenario.complete_report)
  /\ outcome (_parse_llm_response E noisy []) = Ok (PList [PDict Scenario.complete_report])
  /\ run clean = Ok (PDict Scenario.complete_report)
  /\ run noisy = Ok (PDict mock_report)
  /\ run noisy <> run clean.
Proof.
  intros clean noisy run E.
  assert (Hclean : run clean = Ok (PDict Scenario.complete_report))
    by (vm_compute; reflexivity).
  assert (Hnoisy : run noisy = Ok (PDict mock_report)) by (vm_compute; reflexivity).
  split; [reflexivity |]. split; [reflexivity |].
  split; [vm_compute; reflexivity |]. split; [vm_compute; reflexivity |].
  split; [exact Hclean |]. split; [exact Hnoisy |].
  rewrite Hclean, Hnoisy.
  apply (Ok_PDict_differs _ _ "strengths"). vm_compute. discriminate.
Qed.

(** ** ComparisonAgent *)

Lemma length_substring_0 (n : nat) (s : string) :
  String.length (String.substring 0 n s) = Nat.min (String.length s) n.
Proof.
  revert n. induction s as [| c s IH]; intros [| n]; simpl; try reflexivity.
  rewrite IH. reflexivity.
Qed.

Lemma truncated_length (s : string) :
  String.length (String.substring 0 100 s +:+ "...") = (Nat.min (String.length s) 100 + 3)%nat.
Proof. rewrite length_append, length_substring_0. reflexivity. Qed.

Lemma py_join_joinable (sep : string) (x : pyval) :
  joinable x = true -> exists joined, py_join sep x = Ok joined.
Proof.
  destruct x; simpl; try discriminate; eauto.
  intros Hl. apply bool_decide_eq_true in Hl as [ss Hss]. rewrite Hss. eauto.
Qed.

Lemma comparison_row_ready (company : dict) :
  row_ready company = true ->
  exists row description summary,
    comparison_row company = Ok row
    /\ dict_get company "description" (PStr "N/A") = PStr description
    /\ dict_get company "summary" (PStr "N/A") = PStr summary
    /\ Description row = String.substring 0 100 description +:+ "..."
    /\ Summary row = String.substring 0 100 summary +:+ "...".
Proof.
  unfold row_ready, comparison_row. intros Hready.
  apply andb_prop in Hready as [Hready Hsum]. apply andb_prop in Hready as [Hmeta Hdesc].
  destruct (dict_get company "metadata" (PDict ∅)) as [| | | | | | metadata];
    try discriminate.
  destruct (py_join_joinable ", " _ Hmeta) as [joined Hjoined].
  cbn [py_get rbind]. rewrite Hjoined. cbn [rbind].
  destruct (dict_get company "description" (PStr "N/A")) as [| | | | description | |];
    try discriminate.
  destruct (dict_get company "summary" (PStr "N/A")) as [| | | | summary | |];
    try discriminate.
  cbn [truncate_with_ellipsis rbind].
  eexists _, description, summary. repeat (split; [reflexivity |]). reflexivity.
Qed.

Lemma comparison_rows_ready (records : list dict) :
  Forall (fun c => row_ready c = true) records ->
  exists data,
    comparison_rows records = Ok data
    /\ length data = length records
    /\ forall i company, records !! i = Some company ->
         exists row, data !! i = Some row /\ comparison_row company = Ok row.
Proof.
  induction 1 as [| company records Hc _ IH]; simpl.
  - exists []. split; [reflexivity |]. split; [reflexivity |]. intros i c Hi. inversion Hi.
  - destruct (comparison_row_ready company Hc) as (row & _ & _ & Hrow & _).
    destruct IH as (data & Hdata & Hlen & Hrows).
    rewrite Hrow, Hdata. cbn [rbind]. exists (row :: data).
    split; [reflexivity |]. split; [simpl; congruence |].
    intros [| i] c Hi; simpl in Hi.
    + injection Hi as <-. exists row. split; [reflexivity | assumption].
    + apply Hrows. assumption.
Qed.

(** C9 (as amended).  For every record of a list whose records have string
    (or absent) descriptions and summaries and joinable technologies,
    [create_comparison_table] builds a table whose row for the record has as
    Description and Summary the first 100 characters of the value followed by
    the marker [...], whether or not anything was cut: the field is
    [min (length, 100) + 3] characters long, so 103 for a value of 100
    characters or more, and a shorter value gets the marker too. *)
Theorem comparison_row_truncation (records : list dict) (i : nat) (company : dict) :
  Forall (fun c => row_ready c = true) records ->
  records !! i = Some company ->
  exists table row description summary,
    create_comparison_table records = Ok table
    /\ rows table !! i = Some row
    /\ dict_get company "description" (PStr "N/A") = PStr description
    /\ dict_get company "summary" (PStr "N/A") = PStr summary
    /\ Description row = String.substring 0 100 description +:+ "..."
    /\ Summary row = String.substring 0 100 summary +:+ "..."
    /\ String.length (Description row) = (Nat.min (String.length description) 100 + 3)%nat
    /\ String.length (Summary row) = (Nat.min (String.length summary) 100 + 3)%nat.
Proof.
  intros Hready Hi.
  destruct (comparison_rows_ready records Hready) as (data & Hdata & _ & Hrows).
  destruct (Hrows i company Hi) as (row & Hrow & Hbuilt).
  assert (Hc : row_ready company = true).
  { rewrite Forall_forall in Hready. apply Hready.
    apply list_elem_of_lookup. eauto. }
  destruct (comparison_row_ready company Hc)
    as (row' & description & summary & Hrow' & Hd & Hs & Hdesc & Hsum).
  assert (row' = row) as -> by congruence.
  exists {| columns := table_columns; rows := data |}, row, description, summary.
  unfold create_comparison_table. rewrite Hdata. cbn [rbind rows].
  repeat (split; [first [reflexivity | assumption] |]).
  rewrite Hdesc, Hsum, !truncated_length. split; reflexivity.
Qed.

Lemma comparison_row_truncation_witness :
  let company : dict :=
    <["description" := PStr Scenario.long_text]> (Scenario.company "CompetitorA" "https://competitora.com" "short") in
  exists table row,
    create_comparison_table [company] = Ok table
    /\ rows table !! 0%nat = Some row
    /\ String.length Scenario.long_text = 250%nat
    /\ String.length (Description row) = 103%nat
    /\ Summary row = "N/A...".
Proof.
  intros company.
  destruct (comparison_row_truncation [company] 0 company)
    as (table & row & description & summary & Htable & Hrow & Hd & Hs & _ & Hsum & Hlen & _).
  - constructor; [vm_compute; reflexivity | constructor].
  - reflexivity.
  - exists table, row. split; [exact Htable |]. split; [exact Hrow |].
    split; [vm_compute; reflexivity |].
    vm_compute in Hd. injection Hd as <-. vm_compute in Hs. injection Hs as <-.
    split; [exact Hlen | exact Hsum].
Defined.

(** C9, as stated, fails on a short value: the marker is appended to a
    description of 34 characters, which is not emitted unchanged. *)
Lemma short_description_gets_marker_counterexample :
  let company :=
    Scenario.company "CompetitorA" "https://competitora.com"
      "A leading provider in the industry" in
  exists table row,
    create_comparison_table [company] = Ok table
    /\ rows table !! 0%nat = Some row
    /\ String.length "A leading provider in the industry" = 34%nat
    /\ Description row = "A leading provider in the industry..."
    /\ Description row <> "A leading provider in the industry".
Proof.
  intros company. eexists _, _.
  split; [vm_compute; reflexivity |]. split; [reflexivity |].
  split; [reflexivity |]. split; [reflexivity |]. cbn. discriminate.
Qed.

(** ** CompetitorIntelligenceTeam: the report for no records *)

(** C2 (as amended).  For an empty list of records
    [generate_intelligence_report] returns at once, with no event emitted
    (no request to a backend, no message), a report whose competitors are
    empty, whose analysis is the empty mapping, with none of the seven keys,
    and whose comparison table is the empty [DataFrame], with no column and
    no row, which is not the table [create_comparison_table] builds for an
    empty list. *)
Theorem empty_records_report
    (E : Env) (self : CompetitorIntelligenceTeam) (h : list event) :
  generate_intelligence_report E self [] h
  = ([], Ok {| competitors := []; analysis := PDict ∅; comparison_table := empty_DataFrame |})
  /\ columns empty_DataFrame = [] /\ rows empty_DataFrame = []
  /\ create_comparison_table [] = Ok {| columns := table_columns; rows := [] |}.
Proof. repeat split. Qed.

(** C2, as stated, fails: the analysis of the report for no records is the
    empty mapping, not a placeholder with the seven keys. *)
Lemma empty_records_analysis_counterexample :
  let E := Scenario.world Scenario.crawl_ok (Scenario.search_top 5) Scenario.llm_down in
  let team := {| analysis_agent := Scenario.default_agent |} in
  exists report,
    outcome (generate_intelligence_report E team [] []) = Ok report
    /\ analysis report = PDict ∅
    /\ ~ has_required_keys (analysis report)
    /\ analysis report <> PDict mock_report.
Proof.
  intros E team. eexists. split; [reflexivity |]. split; [reflexivity |]. split.
  - intros Hkeys. destruct (Hkeys ∅ eq_refl "strengths") as [v Hv]; [left |].
    rewrite lookup_empty in Hv. discriminate.
  - apply (PDict_differs _ _ "strengths"). vm_compute. discriminate.
Qed.

(** ** CompetitorIntelligenceTeam: the enrichment loop *)

Section Enrichment.

Variable E : Env.

(** What one iteration leaves in the list, read off the answers of the
    crawler and the summarizer at the moment they are called. *)
Lemma enrich_one_outcome (n i : nat) (competitor : dict) (h : list event) :
  let url := dict_get competitor "url" PNone in
  let h1 := h ++ [signal_for E n i competitor] in
  outcome (enrich_one E n i competitor h) =
  Ok (if py_truthy E url then
        match crawl_website E h1 url with
        | Ok (PDict crawl_data) =>
            match summarize_content E (h1 ++ [CrawlCall url])
                    (dict_get crawl_data "content" (PStr EmptyString)) with
            | Ok summary =>
                with_summary competitor summary (dict_get crawl_data "metadata" (PDict ∅))
            | Raise _ => failed_record competitor
            end
        | _ => failed_record competitor
        end
      else with_summary competitor (PStr "No URL provided") (PDict ∅)).
Proof.
  intros url h1. unfold enrich_one. fold url.
  rewrite outcome_bind. cbn [emit outcome events fst snd]. fold (signal_for E n i competitor).
  fold h1.
  destruct (py_truthy E url); [| reflexivity].
  rewrite outcome_try_except, outcome_bind. cbn [call outcome events fst snd].
  destruct (crawl_website E h1 url) as [crawl_data | e]; [| reflexivity].
  rewrite outcome_bind. unfold lift at 1. cbn [outcome events fst snd].
  destruct crawl_data; try reflexivity.
  cbn [py_get]. rewrite outcome_bind. cbn [call outcome events fst snd].
  rewrite app_nil_r.
  destruct (summarize_content E (h1 ++ [CrawlCall url]) _) as [summary | e]; reflexivity.
Qed.

Lemma enrich_one_total (n i : nat) (competitor : dict) (h : list event) :
  exists enriched, outcome (enrich_one E n i competitor h) = Ok enriched.
Proof. rewrite enrich_one_outcome. eauto. Qed.

(** Every iteration starts with its progress update and emits no other. *)
Lemma enrich_one_events (n i : nat) (competitor : dict) (h : list event) :
  exists rest,
    events (enrich_one E n i competitor h) = signal_for E n i competitor :: rest
    /\ progress_signals rest = [].
Proof.
  unfold enrich_one. run_simpl.
  fold (signal_for E n i competitor).
  set (h1 := h ++ [signal_for E n i competitor]).
  set (url := dict_get competitor "url" PNone).
  eexists. split; [reflexivity |].
  destruct (py_truthy E url); run_simpl; [| reflexivity].
  destruct (crawl_website E h1 url) as [crawl_data | e]; run_simpl; [| reflexivity].
  destruct (py_get crawl_data "content" (PStr EmptyString)) as [content | e];
    run_simpl; [| reflexivity].
  destruct (summarize_content E _ content) as [summary | e]; run_simpl; [| reflexivity].
  destruct (py_get crawl_data "metadata" (PDict ∅)) as [metadata | e];
    run_simpl; reflexivity.
Qed.

Lemma enrich_loop_total (candidates : list dict) (n i : nat) (h : list event) :
  exists out,
    outcome (enrich_loop E n i candidates h) = Ok out /\ length out = length candidates.
Proof.
  revert i h. induction candidates as [| c rest IH]; intros i h; simpl.
  - exists []. split; reflexivity.
  - rewrite outcome_bind.
    destruct (enrich_one_total n i c h) as [c' ->].
    rewrite outcome_bind.
    destruct (IH (S i) (h ++ events (enrich_one E n i c h))) as (out & -> & Hlen).
    exists (c' :: out). split; [reflexivity | simpl; congruence].
Qed.

Lemma enrich_loop_events_cons (c : dict) (rest : list dict) (n i : nat) (h : list event) :
  events (enrich_loop E n i (c :: rest) h) =
  events (enrich_one E n i c h)
  ++ events (enrich_loop E n (S i) rest (h ++ events (enrich_one E n i c h))).
Proof.
  simpl. rewrite events_bind.
  destruct (enrich_one_total n i c h) as [c' ->].
  rewrite events_bind.
  destruct (enrich_loop_total rest n (S i) (h ++ events (enrich_one E n i c h)))
    as (out & -> & _).
  cbn [ret events fst]. rewrite app_nil_r. reflexivity.
Qed.

(** The entry of the result at index [j] is what the iteration for the
    candidate at index [j] produced, whatever happened to the others. *)
Lemma enrich_loop_lookup (candidates : list dict) (n i : nat) (h : list event)
    (j : nat) (c enriched : dict) (out : list dict) :
  outcome (enrich_loop E n i candidates h) = Ok out ->
  candidates !! j = Some c ->
  outcome (enrich_one E n (i + j) c
             (h ++ events (enrich_loop E n i (take j candidates) h))) = Ok enriched ->
  out !! j = Some enriched.
Proof.
  revert i h j out. induction candidates as [| c0 rest IH]; intros i h j out Hout Hj Hone.
  - inversion Hj.
  - simpl in Hout. rewrite outcome_bind in Hout.
    destruct (enrich_one_total n i c0 h) as [c0' Hc0]. rewrite Hc0 in Hout.
    rewrite outcome_bind in Hout.
    destruct (enrich_loop_total rest n (S i) (h ++ events (enrich_one E n i c0 h)))
      as (out' & Hout' & _).
    rewrite Hout' in Hout. cbn in Hout. injection Hout as <-.
    destruct j as [| j].
    + simpl in Hj. injection Hj as <-.
      cbn [take] in Hone. cbn [enrich_loop ret events fst] in Hone.
      rewrite app_nil_r, Nat.add_0_r in Hone. simpl. congruence.
    + simpl in Hj. cbn [take] in Hone.
      rewrite enrich_loop_events_cons, app_assoc in Hone.
      replace (i + S j)%nat with (S i + j)%nat in Hone by lia.
      simpl. exact (IH (S i) _ j out' Hout' Hj Hone).
Qed.

Lemma progress_signals_app (a b : list event) :
  progress_signals (a ++ b) = progress_signals a ++ progress_signals b.
Proof.
  induction a as [| ev a IH]; simpl; [reflexivity |].
  destruct ev; simpl; rewrite IH; reflexivity.
Qed.

Lemma enrich_loop_signals (candidates : list dict) (n i : nat) (h : list event) :
  progress_signals (events (enrich_loop E n i candidates h))
  = imap (fun j c => signal_pair E n (i + j) c) candidates.
Proof.
  revert i h. induction candidates as [| c rest IH]; intros i h.
  - reflexivity.
  - rewrite enrich_loop_events_cons, progress_signals_app, IH.
    destruct (enrich_one_events n i c h) as (tail & -> & Htail).
    cbn [signal_for progress_signals]. rewrite Htail. cbn [imap app].
    rewrite Nat.add_0_r. f_equal.
    apply imap_ext. intros j x _. cbn. f_equal; lia.
Qed.

End Enrichment.

(** ** CompetitorIntelligenceTeam: discovery *)

Section Discovery.

Variable E : Env.

Lemma discover_description_entry (input_text : string) (h : list event) :
  discover_competitors E input_text false h
  = discover_from_description E (PStr input_text) h.
Proof. reflexivity. Qed.

Lemma discover_insufficient (description : pyval) (h : list event) :
  py_truthy E description = false ->
  discover_from_description E description h
  = ([StError "Cannot search for competitors without a description or URL."], Ok []).
Proof. intros Hd. unfold discover_from_description. rewrite Hd. reflexivity. Qed.

(** From the search on, discovery is the loop between two progress updates. *)
Lemma discover_run (description : pyval) (h : list event) (candidates : list dict) :
  py_truthy E description = true ->
  find_similar_companies E h description = Ok candidates ->
  let h0 := h ++ [SearchCall description; StProgress 0 "Crawling competitor websites..."] in
  discover_from_description E description h =
  match candidates with
  | [] =>
      ([SearchCall description; StProgress 0 "Crawling competitor websites...";
        StProgress 1 "No competitors found to crawl."], Ok [])
  | _ :: _ =>
      ([SearchCall description; StProgress 0 "Crawling competitor websites..."]
       ++ events (enrich_loop E (length candidates) 0 candidates h0)
       ++ [StProgress 1 "Competitor crawling complete."],
       outcome (enrich_loop E (length candidates) 0 candidates h0))
  end.
Proof.
  intros Hd Hsearch h0. unfold discover_from_description. rewrite Hd. cbn [negb].
  rewrite bind_run. cbn [call]. rewrite Hsearch.
  rewrite bind_run. cbn [emit].
  replace ((h ++ [SearchCall description])
           ++ [StProgress 0 "Crawling competitor websites..."]) with h0
    by (unfold h0; rewrite <- app_assoc; reflexivity).
  destruct candidates as [| c rest]; [reflexivity |].
  cbn [length Nat.eqb]. rewrite bind_run.
  destruct (enrich_loop_total E (c :: rest) (S (length rest)) 0 h0) as (out & Hout & _).
  destruct (enrich_loop E (S (length rest)) 0 (c :: rest) h0) as [es r] eqn:Hloop.
  cbn [outcome snd] in Hout. subst r. reflexivity.
Qed.

Lemma discover_from_description_returns (description : pyval) (h : list event) :
  py_truthy E description = false
  \/ (exists candidates, find_similar_companies E h description = Ok candidates) ->
  exists out, outcome (discover_from_description E description h) = Ok out.
Proof.
  intros [Hd | [candidates Hsearch]].
  - rewrite (discover_insufficient _ _ Hd). eauto.
  - destruct (py_truthy E description) eqn:Hd.
    + rewrite (discover_run description h candidates Hd Hsearch).
      destruct candidates as [| c rest]; [eauto |].
      destruct (enrich_loop_total E (c :: rest) (length (c :: rest)) 0
                  (h ++ [SearchCall description;
                         StProgress 0 "Crawling competitor websites..."]))
        as (out & Hout & _).
      exists out. exact Hout.
    + rewrite (discover_insufficient _ _ Hd). eauto.
Qed.

(** Past its first stage, [discover_competitors] is the search and the loop. *)
Lemma discover_competitors_tail (input_text : string) (is_url : bool)
    (h pre : list event) (description : pyval) :
  reaches_search E input_text is_url h pre description ->
  discover_competitors E input_text is_url h
  = (pre ++ events (discover_from_description E description (h ++ pre)),
     outcome (discover_from_description E description (h ++ pre)))
  /\ progress_signals pre = [].
Proof.
  unfold reaches_search, discover_competitors. destruct is_url.
  - intros (Hscheme & company_data & Hcrawl & Hfound). rewrite Hscheme. cbn [negb].
    rewrite bind_run. cbn [call]. rewrite Hcrawl.
    rewrite bind_run. cbn [lift py_get]. rewrite app_nil_r.
    cbn zeta in Hfound.
    destruct (py_truthy E (dict_get company_data "description" (PStr EmptyString)));
      destruct Hfound as [-> ->]; cbn [negb].
    + split; [| reflexivity]. cbn [app].
      destruct (discover_from_description E _ _); reflexivity.
    + split; [| reflexivity].
      rewrite bind_run. cbn [emit]. rewrite bind_run. cbn [lift py_get].
      rewrite app_nil_r, <- app_assoc. cbn [app].
      destruct (discover_from_description E _ _); reflexivity.
  - intros [-> ->]. rewrite app_nil_r. split; [| reflexivity]. cbn [app].
    destruct (discover_from_description E _ _); reflexivity.
Qed.

End Discovery.

(** ** Failure of one crawl is isolated *)

(** The entries of the list discovery returns, from the point where the
    description is known. *)
Lemma enrichment_entries
    (E : Env) (description : pyval) (h : list event) (candidates : list dict) :
  py_truthy E description = true ->
  find_similar_companies E h description = Ok candidates ->
  let h0 := h ++ [SearchCall description; StProgress 0 "Crawling competitor websites..."] in
  exists out,
    outcome (discover_from_description E description h) = Ok out
    /\ length out = length candidates
    /\ forall i competitor, candidates !! i = Some competitor ->
         let url := dict_get competitor "url" PNone in
         let hi := crawl_history E h0 candidates i competitor in
         (py_truthy E url = true ->
          forall e, crawl_website E hi url = Raise e ->
                    out !! i = Some (failed_record competitor))
         /\ (py_truthy E url = false ->
             out !! i = Some (with_summary competitor (PStr "No URL provided") (PDict ∅)))
         /\ (py_truthy E url = true ->
             forall crawl_data summary,
               crawl_website E hi url = Ok (PDict crawl_data) ->
               summarize_content E (hi ++ [CrawlCall url])
                 (dict_get crawl_data "content" (PStr EmptyString)) = Ok summary ->
               out !! i = Some (with_summary competitor summary
                                  (dict_get crawl_data "metadata" (PDict ∅)))).
Proof.
  intros Hd Hsearch h0.
  rewrite (discover_run E description h candidates Hd Hsearch). fold h0.
  destruct candidates as [| c0 rest].
  { exists []. split; [reflexivity |]. split; [reflexivity |]. intros i c Hi. inversion Hi. }
  set (candidates := c0 :: rest) in *.
  destruct (enrich_loop_total E candidates (length candidates) 0 h0) as (out & Hout & Hlen).
  exists out. split; [exact Hout |]. split; [exact Hlen |].
  intros i competitor Hi url hi.
  assert (Hentry : forall enriched,
             outcome (enrich_one E (length candidates) i competitor
                        (history_at E h0 candidates i)) = Ok enriched ->
             out !! i = Some enriched).
  { intros enriched Hone.
    exact (enrich_loop_lookup E candidates (length candidates) 0 h0 i competitor
             enriched out Hout Hi Hone). }
  pose proof (enrich_one_outcome E (length candidates) i competitor
                (history_at E h0 candidates i)) as Hone.
  cbn zeta in Hone. fold url in Hone.
  change (history_at E h0 candidates i ++ [signal_for E (length candidates) i competitor])
    with hi in Hone.
  split; [| split].
  - intros Hurl e Hcrawl. apply Hentry. rewrite Hone, Hurl, Hcrawl. reflexivity.
  - intros Hurl. apply Hentry. rewrite Hone, Hurl. reflexivity.
  - intros Hurl crawl_data summary Hcrawl Hsum. apply Hentry.
    rewrite Hone, Hurl, Hcrawl, Hsum. reflexivity.
Qed.

Lemma with_summary_enriched_as (competitor : dict) (summary metadata : pyval) :
  enriched_as competitor summary metadata
    (Some (with_summary competitor summary metadata)).
Proof.
  exists (with_summary competitor summary metadata). unfold with_summary.
  split; [reflexivity |]. split; [| split].
  - rewrite lookup_insert_ne by discriminate. apply lookup_insert_eq.
  - apply lookup_insert_eq.
  - intros k Hs Hm. rewrite !lookup_insert_ne by congruence. reflexivity.
Qed.

(** C4.  Let [discover_competitors] reach the enrichment loop with the
    candidates the search returned.  It then returns one record per
    candidate, in the order of the candidates, and the record at index [i]
    depends on the calls made for candidate [i] alone.  When its crawl call
    raises, the record has the summary [Crawling failed] and the empty
    mapping as metadata; when the candidate has no URL, the summary
    [No URL provided] and the empty mapping; when its crawl and summary
    calls return, the summary the summarizer gave and the metadata of the
    crawl.  In each case every other key of the record is as the candidate
    had it.  A crawl that raises for one candidate changes nothing for the
    others and drops no entry. *)
Theorem enrichment_isolates_crawl_failure
    (E : Env) (input_text : string) (is_url : bool) (h pre : list event)
    (description : pyval) (candidates : list dict) :
  reaches_search E input_text is_url h pre description ->
  py_truthy E description = true ->
  find_similar_companies E (h ++ pre) description = Ok candidates ->
  let h0 := (h ++ pre)
            ++ [SearchCall description; StProgress 0 "Crawling competitor websites..."] in
  exists out,
    outcome (discover_competitors E input_text is_url h) = Ok out
    /\ length out = length candidates
    /\ forall i competitor, candidates !! i = Some competitor ->
         let url := dict_get competitor "url" PNone in
         let hi := crawl_history E h0 candidates i competitor in
         (py_truthy E url = true ->
          forall e, crawl_website E hi url = Raise e ->
                    enriched_as competitor (PStr "Crawling failed") (PDict ∅) (out !! i))
         /\ (py_truthy E url = false ->
             enriched_as competitor (PStr "No URL provided") (PDict ∅) (out !! i))
         /\ (py_truthy E url = true ->
             forall crawl_data summary,
               crawl_website E hi url = Ok (PDict crawl_data) ->
               summarize_content E (hi ++ [CrawlCall url])
                 (dict_get crawl_data "content" (PStr EmptyString)) = Ok summary ->
               enriched_as competitor summary
                 (dict_get crawl_data "metadata" (PDict ∅)) (out !! i)).
Proof.
  intros Hreach Hd Hsearch h0.
  destruct (discover_competitors_tail E input_text is_url h pre description Hreach)
    as [Htail _].
  rewrite Htail. cbn [outcome snd].
  destruct (enrichment_entries E description (h ++ pre) candidates Hd Hsearch)
    as (out & Hout & Hlen & Hall).
  exists out. split; [exact Hout |]. split; [exact Hlen |].
  intros i competitor Hi.
  destruct (Hall i competitor Hi) as (Hfail & Hnourl & Hok).
  split; [| split].
  - intros Hurl e Hcrawl. rewrite (Hfail Hurl e Hcrawl).
    apply with_summary_enriched_as.
  - intros Hurl. rewrite (Hnourl Hurl). apply with_summary_enriched_as.
  - intros Hurl crawl_data summary Hcrawl Hsum.
    rewrite (Hok Hurl crawl_data summary Hcrawl Hsum).
    apply with_summary_enriched_as.
Qed.

Lemma enrichment_isolates_crawl_failure_witness :
  let E := Scenario.world (Scenario.crawl_failing_on "https://competitorb.com")
             (Scenario.search_top 3) Scenario.llm_down in
  let summary :=
    PStr "This company provides various products and services in the technology sector, focusing on innovation and customer satisfaction." in
  exists out a b c,
    outcome (discover_competitors E "We build developer tools" false []) = Ok out
    /\ length out = 3%nat
    /\ Scenario.companies !! 0%nat = Some a
    /\ Scenario.companies !! 1%nat = Some b
    /\ Scenario.companies !! 2%nat = Some c
    /\ enriched_as a summary Scenario.crawl_metadata (out !! 0%nat)
    /\ (exists o, out !! 1%nat = Some o
                  /\ o !! "summary" = Some (PStr "Crawling failed")
                  /\ o !! "metadata" = Some (PDict ∅)
                  /\ o !! "name" = Some (PStr "CompetitorB")
                  /\ o !! "url" = Some (PStr "https://competitorb.com"))
    /\ enriched_as c summary Scenario.crawl_metadata (out !! 2%nat).
Proof.
  intros E summary.
  destruct (enrichment_isolates_crawl_failure E "We build developer tools" false [] []
              (PStr "We build developer tools") (take 3 Scenario.companies))
    as (out & Hout & Hlen & Hall).
  - split; reflexivity.
  - reflexivity.
  - reflexivity.
  - exists out. eexists _, _, _.
    split; [exact Hout |]. split; [exact Hlen |].
    split; [reflexivity |]. split; [reflexivity |]. split; [reflexivity |].
    split; [| split].
    + destruct (Hall 0%nat _ eq_refl) as (_ & _ & Hok).
      apply (Hok eq_refl _ _ eq_refl eq_refl).
    + destruct (Hall 1%nat _ eq_refl) as (Hfail & _ & _).
      destruct (Hfail eq_refl _ eq_refl) as (o & Ho & Hs & Hm & Hother).
      exists o. split; [exact Ho |]. split; [exact Hs |]. split; [exact Hm |].
      split; (rewrite Hother by discriminate; reflexivity).
    + destruct (Hall 2%nat _ eq_refl) as (_ & _ & Hok).
      apply (Hok eq_refl _ _ eq_refl eq_refl).
Defined.

(** ** Progress updates *)

Lemma pos_of_nat_Z (n : nat) : n <> 0%nat -> Z.pos (Pos.of_nat n) = Z.of_nat n.
Proof.
  intros Hn. rewrite <- positive_nat_Z, Nat2Pos.id by assumption. reflexivity.
Qed.

Lemma progress_fraction_step (i n : nat) :
  (progress_fraction i n <= progress_fraction (S i) n)%Q.
Proof.
  unfold progress_fraction, Qle. cbn [Qnum Qden].
  apply Z.mul_le_mono_nonneg_r; lia.
Qed.

Lemma progress_fraction_nonneg (i n : nat) : (0 <= progress_fraction i n)%Q.
Proof. unfold progress_fraction, Qle. cbn [Qnum Qden]. lia. Qed.

Lemma progress_fraction_last (i n : nat) :
  (i < n)%nat -> (progress_fraction i n <= 1)%Q.
Proof.
  intros Hi. unfold progress_fraction, Qle. cbn [Qnum Qden].
  rewrite pos_of_nat_Z by lia. lia.
Qed.

Lemma progress_fraction_full (n : nat) :
  n <> 0%nat -> (progress_fraction (n - 1) n == 1)%Q.
Proof.
  intros Hn. unfold progress_fraction, Qeq. cbn [Qnum Qden].
  rewrite pos_of_nat_Z by assumption. lia.
Qed.

(** The fractions [0], then [(i + 1) / n] for each index, then [1]. *)
Lemma fractions_nondecreasing (E : Env) (candidates : list dict) (t0 t1 : string) :
  nondecreasing
    (fst <$> ((0%Q, t0)
              :: imap (fun j c => signal_pair E (length candidates) j c) candidates
              ++ [(1%Q, t1)])).
Proof.
  set (n := length candidates).
  set (body := imap (fun j c => signal_pair E n j c) candidates).
  assert (Hlen : length body = n) by (unfold body; apply length_imap).
  assert (Hbody : forall j q, (fst <$> (body ++ [(1%Q, t1)])) !! j = Some q ->
                    ((j < n)%nat /\ q = progress_fraction j n) \/ (j = n /\ q = 1%Q)).
  { intros j q Hq. rewrite list_lookup_fmap in Hq.
    destruct (decide (j < n)%nat) as [Hlt | Hge].
    - left. split; [exact Hlt |].
      rewrite lookup_app_l in Hq by lia. unfold body in Hq.
      rewrite list_lookup_imap in Hq.
      destruct (candidates !! j); [| discriminate]. cbn in Hq. congruence.
    - rewrite lookup_app_r in Hq by lia. rewrite Hlen in Hq.
      destruct (j - n)%nat as [| k] eqn:Hk; [| destruct k; discriminate].
      cbn in Hq. right. split; [lia | congruence]. }
  intros j q1 q2 H1 H2. cbn [fmap list_fmap] in H1, H2.
  change (list_fmap _ _ fst (body ++ [(1%Q, t1)])) with (fst <$> (body ++ [(1%Q, t1)]))
    in H1, H2.
  cbn [lookup list_lookup] in H2.
  destruct j as [| j].
  - cbn in H1. injection H1 as <-.
    destruct (Hbody _ _ H2) as [[_ ->] | [_ ->]];
      [apply progress_fraction_nonneg | unfold Qle; cbn; lia].
  - cbn [lookup list_lookup] in H1.
    destruct (Hbody _ _ H1) as [[Hj ->] | [Hj ->]];
      destruct (Hbody _ _ H2) as [[Hj' ->] | [Hj' ->]]; try lia.
    + apply progress_fraction_step.
    + apply progress_fraction_last. exact Hj.
Qed.

(** The progress updates of discovery, from the point where the description
    is known. *)
Lemma discovery_signals
    (E : Env) (description : pyval) (h : list event) (candidates : list dict) :
  py_truthy E description = true ->
  find_similar_companies E h description = Ok candidates ->
  candidates <> [] ->
  progress_signals (events (discover_from_description E description h))
  = (0%Q, "Crawling competitor websites...")
    :: imap (fun i c => signal_pair E (length candidates) i c) candidates
    ++ [(1%Q, "Competitor crawling complete.")].
Proof.
  intros Hd Hsearch Hne.
  rewrite (discover_run E description h candidates Hd Hsearch).
  destruct candidates as [| c rest]; [contradiction |].
  unfold events at 1. cbn [fst app progress_signals].
  rewrite progress_signals_app, enrich_loop_signals. reflexivity.
Qed.

(** C10 (as amended).  Let [discover_competitors] reach the enrichment loop
    with the candidates the search returned.  For no candidate it emits the
    initial update [0] and a single terminal update [1] and returns the empty
    list.  Otherwise its progress updates are, in order: the initial [0]; for
    the candidate at each index [i], the fraction [(i + 1) / n] with a label
    that names the candidate; the closing [1].  The fractions never decrease
    and end at [1], the update of the last candidate being [n / n] already.
    The update of a candidate is the first event of its iteration, emitted
    before its crawl call, and the iteration emits no other update. *)
Theorem progress_updates_of_discovery
    (E : Env) (input_text : string) (is_url : bool) (h pre : list event)
    (description : pyval) (candidates : list dict) :
  reaches_search E input_text is_url h pre description ->
  py_truthy E description = true ->
  find_similar_companies E (h ++ pre) description = Ok candidates ->
  let n := length candidates in
  let run := discover_competitors E input_text is_url h in
  let signals := progress_signals (events run) in
  (candidates = [] ->
   run = (pre ++ [SearchCall description; StProgress 0 "Crawling competitor websites...";
                  StProgress 1 "No competitors found to crawl."], Ok []))
  /\ (candidates <> [] ->
      signals = (0%Q, "Crawling competitor websites...")
                :: imap (fun i c => signal_pair E n i c) candidates
                ++ [(1%Q, "Competitor crawling complete.")]
      /\ nondecreasing (fst <$> signals)
      /\ last signals = Some (1%Q, "Competitor crawling complete.")
      /\ (progress_fraction (n - 1) n == 1)%Q)
  /\ (forall i competitor h',
        exists rest,
          events (enrich_one E n i competitor h') = signal_for E n i competitor :: rest
          /\ progress_signals rest = []).
Proof.
  intros Hreach Hd Hsearch n run signals.
  destruct (discover_competitors_tail E input_text is_url h pre description Hreach)
    as [Htail Hpre].
  fold run in Htail.
  split; [| split].
  - intros ->. rewrite Htail.
    rewrite (discover_run E description (h ++ pre) [] Hd Hsearch). reflexivity.
  - intros Hne.
    assert (Hsig : signals
                   = (0%Q, "Crawling competitor websites...")
                     :: imap (fun i c => signal_pair E n i c) candidates
                     ++ [(1%Q, "Competitor crawling complete.")]).
    { unfold signals. rewrite Htail. unfold events at 1. cbn [fst].
      rewrite progress_signals_app, Hpre. cbn [app].
      exact (discovery_signals E description (h ++ pre) candidates Hd Hsearch Hne). }
    split; [exact Hsig |]. split; [| split].
    + rewrite Hsig. apply fractions_nondecreasing.
    + rewrite Hsig. rewrite app_comm_cons. apply last_snoc.
    + apply progress_fraction_full. unfold n. destruct candidates; [contradiction |].
      discriminate.
  - intros i competitor h'. apply enrich_one_events.
Qed.

Lemma progress_updates_of_discovery_witness :
  let E := Scenario.world Scenario.crawl_ok (Scenario.search_top 2) Scenario.llm_down in
  let E0 := Scenario.world Scenario.crawl_ok (Scenario.search_top 0) Scenario.llm_down in
  let run := discover_competitors E "We build developer tools" false [] in
  progress_signals (events run)
  = [(0%Q, "Crawling competitor websites...");
     ((1 # 2)%Q, "Crawling CompetitorA (1/2)...");
     ((2 # 2)%Q, "Crawling CompetitorB (2/2)...");
     (1%Q, "Competitor crawling complete.")]
  /\ nondecreasing (fst <$> progress_signals (events run))
  /\ discover_competitors E0 "We build developer tools" false []
     = ([SearchCall (PStr "We build developer tools");
         StProgress 0 "Crawling competitor websites...";
         StProgress 1 "No competitors found to crawl."], Ok []).
Proof.
  intros E E0 run.
  destruct (progress_updates_of_discovery E "We build developer tools" false [] []
              (PStr "We build developer tools") (take 2 Scenario.companies))
    as (_ & Hsome & _); [split; reflexivity | reflexivity | reflexivity |].
  destruct (progress_updates_of_discovery E0 "We build developer tools" false [] []
              (PStr "We build developer tools") [])
    as (Hnone & _ & _); [split; reflexivity | reflexivity | reflexivity |].
  destruct Hsome as (Hsig & Hmono & _ & _); [discriminate |].
  split; [| split].
  - etransitivity; [exact Hsig |]. reflexivity.
  - exact Hmono.
  - exact (Hnone eq_refl).
Defined.

(** C10, as stated, fails on the order of events: the update that names a
    candidate is emitted before the candidate is crawled, and already with
    the fraction that counts it as processed; no update naming it follows
    its crawl call. *)
Lemma progress_update_precedes_crawl_counterexample :
  let E := Scenario.world Scenario.crawl_ok (Scenario.search_top 1) Scenario.llm_down in
  let evs := events (discover_competitors E "We build developer tools" false []) in
  evs = [SearchCall (PStr "We build developer tools");
         StProgress 0 "Crawling competitor websites...";
         StProgress (1 # 1) "Crawling CompetitorA (1/1)...";
         CrawlCall (PStr "https://competitora.com");
         SummarizeCall (PStr "Lorem ipsum dolor sit amet, consectetur adipiscing elit. Sed do eiusmod tempor incididunt ut labore et dolore magna aliqua.");
         StProgress 1 "Competitor crawling complete."]
  /\ ~ signal_follows_crawl evs "CompetitorA" (PStr "https://competitora.com").
Proof.
  intros E evs.
  assert (Hevs : evs = [SearchCall (PStr "We build developer tools");
         StProgress 0 "Crawling competitor websites...";
         StProgress (1 # 1) "Crawling CompetitorA (1/1)...";
         CrawlCall (PStr "https://competitora.com");
         SummarizeCall (PStr "Lorem ipsum dolor sit amet, consectetur adipiscing elit. Sed do eiusmod tempor incididunt ut labore et dolore magna aliqua.");
         StProgress 1 "Competitor crawling complete."]) by (vm_compute; reflexivity).
  split; [exact Hevs |].
  intros (p & q & value & text & Hp & Hq & Hlt & Hname). rewrite Hevs in Hp, Hq.
  destruct p as [| [| [| [| [| [| p]]]]]]; cbn in Hp; try discriminate Hp.
  destruct q as [| [| [| [| [| [| q]]]]]]; cbn in Hq; try discriminate Hq; try lia.
  assert (Htext : text = "Competitor crawling complete.") by congruence.
  subst text. vm_compute in Hname. discriminate.
Qed.

(** ** Which failures stay inside the operations *)

Lemma generate_analysis_report_returns
    (E : Env) (self : AnalysisAgent) (records : list dict) (h : list event) :
  exists v, outcome (generate_analysis_report E self records h) = Ok v.
Proof.
  destruct (analysis_value_shape E self records h) as (v & Hv & _). eauto.
Qed.

Lemma discover_competitors_returns
    (E : Env) (input_text : string) (is_url : bool) (h : list event) :
  (forall h' d, exists candidates, find_similar_companies E h' d = Ok candidates) ->
  (is_url = true -> has_http_scheme input_text = true ->
   exists company_data, crawl_website E h (PStr input_text) = Ok (PDict company_data)) ->
  exists out, outcome (discover_competitors E input_text is_url h) = Ok out.
Proof.
  intros Hsearch Hseed. unfold discover_competitors.
  destruct is_url; [| apply discover_from_description_returns; right; apply Hsearch].
  destruct (has_http_scheme input_text); cbn [negb]; [| eexists; reflexivity].
  destruct (Hseed eq_refl eq_refl) as [company_data Hcrawl].
  rewrite outcome_bind. cbn [call outcome events fst snd]. rewrite Hcrawl.
  rewrite outcome_bind. cbn [lift py_get outcome events fst snd].
  destruct (py_truthy E (dict_get company_data "description" (PStr EmptyString))); cbn [negb].
  - apply discover_from_description_returns. right. apply Hsearch.
  - rewrite outcome_bind. cbn [emit outcome events fst snd].
    rewrite outcome_bind. cbn [lift py_get outcome events fst snd].
    apply discover_from_description_returns. right. apply Hsearch.
Qed.

Lemma generate_intelligence_report_returns
    (E : Env) (self : CompetitorIntelligenceTeam) (records : list dict) (h : list event) :
  Forall (fun c => row_ready c = true) records ->
  exists report, outcome (generate_intelligence_report E self records h) = Ok report.
Proof.
  intros Hready. unfold generate_intelligence_report.
  destruct records as [| c rest]; [eexists; reflexivity |].
  destruct (comparison_rows_ready (c :: rest) Hready) as (data & Hdata & _).
  assert (Htable : create_comparison_table (c :: rest)
                   = Ok {| columns := table_columns; rows := data |}).
  { unfold create_comparison_table. rewrite Hdata. reflexivity. }
  rewrite outcome_bind.
  destruct (bool_decide (is_Some (client (analysis_agent self)))); cbn [negb].
  - destruct (generate_analysis_report_returns E (analysis_agent self) (c :: rest) h)
      as [v ->].
    rewrite outcome_bind. unfold lift at 1. rewrite Htable. eexists. reflexivity.
  - cbn -[create_comparison_table]. rewrite Htable. eexists. reflexivity.
Qed.

(** C3 (as amended).  Which failures the public operations absorb.
    - [generate_analysis_report] returns for every agent, every list of
      records and every behaviour of the backend, a raising call included.
    - [discover_competitors] returns the empty list for a URL input without
      an http scheme and for an empty description.  Inside its loop every
      exception of a crawl or summary call is absorbed, so it returns
      whenever the calls it makes outside the loop answer: the search call,
      and for a URL input the crawl of that URL, which has to return a
      mapping.
    - [generate_intelligence_report] returns, whatever the backend does, for
      records from which the comparison table can be built. *)
Theorem failures_absorbed_by_operations (E : Env) (h : list event) :
  (forall self records,
      exists v, outcome (generate_analysis_report E self records h) = Ok v)
  /\ (forall input_text,
        has_http_scheme input_text = false ->
        discover_competitors E input_text true h
        = ([StError "Invalid URL provided. Please include http:// or https://"], Ok []))
  /\ discover_competitors E EmptyString false h
     = ([StError "Cannot search for competitors without a description or URL."], Ok [])
  /\ (forall input_text is_url,
        (forall h' d, exists candidates, find_similar_companies E h' d = Ok candidates) ->
        (is_url = true -> has_http_scheme input_text = true ->
         exists company_data,
           crawl_website E h (PStr input_text) = Ok (PDict company_data)) ->
        exists out, outcome (discover_competitors E input_text is_url h) = Ok out)
  /\ (forall n i candidates,
        exists out, outcome (enrich_loop E n i candidates h) = Ok out
                    /\ length out = length candidates)
  /\ (forall self records,
        Forall (fun c => row_ready c = true) records ->
        exists report, outcome (generate_intelligence_report E self records h) = Ok report).
Proof.
  split; [intros; apply generate_analysis_report_returns |].
  split.
  { intros input_text Hscheme. unfold discover_competitors. rewrite Hscheme. reflexivity. }
  split; [reflexivity |].
  split; [intros; apply discover_competitors_returns; assumption |].
  split; [intros; apply enrich_loop_total |].
  intros; apply generate_intelligence_report_returns; assumption.
Qed.

Lemma failures_absorbed_by_operations_witness :
  let E := Scenario.world (Scenario.crawl_failing_on "https://competitorb.com")
             (Scenario.search_top 5) Scenario.llm_down in
  let team := {| analysis_agent := Scenario.openai_agent |} in
  discover_competitors E "not-a-url" true []
  = ([StError "Invalid URL provided. Please include http:// or https://"], Ok [])
  /\ (exists out, outcome (discover_competitors E "https://example.com" true []) = Ok out)
  /\ (exists report,
        outcome (generate_intelligence_report E team Scenario.companies []) = Ok report).
Proof.
  intros E team.
  destruct (failures_absorbed_by_operations E []) as (_ & Hurl & _ & Hdisc & _ & Hrep).
  split; [apply Hurl; reflexivity |]. split.
  - apply Hdisc.
    + intros h' d. eexists. reflexivity.
    + intros _ _. eexists. reflexivity.
  - apply Hrep. repeat constructor.
Defined.

(** C3, as stated, fails: the crawl of the URL the user entered is made
    outside any handler, so an exception of the crawler there leaves
    [discover_competitors]. *)
Lemma seed_crawl_exception_escapes_counterexample :
  let E := Scenario.world Scenario.crawl_down (Scenario.search_top 5) Scenario.llm_down in
  has_http_scheme "https://example.com" = true
  /\ discover_competitors E "https://example.com" true []
     = ([CrawlCall (PStr "https://example.com")],
        Raise (PyExc "ConnectionError" "connection refused")).
Proof. intros E. split; reflexivity. Qed.

(** * Further properties of the code *)

(** ** [get_model_id] and the model catalogue *)

Lemma lstrip_keeps_or_shortens (l : list ascii) :
  lstrip l = l \/ (length (lstrip l) < length l)%nat.
Proof.
  induction l as [| c l IH]; [left; reflexivity |]. cbn [lstrip].
  destruct (py_isspace c); [| left; reflexivity].
  right. cbn [length]. destruct IH as [-> | Hlt]; lia.
Qed.

Lemma lstrip_length (l : list ascii) : (length (lstrip l) <= length l)%nat.
Proof. destruct (lstrip_keeps_or_shortens l) as [-> | Hlt]; lia. Qed.

Lemma lstrip_idempotent (l : list ascii) : lstrip (lstrip l) = lstrip l.
Proof.
  induction l as [| c l IH]; [reflexivity |]. cbn [lstrip].
  destruct (py_isspace c) eqn:Hc; [exact IH |]. cbn [lstrip]. rewrite Hc. reflexivity.
Qed.

(** A text that [strip] leaves alone has no white space to lose at either end. *)
Lemma stripped_both_ends (l : list ascii) :
  strip_chars l = l -> lstrip l = l /\ lstrip (rev l) = rev l.
Proof.
  unfold strip_chars. intros Hs.
  assert (Hlen : length (lstrip (rev (lstrip l))) = length l).
  { rewrite <- (length_rev (lstrip (rev (lstrip l)))). rewrite Hs. reflexivity. }
  pose proof (lstrip_length (rev (lstrip l))) as H1. rewrite length_rev in H1.
  assert (Hl : lstrip l = l).
  { destruct (lstrip_keeps_or_shortens l) as [Heq | Hlt]; [exact Heq | lia]. }
  split; [exact Hl |]. rewrite Hl in Hs.
  apply (f_equal (@rev ascii)) in Hs. rewrite rev_involutive in Hs. exact Hs.
Qed.

Lemma strip_chars_idempotent (l : list ascii) :
  strip_chars (strip_chars l) = strip_chars l.
Proof.
  unfold strip_chars. set (a := lstrip l). set (b := lstrip (rev a)).
  assert (Hb : lstrip b = b) by apply lstrip_idempotent.
  assert (Hrb : lstrip (rev b) = rev b).
  { destruct b as [| x b'] eqn:Eb; [reflexivity |].
    (* [rev b] is a prefix of [a], which starts with no white space *)
    assert (Hsuffix : exists pre, rev a = pre ++ b).
    { unfold b in Eb |- *. clear. induction (rev a) as [| c r IH].
      - exists []. reflexivity.
      - cbn [lstrip]. destruct (py_isspace c).
        + destruct IH as [pre Hpre]. exists (c :: pre). cbn. rewrite <- Hpre. reflexivity.
        + exists []. reflexivity. }
    destruct Hsuffix as [pre Hpre]. rewrite Eb in Hpre.
    apply (f_equal (@rev ascii)) in Hpre. rewrite rev_involutive, rev_app_distr in Hpre.
    assert (Ha : lstrip a = a) by apply lstrip_idempotent.
    rewrite Hpre in Ha.
    destruct (rev (x :: b')) as [| y ys] eqn:Ery.
    - reflexivity.
    - cbn [app lstrip] in Ha. cbn [lstrip].
      destruct (py_isspace y); [| reflexivity].
      pose proof (lstrip_length (ys ++ rev pre)) as Hlen.
      rewrite Ha in Hlen. cbn [length] in Hlen. lia. }
  rewrite Hrb, rev_involutive, Hb. reflexivity.
Qed.

Lemma upto_paren_lacks (l : list ascii) :
  forallb (differs "(") (upto_paren l) = true.
Proof.
  induction l as [| c l IH]; [reflexivity |]. cbn [upto_paren].
  destruct (Ascii.eqb c "(") eqn:Hc; [reflexivity |].
  cbn [forallb]. unfold differs at 1. rewrite Hc. exact IH.
Qed.

Lemma upto_paren_stops (l rest : list ascii) :
  forallb (differs "(") l = true ->
  upto_paren (l ++ "("%char :: rest) = l.
Proof.
  induction l as [| c l IH]; [reflexivity |]. cbn [forallb app upto_paren]. intros Hl.
  apply andb_prop in Hl as [Hc Hl]. unfold differs in Hc.
  destruct (Ascii.eqb c "("); [discriminate |].
  rewrite (IH Hl). reflexivity.
Qed.

Lemma forallb_sublist_lstrip (P : ascii -> bool) (l : list ascii) :
  forallb P l = true -> forallb P (lstrip l) = true.
Proof.
  induction l as [| c l IH]; [reflexivity |]. cbn. intros Hl.
  apply andb_prop in Hl as [Hc Hl]. destruct (py_isspace c); [exact (IH Hl) |].
  cbn. rewrite Hc, Hl. reflexivity.
Qed.

Lemma forallb_rev (P : ascii -> bool) (l : list ascii) :
  forallb P l = true -> forallb P (rev l) = true.
Proof.
  intros Hl. apply forallb_forall. intros x Hx. apply in_rev in Hx.
  exact (proj1 (forallb_forall P l) Hl x Hx).
Qed.

(** X1.  [get_model_id] undoes the label format of the catalogue: for an
    identifier that is not empty, has no opening parenthesis and that
    [strip] leaves alone, and for any tier hint, the label
    [<id> (<hint>)] gives the identifier back. *)
Theorem get_model_id_of_label (id hint : string) :
  id <> EmptyString ->
  lacks "(" id = true ->
  py_strip id = id ->
  get_model_id (id +:+ " (" +:+ hint +:+ ")") = Some id.
Proof.
  intros Hne Hlacks Hstrip. unfold get_model_id.
  set (l := list_ascii_of_string id).
  assert (Hl : l <> []).
  { intros Hnil. apply Hne. rewrite <- (string_of_list_ascii_of_string id).
    fold l. rewrite Hnil. reflexivity. }
  assert (Hsl : strip_chars l = l).
  { unfold py_strip in Hstrip. fold l in Hstrip.
    apply (f_equal list_ascii_of_string) in Hstrip.
    rewrite list_ascii_of_string_of_list_ascii in Hstrip. exact Hstrip. }
  destruct (stripped_both_ends l Hsl) as [Hleft Hright].
  rewrite list_ascii_of_append. fold l.
  change (" (" +:+ hint +:+ ")") with (String " " (String "(" (hint +:+ ")"))).
  cbn [list_ascii_of_string].
  replace (l ++ " "%char :: "("%char :: list_ascii_of_string (hint +:+ ")"))
    with ((l ++ [" "%char]) ++ "("%char :: list_ascii_of_string (hint +:+ ")"))
    by (rewrite <- app_assoc; reflexivity).
  rewrite upto_paren_stops.
  2:{ rewrite forallb_app. unfold lacks in Hlacks. fold l in Hlacks.
      rewrite Hlacks. reflexivity. }
  destruct (l ++ [" "%char]) as [| c0 l0] eqn:Hm.
  { destruct l; discriminate Hm. }
  rewrite <- Hm. f_equal.
  unfold strip_chars.
  assert (Hfront : lstrip (l ++ [" "%char]) = l ++ [" "%char]).
  { destruct l as [| c l']; [contradiction |]. cbn [lstrip app] in Hleft |- *.
    destruct (py_isspace c); [| reflexivity].
    pose proof (lstrip_length l') as Hlen. rewrite Hleft in Hlen. cbn in Hlen. lia. }
  rewrite Hfront, rev_app_distr. cbn [rev app lstrip].
  change (py_isspace " ") with true. cbn iota.
  rewrite Hright, rev_involutive. apply string_of_list_ascii_of_string.
Qed.

Lemma get_model_id_of_label_witness :
  get_model_id ("my-model v2" +:+ " (" +:+ "Fast (beta)" +:+ ")") = Some "my-model v2".
Proof.
  apply (get_model_id_of_label "my-model v2" "Fast (beta)").
  - discriminate.
  - reflexivity.
  - reflexivity.
Defined.

(** X2.  Every display name of [MODEL_OPTIONS] leads back to the identifier
    it is listed under, so the identifier the interface hands to
    [configure_agents] is a key of the catalogue. *)
Theorem catalogue_labels_give_identifiers (p id label : string) (models : list (string * string)) :
  (p, models) ∈ MODEL_OPTIONS ->
  (id, label) ∈ models ->
  get_model_id label = Some id.
Proof.
  intros Hp Hm.
  assert (Hall : Forall (fun pm => Forall (fun il => get_model_id il.2 = Some il.1) pm.2)
                   MODEL_OPTIONS).
  { unfold MODEL_OPTIONS. repeat constructor. }
  rewrite Forall_forall in Hall. specialize (Hall _ Hp). cbn in Hall.
  rewrite Forall_forall in Hall. exact (Hall _ Hm).
Qed.

Lemma catalogue_labels_give_identifiers_witness :
  get_model_id "claude-3-haiku-20240307 (Fastest/Cheapest)" = Some "claude-3-haiku-20240307".
Proof.
  apply (catalogue_labels_give_identifiers "anthropic" _ _
           [("claude-3-opus-20240229", "claude-3-opus-20240229 (Most Powerful)");
            ("claude-3-sonnet-20240229", "claude-3-sonnet-20240229 (Balanced)");
            ("claude-3-haiku-20240307", "claude-3-haiku-20240307 (Fastest/Cheapest)")]).
  - unfold MODEL_OPTIONS. apply list_elem_of_In. cbn. right; left. reflexivity.
  - apply list_elem_of_In. cbn. right; right; left. reflexivity.
Defined.

(** X3.  [get_model_id] gives nothing exactly when the display name is empty
    or starts with an opening parenthesis.  What it gives otherwise has no
    opening parenthesis and no white space left to strip; it may be empty,
    when only white space comes before the parenthesis. *)
Theorem get_model_id_result (display_name : string) :
  (get_model_id display_name = None
   <-> display_name = EmptyString \/ starts_with "(" display_name)
  /\ (forall id, get_model_id display_name = Some id ->
                 lacks "(" id = true /\ py_strip id = id)
  /\ get_model_id "  (x)" = Some EmptyString.
Proof.
  split; [| split; [| reflexivity]].
  - unfold get_model_id, starts_with.
    destruct display_name as [| c rest]; cbn [list_ascii_of_string upto_paren].
    + split; [intros _; left; reflexivity | reflexivity].
    + destruct (Ascii.eqb_spec c "(") as [-> | Hc].
      * split; [intros _; right; exists rest; reflexivity | reflexivity].
      * split; [discriminate |].
        intros [Hempty | [rest' Hstart]]; [discriminate |].
        injection Hstart as Hc' _. contradiction.
  - intros id. unfold get_model_id.
    pose proof (upto_paren_lacks (list_ascii_of_string display_name)) as Hlacks.
    destruct (upto_paren (list_ascii_of_string display_name)) as [| c m] eqn:Hm;
      [discriminate |].
    intros [= <-]. split.
    + unfold lacks. rewrite list_ascii_of_string_of_list_ascii. unfold strip_chars.
      apply forallb_rev, forallb_sublist_lstrip, forallb_rev, forallb_sublist_lstrip.
      exact Hlacks.
    + unfold py_strip. rewrite list_ascii_of_string_of_list_ascii.
      rewrite strip_chars_idempotent. reflexivity.
Qed.

(** ** [AnalysisAgent.__init__] and the requests of [generate_analysis_report] *)

Lemma client_for_dispatches (p : string) (kind : llm_client) :
  client_for p = Ok kind -> dispatches p = true.
Proof.
  unfold client_for, dispatches.
  destruct (String.eqb p "openai"); [reflexivity |].
  destruct (String.eqb p "anthropic"); [reflexivity |].
  destruct (String.eqb p "google"); [reflexivity |].
  destruct (in_BASE_URLS p); [reflexivity | discriminate].
Qed.

Lemma dispatches_client_for (p : string) :
  dispatches p = true -> exists kind, client_for p = Ok kind.
Proof.
  unfold client_for, dispatches.
  destruct (String.eqb p "openai"); [eauto |].
  destruct (String.eqb p "anthropic"); [eauto |].
  destruct (String.eqb p "google"); [eauto |].
  destruct (in_BASE_URLS p); [eauto | discriminate].
Qed.

Lemma init_state
    (construct : list event -> llm_client -> string -> string -> result unit)
    (provider0 : string) (api_key0 model_id0 : option string) (h : list event) :
  exists self,
    outcome (AnalysisAgent_init construct provider0 api_key0 model_id0 h) = Ok self
    /\ provider self = py_lower provider0
    /\ api_key self = api_key0
    /\ model_id self = model_id0
    /\ (forall kind,
          client self = Some kind <->
          truthy_opt model_id0 = true
          /\ truthy_opt api_key0 = true
          /\ client_for (py_lower provider0) = Ok kind
          /\ construct h kind (default EmptyString api_key0)
               (default EmptyString model_id0) = Ok tt)
    /\ (is_Some (client self) ->
        configured self = true /\ dispatches (provider self) = true).
Proof.
  unfold AnalysisAgent_init.
  destruct (truthy_opt model_id0) eqn:Hm; cbn [negb].
  2:{ eexists. split; [reflexivity |]. cbn. repeat (split; [reflexivity |]). split.
      - intros kind. split; [discriminate | intros [Habs _]; discriminate].
      - intros [kind Hk]. discriminate. }
  destruct (truthy_opt api_key0) eqn:Hk.
  2:{ eexists. split; [reflexivity |]. cbn. repeat (split; [reflexivity |]). split.
      - intros kind. split; [discriminate | intros (_ & Habs & _); discriminate].
      - intros [kind Hkind]. discriminate. }
  run_simpl.
  destruct (client_for (py_lower provider0)) as [kind0 | e0] eqn:Hkind; run_simpl.
  2:{ eexists. split; [reflexivity |]. cbn. repeat (split; [reflexivity |]). split.
      - intros kind. split; [discriminate | intros (_ & _ & Habs & _); discriminate].
      - intros [kind Hkind']. discriminate. }
  unfold consult at 1 2. cbn [outcome events fst snd]. rewrite !app_nil_r.
  destruct (construct h kind0 (default EmptyString api_key0)
              (default EmptyString model_id0)) as [[] | e] eqn:Hc; run_simpl.
  - eexists. split; [reflexivity |]. cbn [provider api_key model_id client].
    repeat (split; [reflexivity |]). split.
    + intros kind. split.
      * intros [= <-]. repeat split; assumption.
      * intros (_ & _ & [= <-] & _). reflexivity.
    + intros _. unfold configured. cbn [provider api_key model_id client].
      rewrite Hm, Hk. split; [reflexivity |]. exact (client_for_dispatches _ _ Hkind).
  - eexists. split; [reflexivity |]. cbn [provider api_key model_id client].
    repeat (split; [reflexivity |]). split.
    + intros kind. split; [discriminate |].
      intros (_ & _ & [= <-] & Habs). rewrite Hc in Habs. discriminate.
    + intros [kind Hkind']. discriminate.
Qed.

(** X4.  [AnalysisAgent.__init__] never raises and stores the provider in
    lower case with the key and the model as given.  It leaves a client
    exactly when the model and the key are set, the provider is one of the
    four supported ones and the constructor of its client returns; a client
    therefore implies a configured agent whose provider has a request branch
    in [generate_analysis_report]. *)
Theorem init_client_state
    (construct : list event -> llm_client -> string -> string -> result unit)
    (provider0 : string) (api_key0 model_id0 : option string) (h : list event) :
  exists self,
    outcome (AnalysisAgent_init construct provider0 api_key0 model_id0 h) = Ok self
    /\ provider self = py_lower provider0
    /\ api_key self = api_key0
    /\ model_id self = model_id0
    /\ (forall kind,
          client self = Some kind <->
          truthy_opt model_id0 = true
          /\ truthy_opt api_key0 = true
          /\ client_for (py_lower provider0) = Ok kind
          /\ construct h kind (default EmptyString api_key0)
               (default EmptyString model_id0) = Ok tt)
    /\ (is_Some (client self) ->
        configured self = true /\ dispatches (provider self) = true).
Proof. apply init_state. Qed.

Lemma unconfigured_run
    (E : Env) (self : AnalysisAgent) (records : list dict) (h : list event) :
  configured self = false ->
  generate_analysis_report E self records h
  = ([StWarning not_configured_warning; Print "Generating mock analysis report..."],
     Ok (PDict mock_report)).
Proof. intros Hc. unfold generate_analysis_report. rewrite Hc. reflexivity. Qed.

(** X5.  An agent that [__init__] builds without a model, without a key, for
    a provider outside the four supported ones, or with a client constructor
    that raises, is unconfigured for good: [generate_analysis_report] on it
    returns the mock report and sends no request to a backend. *)
Theorem agent_without_client_uses_mock
    (E : Env) (construct : list event -> llm_client -> string -> string -> result unit)
    (provider0 : string) (api_key0 model_id0 : option string) (h h' : list event)
    (self : AnalysisAgent) (records : list dict) :
  outcome (AnalysisAgent_init construct provider0 api_key0 model_id0 h) = Ok self ->
  truthy_opt model_id0 = false
  \/ truthy_opt api_key0 = false
  \/ dispatches (py_lower provider0) = false
  \/ (forall kind, exists e,
        construct h kind (default EmptyString api_key0)
          (default EmptyString model_id0) = Raise e) ->
  client self = None
  /\ outcome (generate_analysis_report E self records h') = Ok (PDict mock_report)
  /\ llm_requests (events (generate_analysis_report E self records h')) = [].
Proof.
  intros Hinit Hwhy.
  destruct (init_state construct provider0 api_key0 model_id0 h)
    as (self' & Hself & _ & _ & _ & Hclient & _).
  assert (self' = self) as -> by congruence.
  assert (Hnone : client self = None).
  { destruct (client self) as [kind |] eqn:Hc; [| reflexivity]. exfalso.
    destruct (proj1 (Hclient kind) eq_refl) as (Hm & Hk & Hkind & Hcons).
    destruct Hwhy as [Hw | [Hw | [Hw | Hw]]]; try congruence.
    - rewrite (client_for_dispatches _ _ Hkind) in Hw. discriminate.
    - destruct (Hw kind) as [e He]. congruence. }
  split; [exact Hnone |].
  assert (Hconf : configured self = false) by (unfold configured; rewrite Hnone; reflexivity).
  rewrite (unconfigured_run E self records h' Hconf). split; reflexivity.
Qed.

Lemma agent_without_client_uses_mock_witness :
  let E := Scenario.world Scenario.crawl_ok (Scenario.search_top 5)
             (Scenario.llm_says "{}") in
  let construct : list event -> llm_client -> string -> string -> result unit :=
    fun _ _ _ _ => Ok tt in
  exists self,
    outcome (AnalysisAgent_init construct "Mistral" (Some "key") (Some "mistral-large") [])
    = Ok self
    /\ client self = None
    /\ outcome (generate_analysis_report E self Scenario.companies []) = Ok (PDict mock_report)
    /\ llm_requests (events (generate_analysis_report E self Scenario.companies [])) = [].
Proof.
  intros E construct. eexists. split; [reflexivity |].
  apply (agent_without_client_uses_mock E construct "Mistral" (Some "key")
           (Some "mistral-large") [] []).
  - reflexivity.
  - right; right; left. reflexivity.
Defined.

Lemma llm_requests_app (a b : list event) :
  llm_requests (a ++ b) = llm_requests a ++ llm_requests b.
Proof.
  induction a as [| ev a IH]; [reflexivity |].
  destruct ev; cbn [app llm_requests]; rewrite IH; reflexivity.
Qed.

Lemma parse_sends_no_request (E : Env) (text : string) (h : list event) :
  llm_requests (events (_parse_llm_response E text h)) = [].
Proof.
  unfold _parse_llm_response, try_except_decode. run_simpl.
  destruct (json_loads E text) as [v | e]; [reflexivity |].
  destruct (is_JSONDecodeError e); [| reflexivity].
  destruct (re_search_braces text) as [span |]; run_simpl; [| reflexivity].
  destruct (json_loads E span) as [v | e']; [reflexivity |].
  destruct (is_JSONDecodeError e'); run_simpl; reflexivity.
Qed.

Lemma validate_sends_no_request
    (E : Env) (self : AnalysisAgent) (resp : option string) (h : list event) :
  llm_requests (events (validate_response E self resp h)) = [].
Proof.
  unfold validate_response.
  destruct (truthy_opt resp); run_simpl; [| reflexivity].
  destruct (outcome (_parse_llm_response E (default EmptyString resp) h)) as [data | e];
    [| apply parse_sends_no_request].
  rewrite llm_requests_app, parse_sends_no_request. cbn [app].
  destruct (py_truthy E data); run_simpl; [| reflexivity].
  destruct (all_keys_in required_keys data) as [[|] | e]; run_simpl; reflexivity.
Qed.

Lemma generate_requests
    (E : Env) (self : AnalysisAgent) (records : list dict) (h : list event) :
  llm_requests (events (generate_analysis_report E self records h))
  = if configured self && dispatches (provider self)
    then [(self, _generate_prompt E records)] else [].
Proof.
  unfold generate_analysis_report.
  destruct (configured self); cbn [negb andb]; [| reflexivity].
  run_simpl. unfold request_analysis.
  destruct (dispatches (provider self)); run_simpl.
  - destruct (llm_chat E _ self (_generate_prompt E records)) as [resp | e]; run_simpl.
    + match goal with
      | |- context [outcome (validate_response E self resp ?hh)] =>
          pose proof (validate_sends_no_request E self resp hh) as Hv;
          destruct (outcome (validate_response E self resp hh))
      end.
      * cbn [app llm_requests]. rewrite Hv. reflexivity.
      * rewrite !llm_requests_app. cbn [app llm_requests]. rewrite Hv. reflexivity.
    + reflexivity.
  - match goal with
    | |- context [outcome (validate_response E self None ?hh)] =>
        pose proof (validate_sends_no_request E self None hh) as Hv;
        destruct (outcome (validate_response E self None hh))
    end.
    + cbn [app llm_requests]. rewrite Hv. reflexivity.
    + rewrite !llm_requests_app. cbn [app llm_requests]. rewrite Hv. reflexivity.
Qed.

(** X6.  One call of [generate_analysis_report] sends at most one request to
    the backend and never retries: exactly one, for the agent itself with
    the prompt built from the records, when the agent is configured and its
    provider has a request branch, and none otherwise. *)
Theorem at_most_one_backend_request
    (E : Env) (self : AnalysisAgent) (records : list dict) (h : list event) :
  llm_requests (events (generate_analysis_report E self records h))
  = if configured self && dispatches (provider self)
    then [(self, _generate_prompt E records)] else [].
Proof. apply generate_requests. Qed.

(** X7.  What becomes of a decoded answer that is not a mapping.  It is
    returned as it is when it is a list holding all seven key names or a
    string in which all seven occur; in every other case (a number, a
    boolean, [null], an empty value, a list or string that lacks a key) the
    mock report is returned. *)
Theorem non_mapping_answer
    (E : Env) (self : AnalysisAgent) (records : list dict) (h : list event)
    (text : string) (v : pyval) :
  configured self = true ->
  dispatches (provider self) = true ->
  llm_chat E (h ++ [Print (generating_message self)]) self (_generate_prompt E records)
  = Ok (Some text) ->
  text <> EmptyString ->
  outcome (_parse_llm_response E text []) = Ok v ->
  (forall d, v <> PDict d) ->
  outcome (generate_analysis_report E self records h)
  = if py_truthy E v then
      match all_keys_in required_keys v with
      | Ok true => Ok v
      | _ => Ok (PDict mock_report)
      end
    else Ok (PDict mock_report).
Proof.
  intros Hconf Hdisp Hllm Htext Hparse Hnd.
  rewrite generate_outcome, Hconf, Hdisp, Hllm, validate_outcome.
  assert (Ht : truthy_opt (Some text) = true).
  { cbn. destruct (String.eqb_spec text EmptyString); [contradiction | reflexivity]. }
  rewrite Ht. change (default EmptyString (Some text)) with text. rewrite Hparse.
  destruct (py_truthy E v); [| reflexivity].
  destruct (all_keys_in required_keys v) as [[|] | e]; try reflexivity.
  destruct v; try reflexivity. exfalso. exact (Hnd d eq_refl).
Qed.

Lemma non_mapping_answer_witness :
  let run text :=
    outcome (generate_analysis_report
               (Scenario.world Scenario.crawl_ok (Scenario.search_top 5)
                  (Scenario.llm_says text))
               Scenario.openai_agent Scenario.companies []) in
  let keys := Scenario.dq "['strengths', 'weaknesses', 'opportunities', 'market_gaps', 'pricing_strategies', 'growth_opportunities', 'recommendations']" in
  run "42" = Ok (PDict mock_report)
  /\ run keys = Ok (strs required_keys).
Proof.
  intros run keys. split.
  - apply (non_mapping_answer
             (Scenario.world Scenario.crawl_ok (Scenario.search_top 5) (Scenario.llm_says "42"))
             Scenario.openai_agent Scenario.companies [] "42" (PInt 42));
      [reflexivity | reflexivity | reflexivity | discriminate | vm_compute; reflexivity
      | discriminate].
  - apply (non_mapping_answer
             (Scenario.world Scenario.crawl_ok (Scenario.search_top 5) (Scenario.llm_says keys))
             Scenario.openai_agent Scenario.companies [] keys (strs required_keys));
      [reflexivity | reflexivity | reflexivity | vm_compute; discriminate
      | vm_compute; reflexivity | discriminate].
Defined.

(** ** The brace pattern and the prompt *)

Lemma append_assoc (a b c : string) : (a +:+ b) +:+ c = a +:+ (b +:+ c).
Proof.
  induction a as [| x a IH]; [reflexivity |]. rewrite !append_cons, IH. reflexivity.
Qed.

Lemma strip_prefix_app (p s rest : list ascii) :
  Json.strip_prefix p s = Some rest -> s = p ++ rest.
Proof.
  revert s. induction p as [| a p IH]; intros s; cbn.
  - intros [= ->]. reflexivity.
  - destruct s as [| b s]; [discriminate |].
    destruct (Ascii.eqb_spec a b) as [-> | _]; [| discriminate].
    intros H. rewrite (IH s H). reflexivity.
Qed.

Lemma strip_prefix_of_app (p rest : list ascii) :
  Json.strip_prefix p (p ++ rest) = Some rest.
Proof.
  induction p as [| a p IH]; cbn; [reflexivity |]. rewrite Ascii.eqb_refl. exact IH.
Qed.

Lemma find_split_app (needle s before after : list ascii) :
  find_split needle s = Some (before, after) -> s = before ++ needle ++ after.
Proof.
  revert before. induction s as [| c r IH]; intros before; cbn [find_split].
  - destruct (Json.strip_prefix needle []) as [rest |] eqn:Hp; [| discriminate].
    intros [= <- <-]. exact (strip_prefix_app _ _ _ Hp).
  - destruct (Json.strip_prefix needle (c :: r)) as [rest |] eqn:Hp.
    + intros [= <- <-]. exact (strip_prefix_app _ _ _ Hp).
    + destruct (find_split needle r) as [[b a] |]; [| discriminate].
      intros [= <- <-]. cbn [app]. rewrite (IH b eq_refl). reflexivity.
Qed.

Lemma find_split_occurs (needle text : string) (before after : list ascii) :
  find_split (list_ascii_of_string needle) (list_ascii_of_string text)
  = Some (before, after) ->
  occurs_in needle text.
Proof.
  intros H. apply find_split_app in H.
  exists (string_of_list_ascii before), (string_of_list_ascii after).
  rewrite <- (string_of_list_ascii_of_string text), H, !string_of_list_ascii_app.
  rewrite string_of_list_ascii_of_string. reflexivity.
Qed.

Lemma occurs_in_append_r (needle a b : string) :
  occurs_in needle b -> occurs_in needle (a +:+ b).
Proof.
  intros (before & after & ->). exists (a +:+ before), after.
  rewrite append_assoc. reflexivity.
Qed.

Lemma occurs_in_append_l (needle a b : string) :
  occurs_in needle a -> occurs_in needle (a +:+ b).
Proof.
  intros (before & after & ->). exists before, (after +:+ b).
  rewrite !append_assoc. reflexivity.
Qed.

Lemma occurs_in_self (s : string) : occurs_in s s.
Proof. exists EmptyString, EmptyString. rewrite append_empty_r. reflexivity. Qed.

Lemma from_first_open_found (s r : list ascii) :
  from_first_open s = Some r ->
  exists pre rest, s = pre ++ "{"%char :: rest /\ r = "{"%char :: rest
                   /\ forallb (differs "{") pre = true.
Proof.
  revert r. induction s as [| c s IH]; intros r; cbn [from_first_open]; [discriminate |].
  destruct (Ascii.eqb_spec c "{") as [-> | Hc].
  - intros [= <-]. exists [], s. repeat split.
  - intros Hr. destruct (IH r Hr) as (pre & rest & -> & -> & Hpre).
    exists (c :: pre), rest. repeat split. cbn. rewrite Hpre. unfold differs.
    destruct (Ascii.eqb_spec c "{"); [contradiction | reflexivity].
Qed.

Lemma from_first_open_at (pre rest : list ascii) :
  forallb (differs "{") pre = true ->
  from_first_open (pre ++ "{"%char :: rest) = Some ("{"%char :: rest).
Proof.
  induction pre as [| c pre IH]; cbn; [reflexivity |]. intros Hp.
  apply andb_prop in Hp as [Hc Hp]. unfold differs in Hc.
  destruct (Ascii.eqb c "{"); [discriminate | exact (IH Hp)].
Qed.

Lemma upto_last_close_found (r p : list ascii) :
  upto_last_close r = Some p ->
  exists body post, r = body ++ "}"%char :: post /\ p = body ++ ["}"%char]
                    /\ forallb (differs "}") post = true.
Proof.
  revert p. induction r as [| c r IH]; intros p; cbn [upto_last_close]; [discriminate |].
  destruct (upto_last_close r) as [q |] eqn:Hq.
  - intros [= <-]. destruct (IH q eq_refl) as (body & post & -> & -> & Hpost).
    exists (c :: body), post. repeat split. exact Hpost.
  - destruct (Ascii.eqb_spec c "}") as [-> | Hc]; [| discriminate].
    intros [= <-]. exists [], r. repeat split.
    clear IH. induction r as [| x r IHr]; [reflexivity |].
    cbn [upto_last_close] in Hq. destruct (upto_last_close r) as [q |]; [discriminate |].
    unfold differs at 1. cbn [forallb]. destruct (Ascii.eqb x "}"); [discriminate |].
    exact (IHr eq_refl).
Qed.

Lemma upto_last_close_lacking (s : list ascii) :
  forallb (differs "}") s = true -> upto_last_close s = None.
Proof.
  induction s as [| c s IH]; cbn; [reflexivity |]. intros Hs.
  apply andb_prop in Hs as [Hc Hs]. rewrite (IH Hs). unfold differs in Hc.
  destruct (Ascii.eqb c "}"); [discriminate | reflexivity].
Qed.

Lemma upto_last_close_at (body post : list ascii) :
  forallb (differs "}") post = true ->
  upto_last_close (body ++ "}"%char :: post) = Some (body ++ ["}"%char]).
Proof.
  intros Hp. induction body as [| c body IH]; cbn.
  - rewrite (upto_last_close_lacking post Hp). reflexivity.
  - rewrite IH. reflexivity.
Qed.

Lemma upto_last_close_some (body post : list ascii) :
  upto_last_close (body ++ "}"%char :: post) <> None.
Proof.
  induction body as [| c body IH]; cbn.
  - destruct (upto_last_close post); discriminate.
  - destruct (upto_last_close (body ++ "}"%char :: post)); [discriminate | contradiction].
Qed.

(** X8.  The span [_parse_llm_response] retries on.  The pattern finds a
    span exactly when the text has an opening brace with a closing brace
    somewhere after it; the span then runs from the first opening brace of
    the text to its last closing brace, whatever lies between (further
    objects included). *)
Theorem brace_span_is_first_open_to_last_close (text : string) :
  (forall span,
      re_search_braces text = Some span <->
      exists pre body post,
        text = pre +:+ ("{" +:+ body +:+ "}") +:+ post
        /\ span = "{" +:+ body +:+ "}"
        /\ lacks "{" pre = true
        /\ lacks "}" post = true)
  /\ (re_search_braces text = None <->
      ~ exists pre body post, text = pre +:+ ("{" +:+ body +:+ "}") +:+ post).
Proof.
  assert (Hshape : forall pre body post : string,
             list_ascii_of_string (pre +:+ ("{" +:+ body +:+ "}") +:+ post)
             = list_ascii_of_string pre
               ++ "{"%char :: list_ascii_of_string body
               ++ "}"%char :: list_ascii_of_string post).
  { intros pre body post. rewrite list_ascii_of_append.
    change (("{" +:+ body +:+ "}") +:+ post) with (String "{" ((body +:+ "}") +:+ post)).
    cbn [list_ascii_of_string]. rewrite !list_ascii_of_append.
    cbn [list_ascii_of_string]. rewrite <- app_assoc. reflexivity. }
  assert (Hfound : forall span,
             re_search_braces text = Some span ->
             exists pre body post,
               text = pre +:+ ("{" +:+ body +:+ "}") +:+ post
               /\ span = "{" +:+ body +:+ "}"
               /\ lacks "{" pre = true /\ lacks "}" post = true).
  { intros span. unfold re_search_braces.
    destruct (from_first_open (list_ascii_of_string text)) as [[| c r] |] eqn:Hopen;
      try discriminate.
    destruct (from_first_open_found _ _ Hopen) as (pre & rest & Htext & [= -> ->] & Hpre).
    destruct (upto_last_close rest) as [p |] eqn:Hclose; [| discriminate].
    destruct (upto_last_close_found _ _ Hclose) as (body & post & -> & -> & Hpost).
    intros [= <-].
    exists (string_of_list_ascii pre), (string_of_list_ascii body),
      (string_of_list_ascii post).
    assert (Hspan : string_of_list_ascii ("{"%char :: body ++ ["}"%char])
                    = "{" +:+ string_of_list_ascii body +:+ "}").
    { cbn [string_of_list_ascii]. rewrite string_of_list_ascii_app. reflexivity. }
    split; [| split; [exact Hspan | split]].
    - rewrite <- (string_of_list_ascii_of_string text), Htext.
      rewrite string_of_list_ascii_app.
      change ("{"%char :: body ++ "}"%char :: post)
        with (("{"%char :: body) ++ "}"%char :: post).
      replace (("{"%char :: body) ++ "}"%char :: post)
        with (("{"%char :: body ++ ["}"%char]) ++ post)
        by (cbn [app]; rewrite <- app_assoc; reflexivity).
      rewrite string_of_list_ascii_app, Hspan. reflexivity.
    - unfold lacks. rewrite list_ascii_of_string_of_list_ascii. exact Hpre.
    - unfold lacks. rewrite list_ascii_of_string_of_list_ascii. exact Hpost. }
  split.
  - intros span. split; [apply Hfound |].
    intros (pre & body & post & -> & -> & Hpre & Hpost).
    unfold re_search_braces. rewrite Hshape.
    rewrite (from_first_open_at _ _ Hpre), (upto_last_close_at _ _ Hpost).
    cbn [string_of_list_ascii]. rewrite string_of_list_ascii_app.
    rewrite string_of_list_ascii_of_string. reflexivity.
  - split.
    + intros Hnone (pre & body & post & Htext).
      revert Hnone. unfold re_search_braces. rewrite Htext, Hshape.
      generalize (list_ascii_of_string body) (list_ascii_of_string post).
      induction (list_ascii_of_string pre) as [| c l IH]; intros b p; cbn [app from_first_open].
      * cbn. pose proof (upto_last_close_some b p) as Hs.
        destruct (upto_last_close (b ++ "}"%char :: p)); [discriminate | contradiction].
      * destruct (Ascii.eqb c "{"); [| apply IH].
        replace (l ++ "{"%char :: b ++ "}"%char :: p)
          with ((l ++ "{"%char :: b) ++ "}"%char :: p)
          by (rewrite <- app_assoc; reflexivity).
        pose proof (upto_last_close_some (l ++ "{"%char :: b) p) as Hs.
        destruct (upto_last_close ((l ++ "{"%char :: b) ++ "}"%char :: p));
          [discriminate | contradiction].
    + intros Hno. destruct (re_search_braces text) as [span |] eqn:Hs; [| reflexivity].
      exfalso. apply Hno. destruct (Hfound span eq_refl) as (pre & body & post & Ht & _).
      eauto.
Qed.

(** ** The prompt *)

Lemma prompt_layout (E : Env) (records : list dict) :
  _generate_prompt E records
  = prompt_intro +:+ competitor_blocks E 1 records +:+ nl +:+ prompt_instruction.
Proof. reflexivity. Qed.

Lemma competitor_blocks_app (E : Env) (i : nat) (l1 l2 : list dict) :
  competitor_blocks E i (l1 ++ l2)
  = competitor_blocks E i l1 +:+ competitor_blocks E (i + length l1) l2.
Proof.
  revert i. induction l1 as [| c l1 IH]; intros i; cbn [app competitor_blocks length].
  - rewrite Nat.add_0_r. reflexivity.
  - rewrite IH, append_assoc. replace (S i + length l1)%nat with (i + S (length l1))%nat by lia.
    reflexivity.
Qed.

(** X9.  The prompt asks for the keys the answer is checked against: each of
    the seven required keys is named, in quotes, in the prompt built for any
    list of records. *)
Theorem prompt_names_required_keys (E : Env) (records : list dict) (k : string) :
  k ∈ required_keys ->
  occurs_in ("'" +:+ k +:+ "'") (_generate_prompt E records).
Proof.
  intros Hk. rewrite prompt_layout.
  do 3 apply occurs_in_append_r.
  unfold required_keys in Hk.
  repeat (apply elem_of_cons in Hk as [-> | Hk];
          [match goal with
           | |- occurs_in ?n ?t =>
               let r := eval vm_compute in
                 (find_split (list_ascii_of_string n) (list_ascii_of_string t)) in
               match r with
               | Some (?b, ?a) => apply (find_split_occurs n t b a); vm_compute; reflexivity
               end
           end |]).
  inversion Hk.
Qed.

Lemma prompt_names_required_keys_witness :
  occurs_in ("'" +:+ "market_gaps" +:+ "'")
    (_generate_prompt
       (Scenario.world Scenario.crawl_ok (Scenario.search_top 5) Scenario.llm_down)
       Scenario.companies).
Proof.
  apply prompt_names_required_keys. unfold required_keys.
  apply list_elem_of_In. cbn. do 3 right. left. reflexivity.
Defined.

(** X10.  The prompt lists every record, none dropped, in order and numbered
    from 1: the block of the record at index [i] is the block number
    [i + 1], and it occurs in the prompt. *)
Theorem prompt_lists_every_record (E : Env) (records : list dict) (i : nat) (c : dict) :
  records !! i = Some c ->
  occurs_in (competitor_block E (i + 1) c) (_generate_prompt E records)
  /\ occurs_in ("Competitor " +:+ pretty (i + 1)%nat +:+ ":") (competitor_block E (i + 1) c)
  /\ occurs_in ("  Name: " +:+ py_str E (dict_get c "name" (PStr "N/A")))
       (competitor_block E (i + 1) c).
Proof.
  intros Hi. split; [| split].
  - rewrite prompt_layout. apply occurs_in_append_r, occurs_in_append_l.
    rewrite <- (take_drop_middle records i c Hi), competitor_blocks_app.
    apply occurs_in_append_r. cbn [competitor_blocks]. apply occurs_in_append_l.
    rewrite length_take_le by (apply Nat.lt_le_incl, (lookup_lt_Some _ _ _ Hi)).
    rewrite Nat.add_comm. apply occurs_in_self.
  - unfold competitor_block. apply occurs_in_append_r.
    rewrite <- !append_assoc.
    repeat first [apply occurs_in_self | apply occurs_in_append_l].
  - unfold competitor_block. do 5 apply occurs_in_append_r.
    rewrite <- !append_assoc.
    repeat first [apply occurs_in_self | apply occurs_in_append_l].
Qed.

Lemma prompt_lists_every_record_witness :
  let E := Scenario.world Scenario.crawl_ok (Scenario.search_top 5) Scenario.llm_down in
  exists c,
    Scenario.companies !! 2%nat = Some c
    /\ occurs_in (competitor_block E 3 c) (_generate_prompt E Scenario.companies)
    /\ occurs_in ("Competitor " +:+ "3" +:+ ":") (competitor_block E 3 c)
    /\ occurs_in ("  Name: " +:+ "CompetitorC") (competitor_block E 3 c).
Proof.
  intros E. eexists. split; [reflexivity |].
  exact (prompt_lists_every_record E Scenario.companies 2 _ eq_refl).
Defined.

(** ** The comparison table and the report *)

Lemma comparison_rows_aligned (records : list dict) (data : list Row) :
  comparison_rows records = Ok data ->
  length data = length records
  /\ forall i c, records !! i = Some c ->
       exists row, data !! i = Some row /\ comparison_row c = Ok row.
Proof.
  revert data. induction records as [| c0 rest IH]; intros data; cbn [comparison_rows].
  - intros [= <-]. split; [reflexivity |]. intros i c Hi. inversion Hi.
  - destruct (comparison_row c0) as [row0 | e] eqn:Hrow; cbn [rbind]; [| discriminate].
    destruct (comparison_rows rest) as [data' | e] eqn:Hrest; cbn [rbind]; [| discriminate].
    intros [= <-]. destruct (IH data' eq_refl) as [Hlen Hrows].
    split; [cbn; congruence |].
    intros [| i] c Hi; cbn in Hi.
    + injection Hi as <-. exists row0. split; [reflexivity | exact Hrow].
    + exact (Hrows i c Hi).
Qed.

Lemma comparison_rows_raise (records : list dict) (c : dict) (e0 : exn) :
  c ∈ records -> comparison_row c = Raise e0 ->
  exists e, comparison_rows records = Raise e.
Proof.
  intros Hin Hrow. induction records as [| c0 rest IH]; [inversion Hin |].
  cbn [comparison_rows].
  destruct (comparison_row c0) as [row0 | e] eqn:Hrow0; cbn [rbind]; [| eauto].
  apply elem_of_cons in Hin as [-> | Hin]; [congruence |].
  destruct (IH Hin) as [e ->]. cbn [rbind]. eauto.
Qed.

(** X11.  A table that [create_comparison_table] returns has the seven fixed
    columns and one row per record, in the order of the records, each row
    being the one built from its record. *)
Theorem comparison_table_aligned (records : list dict) (table : DataFrame) :
  create_comparison_table records = Ok table ->
  columns table = table_columns
  /\ length (rows table) = length records
  /\ forall i c, records !! i = Some c ->
       exists row, rows table !! i = Some row /\ comparison_row c = Ok row.
Proof.
  unfold create_comparison_table.
  destruct (comparison_rows records) as [data |] eqn:Hdata; cbn [rbind]; [| discriminate].
  intros [= <-]. cbn [columns rows]. split; [reflexivity |].
  exact (comparison_rows_aligned records data Hdata).
Qed.

Lemma comparison_table_aligned_witness :
  exists table,
    create_comparison_table Scenario.companies = Ok table
    /\ columns table = table_columns
    /\ length (rows table) = 5%nat.
Proof.
  destruct (create_comparison_table Scenario.companies) as [table | e] eqn:Htable.
  - exists table. split; [reflexivity |].
    destruct (comparison_table_aligned Scenario.companies table Htable) as (Hc & Hl & _).
    split; [exact Hc | exact Hl].
  - vm_compute in Htable. discriminate.
Defined.

Lemma comparison_row_needs_strings (c : dict) :
  is_str (dict_get c "description" (PStr "N/A")) = false
  \/ is_str (dict_get c "summary" (PStr "N/A")) = false ->
  exists e, comparison_row c = Raise e.
Proof.
  intros Hbad. unfold comparison_row.
  destruct (py_get (dict_get c "metadata" (PDict ∅)) "technologies" (strs ["N/A"]))
    as [techs | e]; cbn [rbind]; [| eauto].
  destruct (py_join ", " techs) as [technologies | e]; cbn [rbind]; [| eauto].
  destruct (py_get (dict_get c "metadata" (PDict ∅)) "team_size" (PStr "N/A"))
    as [team_size | e]; cbn [rbind]; [| eauto].
  destruct (py_get (dict_get c "metadata" (PDict ∅)) "founded" (PStr "N/A"))
    as [founded | e]; cbn [rbind]; [| eauto].
  destruct (dict_get c "description" (PStr "N/A")) as [| | | | d | |] eqn:Hd;
    cbn [truncate_with_ellipsis rbind]; eauto.
  destruct (dict_get c "summary" (PStr "N/A")) as [| | | | s | |] eqn:Hs;
    cbn [truncate_with_ellipsis rbind]; eauto.
  destruct Hbad; discriminate.
Qed.

(** X12.  The table is built for all records or not at all: when the
    description or the summary of any one record is present and is not a
    string (a summarizer that returned [None], say),
    [create_comparison_table] raises and no row is returned for the other
    records either. *)
Theorem comparison_table_needs_strings (records : list dict) (c : dict) :
  c ∈ records ->
  is_str (dict_get c "description" (PStr "N/A")) = false
  \/ is_str (dict_get c "summary" (PStr "N/A")) = false ->
  exists e, create_comparison_table records = Raise e.
Proof.
  intros Hin Hbad. destruct (comparison_row_needs_strings c Hbad) as [e0 Hrow].
  destruct (comparison_rows_raise records c e0 Hin Hrow) as [e He].
  exists e. unfold create_comparison_table. rewrite He. reflexivity.
Qed.

Lemma comparison_table_needs_strings_witness :
  let broken : dict := <["summary" := PNone]> (Scenario.company "X" "https://x.com" "d") in
  exists e, create_comparison_table (Scenario.companies ++ [broken]) = Raise e.
Proof.
  intros broken.
  apply (comparison_table_needs_strings (Scenario.companies ++ [broken]) broken).
  - apply list_elem_of_In, in_or_app. right. left. reflexivity.
  - right. reflexivity.
Defined.

(** X13.  A candidate whose crawl failed still gets its row.  With a string
    (or absent) description, the row built from the record the loop leaves
    for it shows the summary [Crawling failed...] and [N/A] for technologies,
    team size and founding year; its company cell is the name, or [Unknown]
    without one. *)
Theorem failed_crawl_row (c : dict) :
  is_str (dict_get c "description" (PStr "N/A")) = true ->
  exists row,
    comparison_row (failed_record c) = Ok row
    /\ Summary row = "Crawling failed..."
    /\ Technologies row = "N/A"
    /\ Team_Size row = PStr "N/A"
    /\ Founded row = PStr "N/A"
    /\ Company row = dict_get c "name" (PStr "Unknown")
    /\ Website row = dict_get c "url" (PStr "N/A").
Proof.
  intros Hd. unfold comparison_row, failed_record, with_summary, dict_get.
  rewrite lookup_insert_eq.
  rewrite !(lookup_insert_ne _ "metadata") by discriminate.
  rewrite lookup_insert_eq.
  rewrite !(lookup_insert_ne _ "summary") by discriminate.
  cbn [default from_option id py_get dict_get rbind]. unfold dict_get.
  rewrite !lookup_empty. cbn [default from_option id py_join strs fmap list_fmap all_str
                              String.concat rbind].
  unfold dict_get in Hd.
  destruct (default (PStr "N/A") (c !! "description")) as [| | | | d | |];
    try discriminate.
  cbn [truncate_with_ellipsis rbind]. eexists. split; [reflexivity |].
  cbn [Summary Technologies Team_Size Founded Company Website].
  repeat split.
Qed.

Lemma failed_crawl_row_witness :
  exists row,
    comparison_row (failed_record (Scenario.company "CompetitorB" "https://competitorb.com"
                                     "An innovative startup disrupting the market")) = Ok row
    /\ Summary row = "Crawling failed..."
    /\ Technologies row = "N/A"
    /\ Company row = PStr "CompetitorB".
Proof.
  destruct (failed_crawl_row (Scenario.company "CompetitorB" "https://competitorb.com"
                                "An innovative startup disrupting the market"))
    as (row & Hrow & Hs & Ht & _ & _ & Hc & _).
  - reflexivity.
  - exists row. split; [exact Hrow |]. split; [exact Hs |]. split; [exact Ht |].
    rewrite Hc. reflexivity.
Defined.

(** X14.  The report for a non-empty list of records whose table can be
    built.  Its competitors are the records as given and its table is the
    table of the records.  With no client on the agent the analysis is the
    mock report, an error is shown and no request is sent; with a client the
    analysis is whatever [generate_analysis_report] returns, and the report
    emits the events of that call and nothing more. *)
Theorem intelligence_report_composition
    (E : Env) (self : CompetitorIntelligenceTeam) (records : list dict)
    (h : list event) (table : DataFrame) :
  records <> [] ->
  create_comparison_table records = Ok table ->
  let agent := analysis_agent self in
  let run := generate_intelligence_report E self records h in
  (client agent = None ->
   run = ([StError "Analysis agent not configured. Please check API keys in sidebar.";
           Print "Generating mock analysis report..."],
          Ok {| competitors := records; analysis := PDict mock_report;
                comparison_table := table |}))
  /\ (is_Some (client agent) ->
      exists report,
        outcome (generate_analysis_report E agent records h) = Ok report
        /\ run = (events (generate_analysis_report E agent records h),
                  Ok {| competitors := records; analysis := report;
                        comparison_table := table |})).
Proof.
  intros Hne Htable agent run. unfold run, generate_intelligence_report.
  destruct records as [| c rest]; [contradiction |]. fold agent.
  split.
  - intros Hnone. rewrite Hnone.
    rewrite bind_run. cbn -[create_comparison_table mock_report].
    rewrite Htable. reflexivity.
  - intros [kind Hkind]. rewrite Hkind.
    rewrite bool_decide_eq_true_2 by eauto. cbn [negb].
    destruct (analysis_value_shape E agent (c :: rest) h) as (report & Hreport & _).
    exists report. split; [exact Hreport |].
    rewrite bind_run.
    destruct (generate_analysis_report E agent (c :: rest) h) as [es r] eqn:Hrun.
    cbn [outcome snd] in Hreport. subst r.
    rewrite bind_run. unfold lift at 1. rewrite Htable.
    cbn [ret events outcome fst snd]. rewrite !app_nil_r. reflexivity.
Qed.

Lemma intelligence_report_composition_witness :
  let E := Scenario.world Scenario.crawl_ok (Scenario.search_top 5)
             (Scenario.llm_says Scenario.complete_json) in
  let idle := {| analysis_agent := Scenario.default_agent |} in
  let ready := {| analysis_agent := Scenario.openai_agent |} in
  (exists table,
      outcome (generate_intelligence_report E idle Scenario.companies [])
      = Ok {| competitors := Scenario.companies; analysis := PDict mock_report;
              comparison_table := table |})
  /\ (exists report table,
        outcome (generate_intelligence_report E ready Scenario.companies [])
        = Ok {| competitors := Scenario.companies; analysis := report;
                comparison_table := table |}).
Proof.
  intros E idle ready.
  destruct (create_comparison_table Scenario.companies) as [table | e] eqn:Htable;
    [| vm_compute in Htable; discriminate].
  assert (Hne : Scenario.companies <> []) by discriminate.
  destruct (intelligence_report_composition E idle Scenario.companies [] table Hne Htable)
    as [Hidle _].
  destruct (intelligence_report_composition E ready Scenario.companies [] table Hne Htable)
    as [_ Hready].
  split.
  - exists table. rewrite (Hidle eq_refl). reflexivity.
  - destruct Hready as (report & _ & Hrun); [eexists; reflexivity |].
    exists report, table. rewrite Hrun. reflexivity.
Defined.

(** X15.  The table is built after the analysis.  When
    [create_comparison_table] raises for a non-empty list of records, the
    exception leaves [generate_intelligence_report], and the request to the
    backend has been sent all the same when the agent is configured for a
    supported provider. *)
Theorem table_failure_follows_analysis
    (E : Env) (self : CompetitorIntelligenceTeam) (records : list dict)
    (h : list event) (e : exn) :
  records <> [] ->
  create_comparison_table records = Raise e ->
  let agent := analysis_agent self in
  let run := generate_intelligence_report E self records h in
  outcome run = Raise e
  /\ llm_requests (events run)
     = if configured agent && dispatches (provider agent)
       then [(agent, _generate_prompt E records)] else [].
Proof.
  intros Hne Htable agent run. unfold run, generate_intelligence_report.
  destruct records as [| c rest]; [contradiction |]. fold agent.
  destruct (client agent) as [kind |] eqn:Hkind.
  - rewrite bool_decide_eq_true_2 by eauto. cbn [negb].
    destruct (analysis_value_shape E agent (c :: rest) h) as (report & Hreport & _).
    pose proof (generate_requests E agent (c :: rest) h) as Hreq.
    rewrite bind_run.
    destruct (generate_analysis_report E agent (c :: rest) h) as [es r] eqn:Hrun.
    cbn [outcome snd events fst] in Hreport, Hreq. subst r.
    rewrite bind_run. unfold lift at 1. rewrite Htable.
    cbn [events outcome fst snd]. rewrite app_nil_r. split; [reflexivity | exact Hreq].
  - rewrite bool_decide_eq_false_2 by (intros [k Hk]; discriminate). cbn [negb].
    rewrite bind_run. cbn -[create_comparison_table mock_report].
    rewrite Htable. cbn [events outcome fst snd].
    split; [reflexivity |].
    unfold configured. rewrite Hkind. reflexivity.
Qed.

Lemma table_failure_follows_analysis_witness :
  let E := Scenario.world Scenario.crawl_ok (Scenario.search_top 5)
             (Scenario.llm_says Scenario.complete_json) in
  let ready := {| analysis_agent := Scenario.openai_agent |} in
  let broken : dict := <["summary" := PNone]> (Scenario.company "X" "https://x.com" "d") in
  exists e,
    outcome (generate_intelligence_report E ready [broken] []) = Raise e
    /\ llm_requests (events (generate_intelligence_report E ready [broken] []))
       = [(Scenario.openai_agent, _generate_prompt E [broken])].
Proof.
  intros E ready broken.
  destruct (create_comparison_table [broken]) as [table | e] eqn:Htable;
    [vm_compute in Htable; discriminate |].
  exists e.
  apply (table_failure_follows_analysis E ready [broken] [] e); [discriminate | exact Htable].
Defined.

(** ** Discovery: what is searched, what is crawled, what is kept *)

Section DiscoveryMore.

Variable E : Env.

Lemma enrich_one_loop_events (n i : nat) (c : dict) (h : list event) :
  forallb loop_event (events (enrich_one E n i c h)) = true
  /\ crawled (events (enrich_one E n i c h))
     = (let url := dict_get c "url" PNone in if py_truthy E url then [url] else []).
Proof.
  unfold enrich_one. run_simpl.
  set (url := dict_get c "url" PNone). cbn zeta.
  destruct (py_truthy E url); run_simpl; [| split; reflexivity].
  destruct (crawl_website E _ url) as [crawl_data | e]; run_simpl; [| split; reflexivity].
  destruct (py_get crawl_data "content" (PStr EmptyString)) as [content | e];
    run_simpl; [| split; reflexivity].
  destruct (summarize_content E _ content) as [summary | e]; run_simpl;
    [| split; reflexivity].
  destruct (py_get crawl_data "metadata" (PDict ∅)) as [metadata | e];
    run_simpl; split; reflexivity.
Qed.

Lemma crawled_app (a b : list event) : crawled (a ++ b) = crawled a ++ crawled b.
Proof.
  induction a as [| ev a IH]; [reflexivity |].
  destruct ev; cbn [app crawled]; rewrite IH; reflexivity.
Qed.

Lemma searched_app (a b : list event) : searched (a ++ b) = searched a ++ searched b.
Proof.
  induction a as [| ev a IH]; [reflexivity |].
  destruct ev; cbn [app searched]; rewrite IH; reflexivity.
Qed.

Lemma enrich_loop_events (candidates : list dict) (n i : nat) (h : list event) :
  forallb loop_event (events (enrich_loop E n i candidates h)) = true
  /\ crawled (events (enrich_loop E n i candidates h)) = candidate_urls E candidates.
Proof.
  revert i h. induction candidates as [| c rest IH]; intros i h.
  - split; reflexivity.
  - rewrite enrich_loop_events_cons.
    destruct (enrich_one_loop_events n i c h) as [Hone Hcrawl].
    destruct (IH (S i) (h ++ events (enrich_one E n i c h))) as [Hrest Hcrawls].
    split.
    + rewrite forallb_app, Hone, Hrest. reflexivity.
    + rewrite crawled_app, Hcrawl, Hcrawls. unfold candidate_urls. cbn [omap list_omap].
      cbn zeta. destruct (py_truthy E (dict_get c "url" PNone)); reflexivity.
Qed.

Lemma loop_events_quiet (evs : list event) :
  forallb loop_event evs = true ->
  searched evs = [] /\ llm_requests evs = [] /\ forall msg, StError msg ∉ evs.
Proof.
  induction evs as [| ev evs IH]; intros Hall.
  - repeat split. intros msg Hin. inversion Hin.
  - cbn [forallb] in Hall. apply andb_prop in Hall as [Hev Hall].
    destruct (IH Hall) as (Hs & Hl & He).
    destruct ev; try discriminate Hev; cbn [searched llm_requests];
      (split; [exact Hs | split; [exact Hl |]]);
      intros m Hin; apply elem_of_cons in Hin as [Habs | Hin];
      try discriminate Habs; exact (He m Hin).
Qed.

(** The events of discovery from the point where the description is known:
    the search call first, then only events of the loop and the two progress
    updates around it. *)
Lemma discover_from_description_events (description : pyval) (h : list event) :
  py_truthy E description = true ->
  exists rest,
    events (discover_from_description E description h) = SearchCall description :: rest
    /\ forallb loop_event rest = true
    /\ (forall candidates,
          find_similar_companies E h description = Ok candidates ->
          crawled rest = candidate_urls E candidates).
Proof.
  intros Hd.
  destruct (find_similar_companies E h description) as [candidates | e] eqn:Hsearch.
  - rewrite (discover_run E description h candidates Hd Hsearch).
    destruct candidates as [| c cs].
    + eexists. split; [reflexivity |]. split; [reflexivity |].
      intros candidates [= <-]. reflexivity.
    + unfold events at 1. cbn [fst app].
      destruct (enrich_loop_events (c :: cs) (length (c :: cs)) 0
                  (h ++ [SearchCall description;
                         StProgress 0 "Crawling competitor websites..."]))
        as [Hloop Hcrawl].
      eexists. split; [reflexivity |]. split.
      * cbn [forallb loop_event andb]. rewrite forallb_app, Hloop. reflexivity.
      * intros candidates [= <-]. cbn [crawled]. rewrite crawled_app, Hcrawl.
        cbn [crawled]. rewrite app_nil_r. reflexivity.
  - unfold discover_from_description. rewrite Hd. cbn [negb]. run_simpl.
    rewrite Hsearch. eexists. split; [reflexivity |]. split; [reflexivity |].
    intros candidates Habs. discriminate.
Qed.

(** X16.  A description that is not empty is always searched:
    [discover_competitors] on a description input first calls the search
    collaborator with the text as it is, never reports a missing description
    or any other error, and searches once only. *)
Theorem description_input_is_searched (input_text : string) (h : list event) :
  input_text <> EmptyString ->
  exists rest,
    events (discover_competitors E input_text false h)
    = SearchCall (PStr input_text) :: rest
    /\ searched rest = []
    /\ forall msg, StError msg ∉ rest.
Proof.
  intros Hne.
  assert (Hd : py_truthy E (PStr input_text) = true).
  { cbn. destruct (String.eqb_spec input_text EmptyString); [contradiction | reflexivity]. }
  rewrite discover_description_entry.
  destruct (discover_from_description_events (PStr input_text) h Hd)
    as (rest & Hrest & Hloop & _).
  exists rest. split; [exact Hrest |].
  destruct (loop_events_quiet rest Hloop) as (Hs & _ & He). split; assumption.
Qed.

(** X17.  The first stage of [discover_competitors] on a URL input with an
    http scheme.  The URL is crawled first.  An exception of that crawl, or
    an answer that is not a mapping, leaves the operation.  A mapping with a
    description is searched by its description; without one, by its title,
    after a warning; with neither, the operation reports the missing
    description and returns the empty list without searching. *)
Theorem url_input_first_stage (input_text : string) (h : list event) :
  has_http_scheme input_text = true ->
  let run := discover_competitors E input_text true h in
  let answer := crawl_website E h (PStr input_text) in
  (forall e, answer = Raise e -> run = ([CrawlCall (PStr input_text)], Raise e))
  /\ (forall v, answer = Ok v -> (forall d, v <> PDict d) ->
                exists e, run = ([CrawlCall (PStr input_text)], Raise e))
  /\ (forall d, answer = Ok (PDict d) ->
        let description := dict_get d "description" (PStr EmptyString) in
        let title := dict_get d "title" (PStr EmptyString) in
        (py_truthy E description = true -> searched (events run) = [description])
        /\ (py_truthy E description = false -> py_truthy E title = true ->
            searched (events run) = [title])
        /\ (py_truthy E description = false -> py_truthy E title = false ->
            run = ([CrawlCall (PStr input_text);
                    StWarning "Could not extract description from website for competitor search.";
                    StError "Cannot search for competitors without a description or URL."],
                   Ok []))).
Proof.
  intros Hscheme run answer.
  assert (Hsearched : forall pre description,
             reaches_search E input_text true h pre description ->
             py_truthy E description = true ->
             searched pre = [] ->
             searched (events run) = [description]).
  { intros pre description Hreach Hd Hpre.
    destruct (discover_competitors_tail E input_text true h pre description Hreach)
      as [Htail _].
    unfold run. rewrite Htail. unfold events at 1. cbn [fst].
    destruct (discover_from_description_events description (h ++ pre) Hd)
      as (rest & -> & Hloop & _).
    rewrite searched_app, Hpre. cbn [app searched].
    destruct (loop_events_quiet rest Hloop) as (-> & _). reflexivity. }
  split; [| split].
  - intros e He. unfold run, discover_competitors. rewrite Hscheme. cbn [negb].
    rewrite bind_run. cbn [call]. fold answer. rewrite He. reflexivity.
  - intros v Hv Hnd. unfold run, discover_competitors. rewrite Hscheme. cbn [negb].
    rewrite bind_run. cbn [call]. fold answer. rewrite Hv.
    rewrite bind_run. unfold lift at 1.
    destruct v; try (eexists; reflexivity). exfalso. exact (Hnd d eq_refl).
  - intros d Hd description title. split; [| split].
    + intros Htruthy.
      apply (Hsearched [CrawlCall (PStr input_text)] description); [| exact Htruthy | reflexivity].
      unfold reaches_search. split; [exact Hscheme |]. exists d. split; [exact Hd |].
      cbn zeta. fold description. rewrite Htruthy. split; reflexivity.
    + intros Hfalsy Htitle.
      apply (Hsearched [CrawlCall (PStr input_text);
                        StWarning "Could not extract description from website for competitor search."]
               title); [| exact Htitle | reflexivity].
      unfold reaches_search. split; [exact Hscheme |]. exists d. split; [exact Hd |].
      cbn zeta. fold description. rewrite Hfalsy. split; reflexivity.
    + intros Hfalsy Htitle.
      assert (Hreach : reaches_search E input_text true h
                         [CrawlCall (PStr input_text);
                          StWarning "Could not extract description from website for competitor search."]
                         title).
      { unfold reaches_search. split; [exact Hscheme |]. exists d. split; [exact Hd |].
        cbn zeta. fold description. rewrite Hfalsy. split; reflexivity. }
      destruct (discover_competitors_tail E input_text true h _ title Hreach) as [Htail _].
      unfold run. rewrite Htail. rewrite (discover_insufficient E title _ Htitle).
      reflexivity.
Qed.

End DiscoveryMore.

Lemma url_input_first_stage_witness :
  let E' := Scenario.world Scenario.crawl_ok (Scenario.search_top 2) Scenario.llm_down in
  searched (events (discover_competitors E' "https://example.com" true []))
  = [PStr "A company specializing in services and products."].
Proof.
  intros E'.
  destruct (url_input_first_stage E' "https://example.com" [] eq_refl) as (_ & _ & Hd).
  destruct (Hd _ eq_refl) as (Hdesc & _ & _).
  exact (Hdesc eq_refl).
Defined.


Lemma description_input_is_searched_witness :
  let E := Scenario.world Scenario.crawl_down (Scenario.search_top 2) Scenario.llm_down in
  exists rest,
    events (discover_competitors E "We build developer tools" false [])
    = SearchCall (PStr "We build developer tools") :: rest
    /\ searched rest = []
    /\ forall msg, StError msg ∉ rest.
Proof.
  intros E. apply (description_input_is_searched E "We build developer tools" []).
  discriminate.
Defined.

Lemma enrich_one_shape (E : Env) (n i : nat) (c : dict) (h : list event) :
  exists summary metadata,
    outcome (enrich_one E n i c h) = Ok (with_summary c summary metadata).
Proof.
  rewrite enrich_one_outcome. cbn zeta.
  destruct (py_truthy E (dict_get c "url" PNone)); [| eauto].
  destruct (crawl_website E _ _) as [[| | | | | | d] | e]; unfold failed_record; eauto.
  destruct (summarize_content E _ _); eauto.
Qed.

Lemma with_summary_lookup (c : dict) (summary metadata : pyval) :
  with_summary c summary metadata !! "summary" = Some summary
  /\ with_summary c summary metadata !! "metadata" = Some metadata
  /\ forall k, k <> "summary" -> k <> "metadata" ->
               with_summary c summary metadata !! k = c !! k.
Proof.
  unfold with_summary. split; [| split].
  - rewrite lookup_insert_ne by discriminate. apply lookup_insert_eq.
  - apply lookup_insert_eq.
  - intros k Hs Hm. rewrite !lookup_insert_ne by congruence. reflexivity.
Qed.

(** X18.  Enrichment adds to a candidate and takes nothing away.  Every
    record [discover_competitors] returns is its candidate with the keys
    [summary] and [metadata] set (both always present afterwards) and every
    other key, name, URL and description among them, as the search returned
    it. *)
Theorem enrichment_keeps_candidate_fields
    (E : Env) (input_text : string) (is_url : bool) (h pre : list event)
    (description : pyval) (candidates : list dict) :
  reaches_search E input_text is_url h pre description ->
  py_truthy E description = true ->
  find_similar_companies E (h ++ pre) description = Ok candidates ->
  exists out,
    outcome (discover_competitors E input_text is_url h) = Ok out
    /\ length out = length candidates
    /\ forall i c, candidates !! i = Some c ->
         exists o, out !! i = Some o
                   /\ is_Some (o !! "summary")
                   /\ is_Some (o !! "metadata")
                   /\ forall k, k <> "summary" -> k <> "metadata" -> o !! k = c !! k.
Proof.
  intros Hreach Hd Hsearch.
  destruct (discover_competitors_tail E input_text is_url h pre description Hreach)
    as [Htail _].
  rewrite Htail. cbn [outcome snd].
  rewrite (discover_run E description (h ++ pre) candidates Hd Hsearch).
  destruct candidates as [| c0 rest].
  { exists []. split; [reflexivity |]. split; [reflexivity |]. intros i c Hi. inversion Hi. }
  set (candidates := c0 :: rest) in *. cbn [snd].
  set (h0 := (h ++ pre) ++ _).
  destruct (enrich_loop_total E candidates (length candidates) 0 h0) as (out & Hout & Hlen).
  exists out. split; [exact Hout |]. split; [exact Hlen |].
  intros i c Hi.
  destruct (enrich_one_shape E (length candidates) (0 + i) c
              (h0 ++ events (enrich_loop E (length candidates) 0 (take i candidates) h0)))
    as (summary & metadata & Hone).
  pose proof (enrich_loop_lookup E candidates (length candidates) 0 h0 i c _ out
                Hout Hi Hone) as Hentry.
  destruct (with_summary_lookup c summary metadata) as (Hs & Hm & Hk).
  exists (with_summary c summary metadata).
  split; [exact Hentry |]. split; [eauto |]. split; [eauto | exact Hk].
Qed.

Lemma enrichment_keeps_candidate_fields_witness :
  let E := Scenario.world (Scenario.crawl_failing_on "https://competitorb.com")
             (Scenario.search_top 3) Scenario.llm_down in
  exists out o,
    outcome (discover_competitors E "We build developer tools" false []) = Ok out
    /\ out !! 1%nat = Some o
    /\ o !! "name" = Some (PStr "CompetitorB")
    /\ o !! "url" = Some (PStr "https://competitorb.com")
    /\ is_Some (o !! "summary").
Proof.
  intros E.
  destruct (enrichment_keeps_candidate_fields E "We build developer tools" false [] []
              (PStr "We build developer tools") (take 3 Scenario.companies))
    as (out & Hout & _ & Hall); [split; reflexivity | reflexivity | reflexivity |].
  destruct (Hall 1%nat _ eq_refl) as (o & Ho & Hs & _ & Hk).
  exists out, o. split; [exact Hout |]. split; [exact Ho |].
  split; [rewrite Hk by discriminate; reflexivity |].
  split; [rewrite Hk by discriminate; reflexivity | exact Hs].
Defined.

(** X19.  What is crawled.  In a run of [discover_competitors] that reaches
    the loop, the crawler is called for the URL the user entered (for a URL
    input) and then exactly once for each candidate that has a URL, in the
    order of the candidates; a candidate without URL is never crawled, and a
    crawl that failed is not tried again. *)
Theorem each_candidate_url_crawled_once
    (E : Env) (input_text : string) (is_url : bool) (h pre : list event)
    (description : pyval) (candidates : list dict) :
  reaches_search E input_text is_url h pre description ->
  py_truthy E description = true ->
  find_similar_companies E (h ++ pre) description = Ok candidates ->
  crawled (events (discover_competitors E input_text is_url h))
  = (if is_url then [PStr input_text] else []) ++ candidate_urls E candidates.
Proof.
  intros Hreach Hd Hsearch.
  destruct (discover_competitors_tail E input_text is_url h pre description Hreach)
    as [Htail _].
  rewrite Htail. unfold events at 1. cbn [fst]. rewrite crawled_app.
  destruct (discover_from_description_events E description (h ++ pre) Hd)
    as (rest & -> & _ & Hcrawl).
  cbn [crawled]. rewrite (Hcrawl candidates Hsearch). f_equal.
  unfold reaches_search in Hreach. destruct is_url.
  - destruct Hreach as (_ & d & _ & Hpre). cbn zeta in Hpre.
    destruct (py_truthy E (dict_get d "description" (PStr EmptyString)));
      destruct Hpre as [-> _]; reflexivity.
  - destruct Hreach as [-> _]. reflexivity.
Qed.

Lemma each_candidate_url_crawled_once_witness :
  let E := Scenario.world (Scenario.crawl_failing_on "https://competitorb.com")
             (Scenario.search_top 3) Scenario.llm_down in
  crawled (events (discover_competitors E "We build developer tools" false []))
  = [PStr "https://competitora.com"; PStr "https://competitorb.com";
     PStr "https://competitorc.com"].
Proof.
  intros E.
  rewrite (each_candidate_url_crawled_once E "We build developer tools" false [] []
             (PStr "We build developer tools") (take 3 Scenario.companies));
    [reflexivity | split; reflexivity | reflexivity | reflexivity].
Defined.

(** ** The placeholder agents *)

Lemma split_go_nonempty (sep : list ascii) (skip : nat) (s cur : list ascii) :
  exists piece rest, split_go sep skip s cur = piece :: rest.
Proof.
  revert skip cur. induction s as [| c r IH]; intros skip cur; cbn [split_go]; [eauto |].
  destruct skip as [| k]; [| apply IH].
  destruct (Json.strip_prefix sep (c :: r)); [eauto | apply IH].
Qed.

Lemma split_go_absent (sep s cur : list ascii) :
  find_split sep s = None -> split_go sep 0 s cur = [rev cur ++ s].
Proof.
  revert cur. induction s as [| c r IH]; intros cur; cbn [find_split split_go].
  - intros _. rewrite app_nil_r. reflexivity.
  - destruct (Json.strip_prefix sep (c :: r)); [discriminate |].
    destruct (find_split sep r) as [[b a] |] eqn:Hr; [discriminate |].
    intros _. rewrite (IH (c :: cur) eq_refl). cbn [rev]. rewrite <- app_assoc. reflexivity.
Qed.

Lemma split_go_present (sep s cur : list ascii) :
  sep <> [] ->
  find_split sep s <> None ->
  exists first second rest, split_go sep 0 s cur = first :: second :: rest.
Proof.
  intros Hsep. revert cur. induction s as [| c r IH]; intros cur;
    cbn [find_split split_go].
  - destruct sep; [contradiction | cbn; contradiction].
  - destruct (Json.strip_prefix sep (c :: r)).
    + intros _. destruct (split_go_nonempty sep (length sep - 1) r []) as (p & ps & ->).
      eauto.
    + destruct (find_split sep r) as [[b a] |] eqn:Hr; [| contradiction].
      intros _. apply IH. discriminate.
Qed.

Lemma find_split_of_app (needle before after : list ascii) :
  find_split needle (before ++ needle ++ after) <> None.
Proof.
  induction before as [| c b IH]; cbn [app].
  - destruct (needle ++ after) as [| x xs] eqn:Hs; cbn [find_split];
      rewrite <- Hs, strip_prefix_of_app; discriminate.
  - cbn [find_split]. destruct (Json.strip_prefix needle (c :: b ++ needle ++ after));
      [discriminate |].
    destruct (find_split needle (b ++ needle ++ after)) as [[x y] |];
      [discriminate | contradiction].
Qed.

Lemma occurs_in_find_split (needle text : string) :
  occurs_in needle text <->
  find_split (list_ascii_of_string needle) (list_ascii_of_string text) <> None.
Proof.
  split.
  - intros (before & after & ->). rewrite !list_ascii_of_append. apply find_split_of_app.
  - destruct (find_split _ _) as [[b a] |] eqn:Hs; [| contradiction].
    intros _. exact (find_split_occurs needle text b a Hs).
Qed.

Lemma prefix_app (p s : string) :
  String.prefix p s = true -> exists rest, s = p +:+ rest.
Proof.
  revert s. induction p as [| a p IH]; intros s.
  - intros _. exists s. reflexivity.
  - destruct s as [| b s]; cbn [String.prefix]; [discriminate |].
    destruct (ascii_dec a b) as [-> | _]; [| discriminate].
    intros H. destruct (IH s H) as [rest ->]. exists rest. reflexivity.
Qed.

Lemma http_scheme_has_separator (url : string) :
  has_http_scheme url = true -> occurs_in "://" url.
Proof.
  unfold has_http_scheme. intros H. apply orb_prop in H as [H | H];
    apply prefix_app in H as [rest ->].
  - exists "http", rest. reflexivity.
  - exists "https", rest. reflexivity.
Qed.

Section PlaceholderFacts.

Variable capitalize : string -> string.

Lemma placeholder_crawl_run (url : string) (h : list event) :
  events (FirecrawlAgent_crawl_website capitalize url h)
  = [Print ("Mock Crawling: " +:+ url)]
  /\ ((exists first after rest, py_split "://" url = first :: after :: rest) ->
      exists title,
        outcome (FirecrawlAgent_crawl_website capitalize url h)
        = Ok (PDict (list_to_map
               [("url", PStr url); ("title", PStr title);
                ("description", PStr "A company specializing in services and products.");
                ("content", PStr "Lorem ipsum dolor sit amet, consectetur adipiscing elit. Sed do eiusmod tempor incididunt ut labore et dolore magna aliqua.");
                ("metadata", mock_metadata)])))
  /\ ((forall first after rest, py_split "://" url <> first :: after :: rest) ->
      outcome (FirecrawlAgent_crawl_website capitalize url h)
      = Raise (IndexError "list index out of range")).
Proof.
  unfold FirecrawlAgent_crawl_website. run_simpl.
  destruct (py_split "://" url) as [| first [| after rest]] eqn:Hsplit.
  - split; [reflexivity |]. split; [intros (f & a & r & Habs); discriminate | reflexivity].
  - split; [reflexivity |]. split; [intros (f & a & r & Habs); discriminate | reflexivity].
  - split; [reflexivity |]. split; [eexists; reflexivity |].
    intros Habs. exfalso. exact (Habs _ _ _ eq_refl).
Qed.

Lemma py_split_pieces (url : string) :
  (exists first after rest, py_split "://" url = first :: after :: rest)
  <-> occurs_in "://" url.
Proof.
  rewrite occurs_in_find_split. unfold py_split.
  destruct (find_split (list_ascii_of_string "://") (list_ascii_of_string url))
    as [[b a] |] eqn:Hs.
  - split; [discriminate |]. intros _.
    destruct (split_go_present (list_ascii_of_string "://") (list_ascii_of_string url) [])
      as (x & y & r & ->); [discriminate | rewrite Hs; discriminate |].
    cbn [fmap list_fmap]. eauto.
  - rewrite (split_go_absent _ _ [] Hs). cbn [rev app fmap list_fmap].
    split; [intros (f & a & r & Habs); discriminate | contradiction].
Qed.

(** X20.  The placeholder crawler fails exactly on a URL without the
    separator [://] between scheme and host, with an [IndexError]; it prints
    its notice in either case.  A URL that passed the scheme check of
    [discover_competitors] therefore never makes it fail, and the record it
    returns echoes the URL and carries the fixed description, content and
    metadata. *)
Theorem placeholder_crawl_fails_without_separator (url : string) (h : list event) :
  let run := FirecrawlAgent_crawl_website capitalize url h in
  events run = [Print ("Mock Crawling: " +:+ url)]
  /\ (outcome run = Raise (IndexError "list index out of range")
      <-> ~ occurs_in "://" url)
  /\ (has_http_scheme url = true ->
      exists d,
        outcome run = Ok (PDict d)
        /\ d !! "url" = Some (PStr url)
        /\ d !! "description" = Some (PStr "A company specializing in services and products.")
        /\ d !! "metadata" = Some mock_metadata
        /\ is_Some (d !! "title")
        /\ is_Some (d !! "content")).
Proof.
  intros run. destruct (placeholder_crawl_run url h) as (Hev & Hok & Hfail).
  split; [exact Hev |]. split; [split |].
  - intros Hraise Hocc. apply py_split_pieces in Hocc.
    destruct (Hok Hocc) as [title Htitle]. unfold run in Hraise. congruence.
  - intros Hno. apply Hfail. intros f a r Hsplit. apply Hno, py_split_pieces. eauto.
  - intros Hscheme.
    destruct (Hok (proj2 (py_split_pieces url) (http_scheme_has_separator url Hscheme)))
      as [title Htitle].
    eexists. split; [exact Htitle |].
    split; [reflexivity |]. split; [reflexivity |]. split; [reflexivity |].
    split; eexists; reflexivity.
Qed.

Lemma placeholder_search_answer (E : Env) (s : string) (h : list event) :
  find_similar_companies (with_placeholders capitalize E) h (PStr s) = Ok mock_companies.
Proof. reflexivity. Qed.

Lemma placeholder_loop (E : Env) (h : list event) :
  outcome (enrich_loop (with_placeholders capitalize E) 5 0 mock_companies h)
  = Ok ((fun c => with_summary c (PStr mock_summary) mock_metadata) <$> mock_companies).
Proof. reflexivity. Qed.

Lemma placeholder_discovery (E : Env) (s : string) (h : list event) :
  s <> EmptyString ->
  outcome (discover_from_description (with_placeholders capitalize E) (PStr s) h)
  = Ok ((fun c => with_summary c (PStr mock_summary) mock_metadata) <$> mock_companies).
Proof.
  intros Hs.
  assert (Hd : py_truthy (with_placeholders capitalize E) (PStr s) = true).
  { cbn. destruct (String.eqb_spec s EmptyString); [contradiction | reflexivity]. }
  rewrite (discover_run _ (PStr s) h mock_companies Hd (placeholder_search_answer E s h)).
  apply placeholder_loop.
Qed.

(** X22.  With the placeholder agents of the source as collaborators no
    exception ever leaves discovery or the report.  [discover_competitors]
    returns the empty list for an empty description or a URL without an http
    scheme, and otherwise the five fixed competitors, each with the fixed
    summary and metadata, whatever the input says; for these records
    [generate_intelligence_report] returns for every agent and backend. *)
Theorem placeholders_never_fail
    (E : Env) (input_text : string) (is_url : bool) (h : list event) :
  let E' := with_placeholders capitalize E in
  let enriched :=
    (fun c => with_summary c (PStr mock_summary) mock_metadata) <$> mock_companies in
  outcome (discover_competitors E' input_text is_url h)
  = Ok (if (if is_url then has_http_scheme input_text
            else negb (String.eqb input_text EmptyString))
        then enriched else [])
  /\ forall self h',
       exists report, outcome (generate_intelligence_report E' self enriched h') = Ok report.
Proof.
  intros E' enriched. split.
  - destruct is_url.
    + destruct (has_http_scheme input_text) eqn:Hscheme.
      * destruct (placeholder_crawl_run input_text h) as (_ & Hok & _).
        destruct (Hok (proj2 (py_split_pieces input_text)
                         (http_scheme_has_separator input_text Hscheme)))
          as [title Htitle].
        assert (Hreach : reaches_search E' input_text true h [CrawlCall (PStr input_text)]
                           (PStr "A company specializing in services and products.")).
        { unfold reaches_search. split; [exact Hscheme |]. eexists. split.
          - cbn [crawl_website E' with_placeholders placeholder_crawl]. exact Htitle.
          - split; reflexivity. }
        destruct (discover_competitors_tail E' input_text true h _ _ Hreach) as [-> _].
        cbn [outcome snd]. apply placeholder_discovery. discriminate.
      * unfold discover_competitors. rewrite Hscheme. reflexivity.
    + rewrite discover_description_entry.
      destruct (String.eqb_spec input_text EmptyString) as [-> | Hne]; [reflexivity |].
      cbn [negb]. apply placeholder_discovery. exact Hne.
  - intros self h'. apply generate_intelligence_report_returns.
    unfold enriched, mock_companies. cbn [fmap list_fmap]. repeat constructor.
Qed.

End PlaceholderFacts.

Lemma placeholder_crawl_fails_without_separator_witness :
  exists d,
    outcome (FirecrawlAgent_crawl_website (fun s => s) "https://competitora.com" [])
    = Ok (PDict d)
    /\ d !! "url" = Some (PStr "https://competitora.com")
    /\ d !! "metadata" = Some mock_metadata.
Proof.
  destruct (placeholder_crawl_fails_without_separator (fun s => s)
              "https://competitora.com" []) as (_ & _ & Hok).
  destruct (Hok eq_refl) as (d & Hd & Hurl & _ & Hmeta & _).
  exists d. split; [exact Hd |]. split; [exact Hurl | exact Hmeta].
Defined.

Lemma take_own_length {A} (n : nat) (l : list A) :
  take n l = take (length (take n l)) l.
Proof.
  rewrite length_take. destruct (Nat.le_gt_cases n (length l)) as [Hle | Hgt].
  - rewrite Nat.min_l by exact Hle. reflexivity.
  - rewrite Nat.min_r by lia. rewrite !take_ge by lia. reflexivity.
Qed.

Lemma mock_companies_have_urls :
  Forall (fun c : dict =>
            exists name url,
              c !! "name" = Some (PStr name) /\ c !! "url" = Some (PStr url)
              /\ has_http_scheme url = true)
    mock_companies.
Proof.
  unfold mock_companies. cbn [fmap list_fmap].
  repeat (constructor; [eexists _, _; split; [reflexivity |]; split; reflexivity |]).
  constructor.
Qed.

(** X21.  The placeholder search returns a prefix of its five fixed
    companies: the first [count] of them for a count of zero or more (all
    five for the default count and beyond), and for a negative count the
    list without its last [-count] companies.  Each company it returns has a
    name and a URL with an http scheme, so each is crawled. *)
Theorem placeholder_search_count (description : string) (count : Z) (h : list event) :
  exists found,
    outcome (ExaSearchAgent_find_similar_companies description count h) = Ok found
    /\ found = take (length found) mock_companies
    /\ Z.of_nat (length found)
       = (if (0 <=? count)%Z then Z.min count 5 else Z.max 0 (5 + count))%Z
    /\ Forall (fun c : dict =>
                 exists name url,
                   c !! "name" = Some (PStr name) /\ c !! "url" = Some (PStr url)
                   /\ has_http_scheme url = true)
         found.
Proof.
  exists (slice_to count mock_companies). split; [reflexivity |].
  assert (Hlen : length mock_companies = 5%nat) by reflexivity.
  unfold slice_to.
  destruct (0 <=? count)%Z eqn:Hc.
  - apply Z.leb_le in Hc. split; [| split].
    + apply take_own_length.
    + rewrite length_take, Hlen. lia.
    + apply Forall_take, mock_companies_have_urls.
  - apply Z.leb_gt in Hc. split; [| split].
    + apply take_own_length.
    + rewrite length_take, Hlen. lia.
    + apply Forall_take, mock_companies_have_urls.
Qed.

(** * URLs found in a description *)

Lemma prefix_append (p s t : string) :
  String.prefix p s = true -> String.prefix p (s +:+ t) = true.
Proof.
  revert s. induction p as [| a p IH]; intros s.
  { intros _. now destruct (s +:+ t). }
  destruct s as [| b s]; cbn [String.prefix]; [discriminate |].
  rewrite append_cons. cbn [String.prefix].
  destruct (ascii_dec a b); [apply IH | discriminate].
Qed.

Section UrlFacts.

Variable is_word : ascii -> bool.

Lemma url_run_app (s : list ascii) :
  s = (url_run is_word s).1 ++ (url_run is_word s).2.
Proof.
  induction s as [s IH] using (induction_ltof1 _ (@length ascii)).
  unfold ltof in IH. destruct s as [| c r]; [reflexivity |].
  cbn [url_run].
  destruct (Ascii.eqb c "-" || is_word c || Ascii.eqb c ".").
  { pose proof (IH r ltac:(cbn; lia)) as Hr.
    destruct (url_run is_word r) as [run rest]. cbn in *. now f_equal. }
  destruct (Ascii.eqb c "%") eqn:Hc; cycle 1.
  { destruct c as [[] [] [] [] [] [] [] []]; try discriminate Hc; reflexivity. }
  apply Ascii.eqb_eq in Hc. subst c.
  destruct r as [| h1 [| h2 r']]; try reflexivity.
  destruct (is_hex h1 && is_hex h2); [| reflexivity].
  pose proof (IH r' ltac:(cbn; lia)) as Hr.
  destruct (url_run is_word r') as [run rest]. cbn in *. now do 3 f_equal.
Qed.

Lemma match_url_found (s m : list ascii) :
  match_url is_word s = Some m ->
  (exists rest, s = m ++ rest) /\ m <> [] /\
  has_http_scheme (string_of_list_ascii m) = true.
Proof.
  unfold match_url.
  assert (Hscheme : forall scheme,
    has_http_scheme scheme = true -> scheme <> EmptyString ->
    match Json.strip_prefix (list_ascii_of_string scheme) s with
    | Some rest =>
        match url_run is_word rest with
        | ([], _) => None
        | (run, _) => Some (list_ascii_of_string scheme ++ run)
        end
    | None => None
    end = Some m ->
    (exists rest, s = m ++ rest) /\ m <> [] /\
    has_http_scheme (string_of_list_ascii m) = true).
  { intros scheme Hs Hne H.
    destruct (Json.strip_prefix _ s) as [rest |] eqn:Hp; [| discriminate].
    apply strip_prefix_app in Hp.
    pose proof (url_run_app rest) as Hr.
    destruct (url_run is_word rest) as [[| c run] rest']; [discriminate |].
    injection H as <-. cbn in Hr. split; [| split].
    - exists rest'. now rewrite Hp, Hr, <- app_assoc.
    - destruct scheme; [congruence | discriminate].
    - rewrite string_of_list_ascii_app, string_of_list_ascii_of_string.
      unfold has_http_scheme in *.
      apply orb_true_iff in Hs. apply orb_true_iff.
      destruct Hs as [Hs | Hs]; [left | right]; now apply prefix_append. }
  destruct (match Json.strip_prefix (list_ascii_of_string "https://") s with
            | Some _ => _ | None => _ end) as [m' |] eqn:H1.
  - intros [= <-]. now apply (Hscheme "https://"%string).
  - now apply (Hscheme "http://"%string).
Qed.

Lemma findall_urls_found (s : list ascii) : forall (skip : nat) (m : list ascii),
  m ∈ findall_urls is_word skip s ->
  (exists pre post, s = pre ++ m ++ post) /\
  has_http_scheme (string_of_list_ascii m) = true.
Proof.
  induction s as [| c r IH]; intros skip m Hm; cbn in Hm.
  { now apply elem_of_nil in Hm. }
  assert (Hlater : forall k, m ∈ findall_urls is_word k r ->
    (exists pre post, c :: r = pre ++ m ++ post) /\
    has_http_scheme (string_of_list_ascii m) = true).
  { intros k Hk. destruct (IH k m Hk) as [(pre & post & ->) Hs].
    split; [| exact Hs]. now exists (c :: pre), post. }
  destruct skip as [| k]; [| now apply (Hlater k)].
  destruct (match_url is_word (c :: r)) as [m' |] eqn:Hmatch;
    [| now apply (Hlater 0%nat)].
  apply elem_of_cons in Hm. destruct Hm as [-> | Hm]; [| exact (Hlater _ Hm)].
  destruct (match_url_found _ _ Hmatch) as ((rest & Hrest) & _ & Hs).
  split; [| exact Hs]. exists [], rest. exact Hrest.
Qed.

(** X23: every URL [extract_urls_from_description] returns is a piece of the
    description and starts with [http://] or [https://], so that
    [discover_competitors] given it takes the URL branch. *)
Theorem extracted_urls_are_scheme_prefixed (description u : string) :
  u ∈ extract_urls_from_description is_word description ->
  occurs_in u description /\ has_http_scheme u = true.
Proof.
  unfold extract_urls_from_description. intros Hu.
  apply list_elem_of_fmap in Hu. destruct Hu as (m & -> & Hm).
  destruct (findall_urls_found _ _ _ Hm) as [(pre & post & Hs) Hscheme].
  split; [| exact Hscheme].
  exists (string_of_list_ascii pre), (string_of_list_ascii post).
  rewrite <- !string_of_list_ascii_app, <- Hs.
  now rewrite string_of_list_ascii_of_string.
Qed.

End UrlFacts.

Lemma extracted_urls_are_scheme_prefixed_witness :
  "https://a.com"%string ∈
    extract_urls_from_description ascii_word "see https://a.com/x and b" /\
  occurs_in "https://a.com" "see https://a.com/x and b" /\
  has_http_scheme "https://a.com" = true.
Proof.
  assert (H : "https://a.com"%string ∈
    extract_urls_from_description ascii_word "see https://a.com/x and b").
  { vm_compute. apply list_elem_of_here. }
  split; [exact H |].
  exact (extracted_urls_are_scheme_prefixed ascii_word _ _ H).
Defined.
